(** * CardMail Pro: the card-processing pipeline, embedded and verified

    The TypeScript helpers that turn OCR text into a contact record and a
    contact record into an e-mail are embedded here as Rocq functions:

    - [JS]: the fragment of the JavaScript runtime the helpers rely on
      (UTF-16 strings, [trim], [split], [includes], [endsWith], [replace],
      truthiness, numbers with NaN and the infinities);
    - [Regex]: a backtracking matcher for the regular expressions the source
      writes down, with the [lastIndex] state of global patterns;
    - [Coercion]: the values [JSON.parse] returns and their conversion to a
      number, for the one place where the source computes with a value it
      has not checked;
    - one module per source file for the extractors, the composers and the
      two pipelines.

    External collaborators (the OpenAI client, [fetch], Tesseract, JSON and
    zod parsing) are arguments of the functions that call them. *)

From Stdlib Require Import String Ascii List Bool Arith NArith ZArith QArith Lia.
From Stdlib Require Import Sorted Lqa.
Import ListNotations.
Close Scope Q_scope.

Set Implicit Arguments.

(* ================================================================== *)
(** ** The JavaScript runtime fragment *)
(* ================================================================== *)

Module JS.

(** A JavaScript string is a sequence of UTF-16 code units. *)
Definition jsstring := list N.

(** Source literals are written as Rocq strings; the file is UTF-8, so a
    literal is decoded from its UTF-8 bytes to UTF-16 code units. *)
Fixpoint utf16 (bs : list N) : jsstring :=
  match bs with
  | [] => []
  | b :: r =>
      if (b <? 128)%N then b :: utf16 r
      else if (b <? 224)%N then
        match r with
        | c1 :: r' => ((b mod 32) * 64 + c1 mod 64)%N :: utf16 r'
        | _ => []
        end
      else if (b <? 240)%N then
        match r with
        | c1 :: c2 :: r' =>
            ((b mod 16) * 4096 + (c1 mod 64) * 64 + c2 mod 64)%N :: utf16 r'
        | _ => []
        end
      else
        match r with
        | c1 :: c2 :: c3 :: r' =>
            let cp := ((b mod 8) * 262144 + (c1 mod 64) * 4096
                       + (c2 mod 64) * 64 + c3 mod 64)%N in
            let v := (cp - 65536)%N in
            (55296 + v / 1024)%N :: (56320 + v mod 1024)%N :: utf16 r'
        | _ => []
        end
  end.

Definition lit (s : string) : jsstring :=
  utf16 (map N_of_ascii (list_ascii_of_string s)).

(** The line feed, written [\n] in the source. *)
Definition LF : N := 10%N.
Definition nl : jsstring := [LF].

Definition str_eqb (a b : jsstring) : bool :=
  if list_eq_dec N.eq_dec a b then true else false.

(** Truthiness of a string: only the empty string is falsy. *)
Definition truthy (s : jsstring) : bool :=
  match s with [] => false | _ => true end.

(** Truthiness of a possibly undefined string. *)
Definition truthy_opt (s : option jsstring) : bool :=
  match s with Some x => truthy x | None => false end.

(** [a || b] where [a] may be undefined and [b] is a string. *)
Definition or_else (a : option jsstring) (b : jsstring) : jsstring :=
  match a with
  | Some x => if truthy x then x else b
  | None => b
  end.

(** [a || b || ''] where [a] is a string and [b] may be undefined. *)
Definition or3 (a : jsstring) (b : option jsstring) : jsstring :=
  if truthy a then a else or_else b [].

(** WhiteSpace and LineTerminator code units: what [trim] strips and what
    [\s] matches. *)
Definition is_ws (c : N) : bool :=
  ((9 <=? c) && (c <=? 13) || (c =? 32) || (c =? 160) || (c =? 5760)
   || (8192 <=? c) && (c <=? 8202) || (c =? 8232) || (c =? 8233)
   || (c =? 8239) || (c =? 8287) || (c =? 12288) || (c =? 65279))%N.

Fixpoint trimStart (s : jsstring) : jsstring :=
  match s with
  | c :: r => if is_ws c then trimStart r else s
  | [] => []
  end.

Definition trimEnd (s : jsstring) : jsstring := rev (trimStart (rev s)).

Definition trim (s : jsstring) : jsstring := trimEnd (trimStart s).

(** [s.split('\n')]: the empty string splits into one empty piece. *)
Fixpoint split_lines (s : jsstring) : list jsstring :=
  match s with
  | [] => [[]]
  | c :: r =>
      if (c =? LF)%N then [] :: split_lines r
      else match split_lines r with
           | h :: t => (c :: h) :: t
           | [] => [[c]]
           end
  end.

Fixpoint startsWith (s p : jsstring) : bool :=
  match p, s with
  | [], _ => true
  | x :: p', y :: s' => (x =? y)%N && startsWith s' p'
  | _ :: _, [] => false
  end.

(** [s.indexOf(p)], [None] for -1. *)
Fixpoint indexOf_from (i : nat) (s p : jsstring) : option nat :=
  if startsWith s p then Some i
  else match s with
       | [] => None
       | _ :: s' => indexOf_from (S i) s' p
       end.

Definition indexOf (s p : jsstring) : option nat := indexOf_from 0 s p.

Definition includes (s p : jsstring) : bool :=
  match indexOf s p with Some _ => true | None => false end.

Definition endsWith (s p : jsstring) : bool :=
  (length p <=? length s) && str_eqb (skipn (length s - length p) s) p.

Definition substring (s : jsstring) (i e : nat) : jsstring :=
  firstn (e - i) (skipn i s).

(** GetSubstitution for a string pattern (no capture groups): [$$], [$&],
    [$`] and [$'] are expanded, every other [$] stays as written. *)
Fixpoint getSubstitution (matched before after repl : jsstring) : jsstring :=
  match repl with
  | [] => []
  | c :: r =>
      if (c =? 36)%N then
        match r with
        | d :: r' =>
            if (d =? 36)%N then 36%N :: getSubstitution matched before after r'
            else if (d =? 38)%N then matched ++ getSubstitution matched before after r'
            else if (d =? 96)%N then before ++ getSubstitution matched before after r'
            else if (d =? 39)%N then after ++ getSubstitution matched before after r'
            else c :: getSubstitution matched before after r
        | [] => [c]
        end
      else c :: getSubstitution matched before after r
  end.

(** [s.replace(p, repl)] with a string pattern: the first occurrence only. *)
Definition replace (s p repl : jsstring) : jsstring :=
  match indexOf s p with
  | None => s
  | Some i =>
      let before := firstn i s in
      let after := skipn (i + length p) s in
      before ++ getSubstitution p before after repl ++ after
  end.

Fixpoint join (sep : jsstring) (l : list jsstring) : jsstring :=
  match l with
  | [] => []
  | [x] => x
  | x :: r => x ++ sep ++ join sep r
  end.

(** A template literal spread over several source lines. *)
Definition text_lines (l : list jsstring) : jsstring := join nl l.

(** [arr.findIndex(f)], [None] for -1. *)
Fixpoint findIndex_from {A} (i : nat) (f : A -> bool) (l : list A) : option nat :=
  match l with
  | [] => None
  | x :: r => if f x then Some i else findIndex_from (S i) f r
  end.

Definition findIndex {A} (f : A -> bool) (l : list A) : option nat :=
  findIndex_from 0 f l.

(** JavaScript numbers.  Finite values are exact rationals: the helpers only
    compare confidences and take [Math.min] and [Math.max] of them, and the
    worker adds small integers, all of which is exact on doubles. *)
Inductive number :=
| NaN
| NegInf
| Fin (q : Q)
| PosInf.

(** [a < b] *)
Definition num_ltb (a b : number) : bool :=
  match a, b with
  | NaN, _ | _, NaN => false
  | _, NegInf => false
  | NegInf, _ => true
  | PosInf, _ => false
  | Fin _, PosInf => true
  | Fin p, Fin q => negb (Qle_bool q p)
  end.

(** [a <= b] *)
Definition num_leb (a b : number) : bool :=
  match a, b with
  | NaN, _ | _, NaN => false
  | NegInf, _ => true
  | _, PosInf => true
  | _, NegInf => false
  | PosInf, _ => false
  | Fin p, Fin q => Qle_bool p q
  end.

Definition Math_max (a b : number) : number :=
  match a, b with
  | NaN, _ | _, NaN => NaN
  | PosInf, _ | _, PosInf => PosInf
  | NegInf, x | x, NegInf => x
  | Fin p, Fin q => if Qle_bool p q then Fin q else Fin p
  end.

Definition Math_min (a b : number) : number :=
  match a, b with
  | NaN, _ | _, NaN => NaN
  | NegInf, _ | _, NegInf => NegInf
  | PosInf, x | x, PosInf => x
  | Fin p, Fin q => if Qle_bool p q then Fin p else Fin q
  end.

(** Truthiness of a number: 0 and NaN are falsy. *)
Definition num_truthy (a : number) : bool :=
  match a with
  | NaN => false
  | Fin q => negb (Qeq_bool q 0)
  | _ => true
  end.

(** The closed unit interval. *)
Definition in_unit (a : number) : Prop :=
  exists q, a = Fin q /\ (0 <= q)%Q /\ (q <= 1)%Q.

(** A value read from JSON, as far as the helpers look at it. *)
Inductive json :=
| JNull
| JBool (b : bool)
| JNum (n : number)
| JStr (s : jsstring)
| JObject.

Definition json_truthy (v : json) : bool :=
  match v with
  | JNull => false
  | JBool b => b
  | JNum n => num_truthy n
  | JStr s => truthy s
  | JObject => true
  end.

(** [v || d] where the property [v] may be missing. *)
Definition json_or (v : option json) (d : json) : json :=
  match v with
  | Some x => if json_truthy x then x else d
  | None => d
  end.

(** [v || undefined] *)
Definition json_or_undefined (v : option json) : option json :=
  match v with
  | Some x => if json_truthy x then Some x else None
  | None => None
  end.

(** Outcome of a call that may throw. *)
Inductive result (A : Type) :=
| Ok (a : A)
| Throw (msg : string).
Arguments Throw {A} msg.

End JS.

Import JS.

(* ================================================================== *)
(** ** Regular expressions *)
(* ================================================================== *)

Module Regex.

(** A character class: ranges of code units, possibly negated. *)
Record cls := Cls { negated : bool; ranges : list (N * N) }.

Definition in_range (x : N) (r : N * N) : bool :=
  ((fst r <=? x) && (x <=? snd r))%N.

Definition cls_mem (c : cls) (x : N) : bool :=
  xorb (negated c) (existsb (in_range x) (ranges c)).

(** The patterns of the source quantify single characters and classes only,
    so a quantified class is the atom: [Rep c min max] is [c{min,max}],
    greedy; [max = None] is unbounded. *)
Inductive regex :=
| Empty
| Bol
| Eol
| Rep (c : cls) (min : nat) (max : option nat)
| Seq (r1 r2 : regex)
| Alt (r1 r2 : regex).

(** Greedy repetition with backtracking: take one more character when
    allowed, and give it back when the continuation fails. *)
Fixpoint greedy (c : cls) (min : nat) (max : option nat)
         (i : nat) (s : jsstring) (k : nat -> jsstring -> option nat)
  : option nat :=
  let stop := match min with O => k i s | S _ => None end in
  match s with
  | x :: s' =>
      let more := match max with Some O => false | _ => true end in
      if cls_mem c x && more then
        match greedy c (pred min) (option_map pred max) (S i) s' k with
        | Some e => Some e
        | None => stop
        end
      else stop
  | [] => stop
  end.

(** [rmatch r i s k]: match [r] at index [i], where [s] is the input from
    [i] on, then continue with [k]; the result is the end index. *)
Fixpoint rmatch (r : regex) (i : nat) (s : jsstring)
         (k : nat -> jsstring -> option nat) : option nat :=
  match r with
  | Empty => k i s
  | Bol => match i with O => k i s | S _ => None end
  | Eol => match s with [] => k i s | _ :: _ => None end
  | Rep c min max => greedy c min max i s k
  | Seq r1 r2 => rmatch r1 i s (fun i' s' => rmatch r2 i' s' k)
  | Alt r1 r2 =>
      match rmatch r1 i s k with
      | Some e => Some e
      | None => rmatch r2 i s k
      end
  end.

(** Leftmost match at or after index [i]. *)
Fixpoint search (r : regex) (i : nat) (s : jsstring) : option (nat * nat) :=
  match rmatch r i s (fun e _ => Some e) with
  | Some e => Some (i, e)
  | None =>
      match s with
      | [] => None
      | _ :: s' => search r (S i) s'
      end
  end.

(** RegExpBuiltinExec from [lastIndex]. *)
Definition exec (r : regex) (s : jsstring) (lastIndex : nat)
  : option (nat * nat) :=
  if length s <? lastIndex then None
  else search r lastIndex (skipn lastIndex s).

(** [s.match(r)[0]], [None] when [s.match(r)] is null.  For a global
    pattern [match] resets [lastIndex] and element 0 is the first match, so
    the same function serves both. *)
Definition str_match (r : regex) (s : jsstring) : option jsstring :=
  match exec r s 0 with
  | Some (i, e) => Some (substring s i e)
  | None => None
  end.

(** [r.test(s)] for a pattern without the [g] flag. *)
Definition test (r : regex) (s : jsstring) : bool :=
  match exec r s 0 with Some _ => true | None => false end.

(** [r.test(s)] for a global pattern: reads and writes [lastIndex]. *)
Definition test_g (r : regex) (s : jsstring) (lastIndex : nat) : bool * nat :=
  match exec r s lastIndex with
  | Some (_, e) => (true, e)
  | None => (false, 0)
  end.

(** A continuation is advancing when the index it returns is not before
    the index it is called at. *)
Definition advancing (k : nat -> jsstring -> option nat) : Prop :=
  forall j s e, k j s = Some e -> j <= e.

(** *** Building patterns *)

Definition code (a : ascii) : N := N_of_ascii a.

Definition range (a b : ascii) : N * N := (code a, code b).
Definition single (a : ascii) : N * N := (code a, code a).

Definition one (c : cls) : regex := Rep c 1 (Some 1).
Definition opt (c : cls) : regex := Rep c 0 (Some 1).
Definition star (c : cls) : regex := Rep c 0 None.
Definition plus (c : cls) : regex := Rep c 1 None.
Definition between (c : cls) (lo hi : nat) : regex := Rep c lo (Some hi).
Definition at_least (c : cls) (lo : nat) : regex := Rep c lo None.

Definition chr (a : ascii) : cls := Cls false [single a].
Definition unit_cls (x : N) : cls := Cls false [(x, x)].

(** [\d], [\w] and [\s] *)
Definition digit_ranges : list (N * N) := [range "0" "9"].
Definition word_ranges : list (N * N) :=
  [range "a" "z"; range "A" "Z"; range "0" "9"; single "_"].
Definition space_ranges : list (N * N) :=
  [(9, 13); (32, 32); (160, 160); (5760, 5760); (8192, 8202); (8232, 8233);
   (8239, 8239); (8287, 8287); (12288, 12288); (65279, 65279)]%N.

Definition digit : cls := Cls false digit_ranges.
Definition word : cls := Cls false word_ranges.
Definition space : cls := Cls false space_ranges.

(** [[^\n]] *)
Definition not_newline : cls := Cls true [(LF, LF)].

Fixpoint seq_of (l : list regex) : regex :=
  match l with
  | [] => Empty
  | [r] => r
  | r :: l' => Seq r (seq_of l')
  end.

Fixpoint alt_of (l : list regex) : regex :=
  match l with
  | [] => Empty
  | [r] => r
  | r :: l' => Alt r (alt_of l')
  end.

(** A literal run of characters. *)
Definition str (s : string) : regex := seq_of (map (fun x => one (unit_cls x)) (lit s)).

(** Under the [i] flag a letter of the pattern matches both of its cases;
    no code unit outside ASCII canonicalizes to an ASCII letter. *)
Definition both_cases (x : N) : cls :=
  if ((97 <=? x) && (x <=? 122))%N then Cls false [(x, x); (x - 32, x - 32)]%N
  else if ((65 <=? x) && (x <=? 90))%N then Cls false [(x, x); (x + 32, x + 32)]%N
  else unit_cls x.

Definition str_i (s : string) : regex := seq_of (map (fun x => one (both_cases x)) (lit s)).

(** A class listing the characters of a literal, as in [[abc]]. *)
Definition any_of (s : string) : list (N * N) := map (fun x => (x, x)) (lit s).

End Regex.

Import Regex.

(* ================================================================== *)
(** ** Values read from JSON and their conversion to a number *)
(* ================================================================== *)

Module Coercion.

(** What [JSON.parse] returns, in full.  Of an object only the names of its
    own properties matter to the conversions below. *)
#[warnings="-register-all"]
Inductive value :=
| VNull
| VBool (b : bool)
| VNum (n : number)
| VStr (s : jsstring)
| VArray (elements : list value)
| VObject (keys : list jsstring).

(** Truthiness: arrays and objects are truthy, also when empty. *)
Definition value_truthy (v : value) : bool :=
  match v with
  | VNull => false
  | VBool b => b
  | VNum n => num_truthy n
  | VStr s => truthy s
  | VArray _ => true
  | VObject _ => true
  end.

Definition sign : cls := Cls false (any_of "+-").

(** [ExponentPart] *)
Definition exponentPart : regex :=
  seq_of [one (Cls false (any_of "eE")); opt sign; plus digit].

Definition optional (r : regex) : regex := Alt r Empty.

(** [StrUnsignedDecimalLiteral] *)
Definition unsignedDecimal : regex :=
  alt_of [ str "Infinity";
           seq_of [plus digit; one (chr "."); star digit; optional exponentPart];
           seq_of [one (chr "."); plus digit; optional exponentPart];
           seq_of [plus digit; optional exponentPart] ].

(** [StrNumericLiteral]: a decimal literal with an optional sign, or a
    binary, octal or hexadecimal integer literal; the whole string. *)
Definition numericLiteral : regex :=
  alt_of [ seq_of [Bol; opt sign; unsignedDecimal; Eol];
           seq_of [Bol; str "0"; one (Cls false (any_of "bB"));
                   plus (Cls false [range "0" "1"]); Eol];
           seq_of [Bol; str "0"; one (Cls false (any_of "oO"));
                   plus (Cls false [range "0" "7"]); Eol];
           seq_of [Bol; str "0"; one (Cls false (any_of "xX"));
                   plus (Cls false [range "0" "9"; range "a" "f"; range "A" "F"]);
                   Eol] ].

(** What is taken from the runtime as given, because it rounds to a double:
    the decimal form of a number ([Number::toString]) and the value of a
    string that is a numeric literal. *)
Record Runtime := mkRuntime {
  numberToString : number -> jsstring;
  literalValue : jsstring -> number
}.

Section Conversions.

Variable rt : Runtime.

(** [StringToNumber]: white space around the literal is dropped, the empty
    string is 0, and a string that is not a numeric literal is NaN. *)
Definition StringToNumber (s : jsstring) : number :=
  let t := trim s in
  if negb (truthy t) then Fin 0
  else if test numericLiteral t then literalValue rt t
  else NaN.

(** [ToString].  An array is its elements joined by commas, [null] giving
    the empty string there.  An object read from JSON has no function among
    its properties: with a property [toString] of its own, no method is left
    to convert it and [ToPrimitive] throws a TypeError; any other object is
    ['[object Object]']. *)
Fixpoint ToString (v : value) : result jsstring :=
  match v with
  | VNull => Ok (lit "null")
  | VBool true => Ok (lit "true")
  | VBool false => Ok (lit "false")
  | VNum n => Ok (numberToString rt n)
  | VStr s => Ok s
  | VArray elements =>
      (fix joinElements (l : list value) : result jsstring :=
         match l with
         | [] => Ok []
         | element :: rest =>
             match (match element with VNull => Ok [] | _ => ToString element end) with
             | Throw message => Throw message
             | Ok s =>
                 match rest with
                 | [] => Ok s
                 | _ :: _ =>
                     match joinElements rest with
                     | Throw message => Throw message
                     | Ok r => Ok (s ++ lit "," ++ r)
                     end
                 end
             end
         end) elements
  | VObject keys =>
      if existsb (str_eqb (lit "toString")) keys
      then Throw "Cannot convert object to primitive value"
      else Ok (lit "[object Object]")
  end.

(** [ToNumber], as [Math.min] applies it to an argument. *)
Definition ToNumber (v : value) : result number :=
  match v with
  | VNull => Ok (Fin 0)
  | VBool true => Ok (Fin 1)
  | VBool false => Ok (Fin 0)
  | VNum n => Ok n
  | VStr s => Ok (StringToNumber s)
  | VArray _ | VObject _ =>
      match ToString v with
      | Throw message => Throw message
      | Ok s => Ok (StringToNumber s)
      end
  end.

End Conversions.

End Coercion.

(* ================================================================== *)
(** ** worker/src/processors/ocrAndSend.ts: the worker-side extractor *)
(* ================================================================== *)

Module Worker.

(** [OCRResult]: [role] is declared optional but always assigned a string;
    [confidence] is a sum of integer weights. *)
Record OCRResult := mkOCRResult {
  name : jsstring;
  email : jsstring;
  company : jsstring;
  role : jsstring;
  confidence : Z
}.

(** [[\w\.-]] *)
Definition word_dot_dash : cls :=
  Cls false (word_ranges ++ [single "."; single "-"]).

(** [/[\w\.-]+@[\w\.-]+\.\w+/] *)
Definition emailPattern : regex :=
  seq_of [plus word_dot_dash; one (chr "@"); plus word_dot_dash;
          one (chr "."); plus word].

(** [/[\d\-\(\)\+\s]{10,}/] *)
Definition phonePattern : regex :=
  at_least (Cls false (digit_ranges
                       ++ [single "-"; single "("; single ")"; single "+"]
                       ++ space_ranges)) 10.

(** The five company patterns, in the order they are tried. *)
Definition companyPatterns : list regex :=
  [ (* /株式会社[\s\w]+/ *)
    Seq (str "株式会社") (plus (Cls false (space_ranges ++ word_ranges)));
    (* /[\w]+株式会社/ *)
    Seq (plus word) (str "株式会社");
    (* /[\w]+\s*Co\.,?\s*Ltd\.?/i *)
    seq_of [plus word; star space; str_i "Co."; opt (chr ","); star space;
            str_i "Ltd"; opt (chr ".")];
    (* /[\w]+\s*Inc\.?/i *)
    seq_of [plus word; star space; str_i "Inc"; opt (chr ".")];
    (* /[\w]+\s*Corporation/i *)
    seq_of [plus word; star space; str_i "Corporation"] ].

(** [/[^\x00-\x7F]/] *)
Definition nonAscii : regex := one (Cls true [(0, 127)%N]).

(** [/^[A-Z][a-z]+\s+[A-Z][a-z]+$/] *)
Definition westernName : regex :=
  seq_of [Bol; one (Cls false [range "A" "Z"]); plus (Cls false [range "a" "z"]);
          plus space;
          one (Cls false [range "A" "Z"]); plus (Cls false [range "a" "z"]); Eol].

Definition matches (r : regex) (s : jsstring) : bool :=
  match str_match r s with Some _ => true | None => false end.

(** The company loop: the first pattern that matches somewhere in the text
    wins. *)
Fixpoint firstCompany (ps : list regex) (text : jsstring) : jsstring :=
  match ps with
  | [] => []
  | p :: ps' =>
      match str_match p text with
      | Some m => trim m
      | None => firstCompany ps' text
      end
  end.

(** The condition of the name loop on one line. *)
Definition isNameLine (line : jsstring) : bool :=
  negb (matches emailPattern line)
  && negb (matches phonePattern line)
  && negb (existsb (fun p => matches p line) companyPatterns)
  && (2 <? length line) && (length line <? 30)
  && (test nonAscii line || test westernName line).

Definition nonBlank (line : jsstring) : bool := truthy (trim line).

Definition extractBusinessCardInfo (text : jsstring) : OCRResult :=
  let lines := filter nonBlank (split_lines text) in
  let email := or_else (str_match emailPattern text) [] in
  let company := firstCompany companyPatterns text in
  let name :=
    match find isNameLine lines with
    | Some line => trim line
    | None => []
    end in
  let role :=
    match findIndex (fun l => includes l name) lines with
    | Some nameIndex =>
        if (Z.of_nat nameIndex <? Z.of_nat (length lines) - 1)%Z then
          match nth_error lines (nameIndex + 1) with
          | Some potentialRole =>
              if (length potentialRole <? 20)
                 && negb (matches emailPattern potentialRole)
              then trim potentialRole else []
          | None => []
          end
        else []
    | None => []
    end in
  let confidence :=
    ((if truthy email then 40 else 0)
     + (if truthy name then 30 else 0)
     + (if truthy company then 20 else 0)
     + (if truthy role then 10 else 0))%Z in
  {| name := or_else (Some name) (lit "Unknown");
     email := or_else (Some email) (lit "no-email@example.com");
     company := or_else (Some company) (lit "Unknown Company");
     role := role;
     confidence := confidence |}.

(** *** The job handler

    [job.updateProgress] appends to the progress log of the job; a step that
    throws ends the attempt and keeps the log written so far. *)

Definition M (A : Type) : Type := list Z -> result A * list Z.

Definition ret {A} (a : A) : M A := fun log => (Ok a, log).

Definition bind {A B} (m : M A) (f : A -> M B) : M B :=
  fun log =>
    match m log with
    | (Ok a, log') => f a log'
    | (Throw e, log') => (Throw e, log')
    end.

Definition await {A} (r : result A) : M A := fun log => (r, log).

Definition updateProgress (p : Z) : M unit := fun log => (Ok tt, log ++ [p]).

Notation "x <- m ;; k" := (bind m (fun x => k))
  (at level 61, m at next level, right associativity).
Notation "m ;;; k" := (bind m (fun _ => k))
  (at level 61, right associativity).

Definition Buffer := list N.

Record EmailResult := mkEmailResult {
  messageId : jsstring;
  resultSubject : option jsstring;
  resultBody : option jsstring
}.

(** [extractedData] of the stored card: the confidence is divided by 100.
    The file name, the status and the timestamps of the stored card are left
    out. *)
Record ExtractedData := mkExtractedData {
  ed_name : jsstring;
  ed_company : jsstring;
  ed_role : jsstring;
  ed_email : jsstring;
  ed_phone : jsstring;
  ed_confidence : number
}.

Record CardData := mkCardData {
  cardId : jsstring;
  rawText : jsstring;
  extractedData : ExtractedData
}.

(** What the helpers read of the response of a [fetch]. *)
Record Response := mkResponse {
  ok : bool;
  statusText : string
}.

(** What the handler reaches outside the process. *)
Record Services := mkServices {
  base64 : jsstring -> Buffer;                   (* Buffer.from(image, 'base64') *)
  sharp : Buffer -> result Buffer;               (* the sharp pipeline *)
  recognize : Buffer -> result jsstring;         (* Tesseract worker: the text *)
  uuidv4 : jsstring;
  postCard : CardData -> result Response;        (* fetch POST /api/cards *)
  postSend : OCRResult -> result (Response * EmailResult);
                                                 (* fetch POST /api/send and its body *)
  putCard : jsstring -> EmailResult -> result bool     (* fetch PUT /api/cards/:id *)
}.

Record JobData := mkJobData {
  image : jsstring;
  mimetype : jsstring
}.

Record Processed := mkProcessed {
  cardInfo : OCRResult;
  savedId : jsstring;
  emailId : jsstring
}.

(** Returns the original image when preprocessing fails. *)
Definition preprocessImage (sv : Services) (imageBuffer : Buffer) : Buffer :=
  match sharp sv imageBuffer with
  | Ok processed => processed
  | Throw _ => imageBuffer
  end.

Definition performOCR (sv : Services) (imageBuffer : Buffer) : result jsstring :=
  recognize sv imageBuffer.

Definition saveCardData (sv : Services) (info : OCRResult) (raw : jsstring)
  : result CardData :=
  let cardData :=
    {| cardId := uuidv4 sv;
       rawText := raw;
       extractedData :=
         {| ed_name := name info;
            ed_company := company info;
            ed_role := or_else (Some (role info)) [];
            ed_email := email info;
            ed_phone := [];
            ed_confidence := Fin (inject_Z (confidence info) / 100) |} |} in
  match postCard sv cardData with
  | Ok response =>
      if ok response then Ok cardData
      else Throw (String.append "Failed to save card: " (statusText response))
  | Throw e => Throw e
  end.

Definition sendEmailViaAPI (sv : Services) (recipient : OCRResult)
  : result EmailResult :=
  match postSend sv recipient with
  | Ok (response, json) =>
      if ok response then Ok json
      else Throw (String.append "Failed to send email: " (statusText response))
  | Throw e => Throw e
  end.

(** A response that is not ok is logged and reported as [false]. *)
Definition updateCardWithEmailInfo (sv : Services) (id : jsstring)
           (emailResult : EmailResult) : result bool :=
  putCard sv id emailResult.

Definition processCardHandler (sv : Services) (job : JobData) : M Processed :=
  updateProgress 10 ;;;
  let imageBuffer := base64 sv (image job) in
  let processedImage := preprocessImage sv imageBuffer in
  updateProgress 30 ;;;
  text <- await (performOCR sv processedImage) ;;
  updateProgress 60 ;;;
  let info := extractBusinessCardInfo text in
  updateProgress 70 ;;;
  savedCard <- await (saveCardData sv info text) ;;
  updateProgress 80 ;;;
  emailResult <- await (sendEmailViaAPI sv info) ;;
  await (updateCardWithEmailInfo sv (cardId savedCard) emailResult) ;;;
  updateProgress 100 ;;;
  ret {| cardInfo := info;
         savedId := cardId savedCard;
         emailId := messageId emailResult |}.

End Worker.

(* ================================================================== *)
(** ** The browser-side pipeline: [processJob] of the processing context *)
(* ================================================================== *)

Module ProcessingContext.

Inductive Status :=
| queued | processing | ocr | generating | generated | sending | sent | failed.

Record OCRResult := mkOCRResult {
  name : jsstring;
  email : jsstring;
  company : jsstring;
  role : option jsstring;
  confidence : number
}.

Record EmailContent := mkEmailContent {
  subject : jsstring;
  body : jsstring
}.

Record ProcessingJob := mkJob {
  id : jsstring;
  file : jsstring;
  ocrResult : option OCRResult;
  emailContent : option EmailContent
}.

(** The [Partial<ProcessingJob>] handed to [updateJob]. *)
Record Updates := mkUpdates {
  u_status : option Status;
  u_progress : option Z;
  u_ocrResult : option OCRResult;
  u_emailContent : option EmailContent;
  u_emailId : option jsstring;
  u_error : option string;
  u_completed : bool
}.

Definition no_updates : Updates :=
  {| u_status := None; u_progress := None; u_ocrResult := None;
     u_emailContent := None; u_emailId := None; u_error := None;
     u_completed := false |}.

Record Services := mkServices {
  autoSend : bool;                                   (* settings.autoSend *)
  performOCR : jsstring -> result OCRResult;         (* useOCR *)
  apiGenerateEmail : OCRResult -> result EmailContent; (* apiClient.generateEmail *)
  apiSendEmail : OCRResult -> EmailContent -> result jsstring (* apiClient.send.sendEmail *)
}.

(** The template used when the generation endpoint fails. *)
Definition fallbackContent (o : OCRResult) : EmailContent :=
  {| subject := company o ++ lit " " ++ name o ++ lit "様 - ご挨拶";
     body := text_lines
       [ name o ++ lit "様";
         [];
         lit "先日はお時間をいただきありがとうございました。";
         company o ++ lit "様の事業について大変興味深く拝聴いたしました。";
         [];
         lit "ぜひ一度、詳しくお話をお聞かせいただければ幸いです。";
         lit "ご都合のよろしい日時をお知らせください。";
         [];
         lit "ご返信お待ちしております。" ] |}.

Definition generateEmailContent (sv : Services) (o : OCRResult) : EmailContent :=
  match apiGenerateEmail sv o with
  | Ok response => response
  | Throw _ => fallbackContent o
  end.

(** [sendEmail] reads the job object it is handed, not the updated state. *)
Definition sendEmail (sv : Services) (job : ProcessingJob) : result jsstring :=
  match ocrResult job, emailContent job with
  | Some o, Some c => apiSendEmail sv o c
  | _, _ => Throw "OCR result or email content missing"
  end.

(** The [catch] of [processJob]: one update without a progress value. *)
Definition failure (msg : string) : list Updates :=
  [ {| u_status := Some failed; u_progress := None; u_ocrResult := None;
       u_emailContent := None; u_emailId := None; u_error := Some msg;
       u_completed := true |} ].

(** [processJob job]: the [updateJob] calls it makes, in order. *)
Definition processJob (sv : Services) (job : ProcessingJob) : list Updates :=
  let u1 := {| u_status := Some ocr; u_progress := Some 10%Z; u_ocrResult := None;
               u_emailContent := None; u_emailId := None; u_error := None;
               u_completed := false |} in
  match performOCR sv (file job) with
  | Throw e => u1 :: failure e
  | Ok o =>
      let u2 := {| u_status := Some generating; u_progress := Some 40%Z;
                   u_ocrResult := Some o; u_emailContent := None;
                   u_emailId := None; u_error := None; u_completed := false |} in
      let content := generateEmailContent sv o in
      let u3 := {| u_status := Some (if autoSend sv then sending else generated);
                   u_progress := Some 70%Z; u_ocrResult := None;
                   u_emailContent := Some content; u_emailId := None;
                   u_error := None; u_completed := false |} in
      if autoSend sv then
        match sendEmail sv job with
        | Throw e => u1 :: u2 :: u3 :: failure e
        | Ok mid =>
            [u1; u2; u3;
             {| u_status := Some sent; u_progress := Some 100%Z;
                u_ocrResult := None; u_emailContent := None;
                u_emailId := Some mid; u_error := None; u_completed := true |}]
        end
      else
        [u1; u2; u3;
         {| u_status := Some generated; u_progress := Some 100%Z;
            u_ocrResult := None; u_emailContent := None; u_emailId := None;
            u_error := None; u_completed := true |}]
  end.

(** The progress values reported by a run. *)
Fixpoint reported (us : list Updates) : list Z :=
  match us with
  | [] => []
  | u :: r => match u_progress u with
              | Some p => p :: reported r
              | None => reported r
              end
  end.

Definition succeeded (us : list Updates) : bool :=
  negb (existsb (fun u => match u_status u with
                          | Some failed => true
                          | _ => false
                          end) us).

End ProcessingContext.

(* ================================================================== *)
(** ** apps/web/src/helpers/parseCard.ts: the structured parser *)
(* ================================================================== *)

Module ParseCard.

Record ParsedCardData := mkParsed {
  name : jsstring;
  company : jsstring;
  role : jsstring;
  email : jsstring;
  phone : jsstring;
  confidence : number
}.

(** [Partial<ParsedCardData>] as the pattern extractor fills it in. *)
Record PartialCard := mkPartial {
  p_name : option jsstring;
  p_company : option jsstring;
  p_role : option jsstring;
  p_email : option jsstring;
  p_phone : option jsstring
}.

Inductive Language := ja | en | auto.

Record ParseCardOptions := mkOptions {
  fallbackToRegex : option bool;
  language : option Language
}.

Definition defaults : ParseCardOptions :=
  {| fallbackToRegex := None; language := None |}.

Definition is_ja (l : Language) : bool :=
  match l with ja => true | _ => false end.

(** *** PATTERNS *)

Definition alnum : list (N * N) := [range "a" "z"; range "A" "Z"; range "0" "9"].

(** [/[a-zA-Z0-9._%+-]+@[a-zA-Z0-9.-]+\.[a-zA-Z]{2,}/g] *)
Definition email_pattern : regex :=
  seq_of [plus (Cls false (alnum ++ any_of "._%+-")); one (chr "@");
          plus (Cls false (alnum ++ any_of ".-")); one (chr ".");
          at_least (Cls false [range "a" "z"; range "A" "Z"]) 2].

(** [/(?:0\d{1,4}-\d{1,4}-\d{4}|0\d{9,10}|\+81-?\d{1,4}-?\d{1,4}-?\d{4})/g] *)
Definition phone_jp : regex :=
  alt_of
    [ seq_of [one (chr "0"); between digit 1 4; one (chr "-"); between digit 1 4;
              one (chr "-"); between digit 4 4];
      seq_of [one (chr "0"); between digit 9 10];
      seq_of [str "+81"; opt (chr "-"); between digit 1 4; opt (chr "-");
              between digit 1 4; opt (chr "-"); between digit 4 4] ].

(** [/\+?[1-9]\d{1,14}/g] *)
Definition phone_intl : regex :=
  seq_of [opt (chr "+"); one (Cls false [range "1" "9"]); between digit 1 14].

(** [/(?:株式会社|有限会社|合同会社|一般社団法人|公益財団法人|学校法人)[^\n]+/g] *)
Definition company_jp : regex :=
  Seq (alt_of [str "株式会社"; str "有限会社"; str "合同会社"; str "一般社団法人";
               str "公益財団法人"; str "学校法人"])
      (plus not_newline).

(** [/(?:Inc\.|Corp\.|LLC|Ltd\.|Co\.|Company)[^\n]*/gi] *)
Definition company_en : regex :=
  Seq (alt_of [str_i "Inc."; str_i "Corp."; str_i "LLC"; str_i "Ltd.";
               str_i "Co."; str_i "Company"])
      (star not_newline).

(** [/(?:代表取締役|取締役|部長|課長|主任|マネージャー|ディレクター|エンジニア|営業)[^\n]*/g] *)
Definition role_jp : regex :=
  Seq (alt_of [str "代表取締役"; str "取締役"; str "部長"; str "課長"; str "主任";
               str "マネージャー"; str "ディレクター"; str "エンジニア"; str "営業"])
      (star not_newline).

(** [/(?:CEO|CTO|CFO|President|Director|Manager|Engineer|Sales)[^\n]*/gi] *)
Definition role_en : regex :=
  Seq (alt_of [str_i "CEO"; str_i "CTO"; str_i "CFO"; str_i "President";
               str_i "Director"; str_i "Manager"; str_i "Engineer"; str_i "Sales"])
      (star not_newline).

(** [/[ひらがなカタカナ漢字]/]: a class of these ten characters. *)
Definition japanese_chars : regex :=
  one (Cls false (any_of "ひらがなカタカナ漢字")).

(** *** extractWithRegex *)

(** The name loop.  Both patterns carry the [g] flag, so [test] starts at
    the pattern's [lastIndex] and moves it; [pl] and [cl] are the
    [lastIndex] of the phone and of the company pattern. *)
Fixpoint nameLoop (phonePattern companyPattern : regex)
         (lines : list jsstring) (pl cl : nat) : option jsstring :=
  match lines with
  | [] => None
  | line :: rest =>
      if includes line (lit "@") then nameLoop phonePattern companyPattern rest pl cl
      else
        let (isPhone, pl') := test_g phonePattern line pl in
        if isPhone then nameLoop phonePattern companyPattern rest pl' cl
        else
          let (isCompany, cl') := test_g companyPattern line cl in
          if isCompany then nameLoop phonePattern companyPattern rest pl' cl'
          else if (1 <? length line) && (length line <? 50) then Some (trim line)
          else nameLoop phonePattern companyPattern rest pl' cl'
  end.

Definition nonBlank (line : jsstring) : bool := truthy (trim line).

Definition extractWithRegex (text : jsstring) (language : Language) : PartialCard :=
  let lines := filter nonBlank (split_lines text) in
  let phonePattern := if is_ja language then phone_jp else phone_intl in
  let companyPattern := if is_ja language then company_jp else company_en in
  let rolePattern := if is_ja language then role_jp else role_en in
  {| p_email := str_match email_pattern text;
     p_phone := str_match phonePattern text;
     p_company := option_map trim (str_match companyPattern text);
     p_role := option_map trim (str_match rolePattern text);
     p_name := nameLoop phonePattern companyPattern lines 0 0 |}.

(** *** extractWithGPT *)

(** The arguments of the function call after [JSON.parse]; a property may
    be missing.  The text properties are read at the type the source casts
    them to.  The confidence is whatever JSON value the reply holds: the
    cast checks nothing, and the value goes through [||] and [Math.min]
    as it is. *)
Record FunctionArgs := mkFunctionArgs {
  a_name : option jsstring;
  a_company : option jsstring;
  a_role : option jsstring;
  a_email : option jsstring;
  a_phone : option jsstring;
  a_confidence : option Coercion.value
}.

(** What the one call to the chat completion API comes to. *)
Inductive Reply :=
| ApiError (message : string)   (* [create] rejects *)
| NoFunctionCall                (* no [function_call.arguments] in the reply *)
| BadJson (message : string)    (* [JSON.parse] throws *)
| Parsed (a : FunctionArgs).

Definition q (n d : positive) : number := Fin (Z.pos n # d).

Section Runtime.

Variable rt : Coercion.Runtime.

(** [parsed.confidence || 0.5] as [Math.min] reads it: the default when the
    value is missing or falsy, the value converted to a number otherwise.
    The conversion of an object can throw. *)
Definition reported (confidence : option Coercion.value) : result number :=
  match confidence with
  | Some v =>
      if Coercion.value_truthy v then Coercion.ToNumber rt v else Ok (q 5 10)
  | None => Ok (q 5 10)
  end.

Definition extractWithGPT (reply : Reply) : result ParsedCardData :=
  match reply with
  | ApiError message => Throw message
  | BadJson message => Throw message
  | NoFunctionCall => Throw "GPT extraction returned no results"
  | Parsed parsed =>
      match reported (a_confidence parsed) with
      | Throw message => Throw message
      | Ok c =>
          Ok {| name := or_else (a_name parsed) [];
                company := or_else (a_company parsed) [];
                role := or_else (a_role parsed) [];
                email := or_else (a_email parsed) [];
                phone := or_else (a_phone parsed) [];
                confidence := Math_max (Fin 0) (Math_min (Fin 1) c) |}
      end
  end.

(** *** parseCard *)

Definition detectLanguage (rawText : jsstring) (language : Language) : Language :=
  match language with
  | auto => if test japanese_chars rawText then ja else en
  | l => l
  end.

(** The field-by-field merge of the low-confidence branch. *)
Definition merge (gptResult : ParsedCardData) (regexResult : PartialCard)
  : ParsedCardData :=
  {| name := or3 (name gptResult) (p_name regexResult);
     company := or3 (company gptResult) (p_company regexResult);
     role := or3 (role gptResult) (p_role regexResult);
     email := or3 (email gptResult) (p_email regexResult);
     phone := or3 (phone gptResult) (p_phone regexResult);
     confidence := Math_max (confidence gptResult) (q 6 10) |}.

(** The record returned when the AI extractor threw. *)
Definition regexOnly (regexResult : PartialCard) : ParsedCardData :=
  {| name := or_else (p_name regexResult) [];
     company := or_else (p_company regexResult) [];
     role := or_else (p_role regexResult) [];
     email := or_else (p_email regexResult) [];
     phone := or_else (p_phone regexResult) [];
     confidence := q 4 10 |}.

Definition parseCard (reply : Reply) (rawText : jsstring)
           (options : ParseCardOptions) : result ParsedCardData :=
  let fallback := match fallbackToRegex options with Some b => b | None => true end in
  let lang := match language options with Some l => l | None => auto end in
  if negb (truthy (trim rawText)) then Throw "Empty text provided"
  else
    let detectedLanguage := detectLanguage rawText lang in
    match extractWithGPT reply with
    | Ok gptResult =>
        if num_ltb (confidence gptResult) (q 7 10) && fallback then
          Ok (merge gptResult (extractWithRegex rawText detectedLanguage))
        else Ok gptResult
    | Throw error =>
        if negb fallback then Throw error
        else Ok (regexOnly (extractWithRegex rawText detectedLanguage))
    end.

End Runtime.

End ParseCard.

(* ================================================================== *)
(** ** server/src/helpers/processOCR.ts: parsing on the server *)
(* ================================================================== *)

Module ProcessOCR.

(** [z.infer<typeof OCRResultSchema>]: every field but the confidence is
    optional. *)
Record OCRResult := mkOCRResult {
  name : option jsstring;
  company : option jsstring;
  role : option jsstring;
  email : option jsstring;
  phone : option jsstring;
  address : option jsstring;
  website : option jsstring;
  confidence : number
}.

(** [/[a-zA-Z0-9._%+-]+@[a-zA-Z0-9.-]+\.[a-zA-Z]{2,}/] *)
Definition emailRegex : regex := ParseCard.email_pattern.

(** [/(?:\+81|0)\d{1,4}-?\d{1,4}-?\d{4}/] *)
Definition phoneRegex : regex :=
  seq_of [Alt (str "+81") (str "0"); between digit 1 4; opt (chr "-");
          between digit 1 4; opt (chr "-"); between digit 4 4].

(** [/https?:\/\/[^\s]+/] *)
Definition urlRegex : regex :=
  seq_of [str "http"; opt (chr "s"); str "://"; plus (Cls true space_ranges)].

Definition hasText (line : jsstring) : bool := 0 <? length (trim line).

(** [s || undefined] *)
Definition or_undefined (s : jsstring) : option jsstring :=
  if truthy s then Some s else None.

Definition extractWithRegex (text : jsstring) : OCRResult :=
  let email := or_else (str_match emailRegex text) [] in
  let phone := or_else (str_match phoneRegex text) [] in
  let website := or_else (str_match urlRegex text) [] in
  let lines := filter hasText (split_lines text) in
  let name := or_else (nth_error lines 0) [] in
  let company := or_else (nth_error lines 1) [] in
  {| name := Some name;
     company := Some company;
     role := Some [];
     email := or_undefined email;
     phone := Some phone;
     address := Some [];
     website := or_undefined website;
     confidence := ParseCard.q 4 10 |}.

(** The object handed to [OCRResultSchema.parse], property by property. *)
Record Extracted := mkExtracted {
  x_name : option json;
  x_company : option json;
  x_role : option json;
  x_email : option json;
  x_phone : option json;
  x_address : option json;
  x_website : option json;
  x_confidence : option json
}.

Inductive Reply :=
| ApiError
| NoFunctionCall
| BadJson
| Parsed (x : Extracted).

Section Schema.

(** zod's [.email()] and [.url()] checks. *)
Variable isEmail : jsstring -> bool.
Variable isUrl : jsstring -> bool.

(** [z.string().optional()], with an extra check on the string. *)
Definition zString (check : jsstring -> bool) (v : option json)
  : option (option jsstring) :=
  match v with
  | None => Some None
  | Some (JStr s) => if check s then Some (Some s) else None
  | Some _ => None
  end.

(** [z.number().min(0).max(1)] *)
Definition zConfidence (v : json) : option number :=
  match v with
  | JNum n => if num_leb (Fin 0) n && num_leb n (Fin 1) then Some n else None
  | _ => None
  end.

Definition any_string (_ : jsstring) : bool := true.

(** [OCRResultSchema.parse] of the sanitized object; [None] when it throws. *)
Definition validate (x : Extracted) : option OCRResult :=
  match zString any_string (Some (json_or (x_name x) (JStr []))),
        zString any_string (Some (json_or (x_company x) (JStr []))),
        zString any_string (Some (json_or (x_role x) (JStr []))),
        zString isEmail (json_or_undefined (x_email x)),
        zString any_string (Some (json_or (x_phone x) (JStr []))),
        zString any_string (Some (json_or (x_address x) (JStr []))),
        zString isUrl (json_or_undefined (x_website x)),
        zConfidence (json_or (x_confidence x) (JNum (ParseCard.q 5 10)))
  with
  | Some n, Some c, Some r, Some e, Some p, Some a, Some w, Some conf =>
      Some {| name := n; company := c; role := r; email := e; phone := p;
              address := a; website := w; confidence := conf |}
  | _, _, _, _, _, _, _, _ => None
  end.

(** Any failure of the AI path is caught and answered by the patterns. *)
Definition parseCardDataWithGPT (reply : Reply) (rawText : jsstring) : OCRResult :=
  match reply with
  | Parsed x =>
      match validate x with
      | Some validatedData => validatedData
      | None => extractWithRegex rawText
      end
  | _ => extractWithRegex rawText
  end.

End Schema.

End ProcessOCR.

(* ================================================================== *)
(** ** server/src/helpers/generateMail.ts: the recipient-based composer *)
(* ================================================================== *)

Module GenerateMail.

Record Recipient := mkRecipient {
  name : jsstring;
  email : jsstring;
  company : jsstring;
  role : option jsstring
}.

Record EmailContent := mkEmailContent {
  subject : jsstring;
  body : jsstring
}.

Record TemplateOverrides := mkOverrides {
  o_subject : option jsstring;
  o_body : option jsstring
}.

Definition SYSTEM_PROMPT : jsstring :=
  text_lines
    [ lit "あなたは礼儀正しい日本の営業担当です。";
      lit "以下の情報を基に150字前後のフォローアップメールを書いてください。";
      lit "必ず敬語、結論→理由→お願いの順。最後は「ご返信お待ちしております。」で締める。" ].

(** The closing the body has to end with. *)
Definition closing : jsstring := lit "ご返信お待ちしております。".

(** What the composer does that can be observed from outside. *)
Inductive Event :=
| OpenAICall (system user : jsstring)
| ConsoleError.

(** What the call to the chat completion API comes to. *)
Inductive Reply :=
| ApiError
| Content (c : option jsstring).

Definition userPrompt (recipient : Recipient) : jsstring :=
  text_lines
    [ [];
      lit "名前: " ++ name recipient;
      lit "会社: " ++ company recipient;
      (if truthy_opt (role recipient)
       then lit "役職: " ++ or_else (role recipient) [] else []);
      [];
      lit "上記の方へのフォローアップメールを作成してください。";
      lit "件名も含めて提案してください。";
      [] ].

Definition fallbackTemplate (recipient : Recipient) : EmailContent :=
  {| subject := company recipient ++ lit " " ++ name recipient ++ lit "様 - ご挨拶";
     body := text_lines
       [ name recipient ++ lit "様";
         [];
         lit "先日はお時間をいただきありがとうございました。";
         company recipient ++ lit "様の事業について大変興味深く拝聴いたしました。";
         [];
         lit "ぜひ一度、詳しくお話をお聞かせいただければ幸いです。";
         lit "ご都合のよろしい日時をお知らせください。";
         [];
         lit "ご返信お待ちしております。" ] |}.

(** [overrides?.subject && overrides?.body] *)
Definition bothOverrides (overrides : option TemplateOverrides)
  : option (jsstring * jsstring) :=
  match overrides with
  | Some o =>
      match o_subject o, o_body o with
      | Some s, Some b => if truthy s && truthy b then Some (s, b) else None
      | _, _ => None
      end
  | None => None
  end.

Section Composer.

(** [JSON.parse] followed by [emailSchema.parse]: the subject and the body
    of the reply, [None] when either call throws. *)
Variable parseReply : jsstring -> option (jsstring * jsstring).

(** The body of the [try] block, [None] when it throws. *)
Definition generated (reply : Reply) : option EmailContent :=
  match reply with
  | ApiError => None
  | Content c =>
      if truthy_opt c then
        match parseReply (or_else c []) with
        | Some (s, b) =>
            Some {| subject := s;
                    body := if negb (endsWith b closing)
                            then b ++ nl ++ nl ++ closing else b |}
        | None => None
        end
      else None
  end.

Definition generateMail (recipient : Recipient)
           (overrides : option TemplateOverrides) (reply : Reply)
  : EmailContent * list Event :=
  match bothOverrides overrides with
  | Some (s, b) => ({| subject := s; body := b |}, [])
  | None =>
      let call := OpenAICall SYSTEM_PROMPT (userPrompt recipient) in
      match generated reply with
      | Some validated => (validated, [call])
      | None => (fallbackTemplate recipient, [call; ConsoleError])
      end
  end.

End Composer.

End GenerateMail.

(* ================================================================== *)
(** ** The streamed reply of the chat completion API *)
(* ================================================================== *)

Module OpenAI.

(** A streaming call either rejects, or yields the [delta.content] of its
    chunks in order; after the last chunk the iteration ends, or throws when
    the stream is [broken]. *)
Inductive Stream :=
| Rejected
| Chunks (deltas : list (option jsstring)) (broken : bool).

End OpenAI.

(* ================================================================== *)
(** ** server/src/helpers/emailGenerator.ts: the tone and language composer *)
(* ================================================================== *)

Module EmailGenerator.

Inductive Tone := professional | friendly | casual.
Inductive Lang := ja | en.

Record BusinessCardData := mkCard {
  name : option jsstring;
  company : option jsstring;
  role : option jsstring;
  email : option jsstring;
  phone : option jsstring;
  address : option jsstring;
  website : option jsstring
}.

Record GenerateEmailOptions := mkOptions {
  cardData : BusinessCardData;
  senderName : jsstring;
  senderCompany : option jsstring;
  tone : option Tone;
  language : option Lang;
  customMessage : option jsstring
}.

(** The object a composer returns.  Its declared type has a subject, a body
    and a tone; the object built by [generateTemplateEmail] spreads
    [templates[tone]], so the properties are present only when that entry
    is. *)
Record EmailContent := mkEmailContent {
  subject : option jsstring;
  body : option jsstring;
  e_tone : option Tone;
  e_language : Lang
}.

Record Template := mkTemplate {
  t_subject : jsstring;
  t_body : jsstring
}.

Definition templates_ja (card : BusinessCardData) (sender : jsstring) (t : Tone)
  : Template :=
  let who := or_else (name card) [] in
  match t with
  | professional =>
      {| t_subject := who ++ lit "様、お世話になっております";
         t_body := text_lines
           [ who ++ lit "様";
             [];
             lit "お世話になっております。";
             sender ++ lit "です。";
             [];
             lit "本日は貴重なお時間をいただき、ありがとうございました。";
             lit "名刺交換をさせていただき、光栄でした。";
             [];
             lit "今後ともどうぞよろしくお願いいたします。";
             [];
             sender ] |}
  | friendly =>
      {| t_subject := who ++ lit "様、ありがとうございました";
         t_body := text_lines
           [ who ++ lit "様";
             [];
             sender ++ lit "です。";
             [];
             lit "今日は名刺交換をさせていただき、ありがとうございました。";
             lit "お話しできて とても嬉しかったです。";
             [];
             lit "またお会いできることを楽しみにしております。";
             [];
             sender ] |}
  | casual =>
      {| t_subject := who ++ lit "さん、お疲れ様でした";
         t_body := text_lines
           [ who ++ lit "さん";
             [];
             sender ++ lit "です。";
             [];
             lit "今日はありがとうございました！";
             lit "名刺交換できて良かったです。";
             [];
             lit "また機会があればお話しましょう。";
             [];
             sender ] |}
  end.

Definition templates_en (card : BusinessCardData) (sender : jsstring) (t : Tone)
  : Template :=
  let who := or_else (name card) [] in
  match t with
  | professional =>
      {| t_subject := lit "Nice meeting you, " ++ who;
         t_body := text_lines
           [ lit "Dear " ++ who ++ lit ",";
             [];
             lit "Thank you for taking the time to exchange business cards with me today.";
             [];
             lit "It was a pleasure meeting you and learning about your work at "
               ++ or_else (company card) (lit "your company") ++ lit ".";
             [];
             lit "I look forward to staying in touch and potentially collaborating in the future.";
             [];
             lit "Best regards,";
             sender ] |}
  | friendly =>
      {| t_subject := lit "Great meeting you today, " ++ who;
         t_body := text_lines
           [ lit "Hi " ++ who ++ lit ",";
             [];
             lit "It was great meeting you today and exchanging business cards!";
             [];
             lit "I really enjoyed our conversation about "
               ++ or_else (company card) (lit "your work") ++ lit ".";
             [];
             lit "Hope to connect again soon!";
             [];
             lit "Best,";
             sender ] |}
  | casual =>
      {| t_subject := lit "Nice meeting you, " ++ who;
         t_body := text_lines
           [ lit "Hi " ++ who ++ lit ",";
             [];
             lit "Thanks for the business card exchange today!";
             [];
             lit "Was nice chatting with you.";
             [];
             lit "Let's keep in touch!";
             [];
             sender ] |}
  end.

(** [const { cardData, senderName, tone, language = 'ja' } = options]: the
    language has a default, the tone has none. *)
Definition generateTemplateEmail (options : GenerateEmailOptions) : EmailContent :=
  let lang := match language options with Some l => l | None => ja end in
  let templates :=
    match lang with
    | ja => templates_ja (cardData options) (senderName options)
    | en => templates_en (cardData options) (senderName options)
    end in
  match tone options with
  | Some t =>
      {| subject := Some (t_subject (templates t));
         body := Some (t_body (templates t));
         e_tone := Some t;
         e_language := lang |}
  | None =>
      {| subject := None; body := None; e_tone := None; e_language := lang |}
  end.

(** *** generateEmail *)

(** The arguments of the function call after [JSON.parse]. *)
Record Generated := mkGenerated {
  g_subject : option json;
  g_body : option json;
  g_tone : option json;
  g_language : option json
}.

Inductive Reply :=
| ApiError
| NoFunctionCall
| BadJson
| FunctionCall (g : Generated).

Definition tone_name (t : Tone) : jsstring :=
  match t with
  | professional => lit "professional"
  | friendly => lit "friendly"
  | casual => lit "casual"
  end.

Definition lang_name (l : Lang) : jsstring :=
  match l with ja => lit "ja" | en => lit "en" end.

(** [z.string().min(1)] *)
Definition zNonEmpty (v : option json) : option jsstring :=
  match v with
  | Some (JStr s) => if 1 <=? length s then Some s else None
  | _ => None
  end.

(** [z.enum(['professional', 'friendly', 'casual'])] *)
Definition zTone (v : json) : option Tone :=
  match v with
  | JStr s =>
      if str_eqb s (tone_name professional) then Some professional
      else if str_eqb s (tone_name friendly) then Some friendly
      else if str_eqb s (tone_name casual) then Some casual
      else None
  | _ => None
  end.

(** [z.enum(['ja', 'en'])] *)
Definition zLang (v : json) : option Lang :=
  match v with
  | JStr s =>
      if str_eqb s (lang_name ja) then Some ja
      else if str_eqb s (lang_name en) then Some en
      else None
  | _ => None
  end.

(** [EmailContentSchema.parse], [None] when it throws. *)
Definition validate (g : Generated) (t : Tone) (l : Lang) : option EmailContent :=
  match zNonEmpty (g_subject g), zNonEmpty (g_body g),
        zTone (json_or (g_tone g) (JStr (tone_name t))),
        zLang (json_or (g_language g) (JStr (lang_name l)))
  with
  | Some s, Some b, Some t', Some l' =>
      Some {| subject := Some s; body := Some b; e_tone := Some t'; e_language := l' |}
  | _, _, _, _ => None
  end.

(** The prompts built by [createSystemPrompt] and [createUserPrompt] only
    feed the call whose outcome is [reply]. *)
Definition generateEmail (options : GenerateEmailOptions) (reply : Reply)
  : EmailContent :=
  let t := match tone options with Some t => t | None => professional end in
  let l := match language options with Some l => l | None => ja end in
  match reply with
  | FunctionCall g =>
      match validate g t l with
      | Some validatedContent => validatedContent
      | None => generateTemplateEmail options
      end
  | _ => generateTemplateEmail options
  end.

(** *** generateEmailStream *)

Record Draft := mkDraft {
  d_subject : jsstring;
  d_body : jsstring;
  isBodySection : bool
}.

(** One turn of the [for await] loop. *)
Definition step (d : Draft) (delta : option jsstring) : Draft :=
  let content := or_else delta [] in
  if includes content (lit "件名:") || includes content (lit "Subject:") then
    {| d_subject := d_subject d; d_body := d_body d; isBodySection := false |}
  else if includes content (lit "本文:") || includes content (lit "Body:") then
    {| d_subject := d_subject d; d_body := d_body d; isBodySection := true |}
  else if truthy (trim content) then
    if isBodySection d
    then {| d_subject := d_subject d; d_body := d_body d ++ content;
            isBodySection := true |}
    else {| d_subject := d_subject d ++ content; d_body := d_body d;
            isBodySection := false |}
  else d.

Definition snapshot (d : Draft) (t : Tone) (l : Lang) : EmailContent :=
  {| subject := Some (trim (d_subject d));
     body := Some (trim (d_body d));
     e_tone := Some t;
     e_language := l |}.

(** The loop over the chunks: what it yields and the draft it ends with. *)
Fixpoint consume (d : Draft) (deltas : list (option jsstring)) (t : Tone) (l : Lang)
  : list EmailContent * Draft :=
  match deltas with
  | [] => ([], d)
  | delta :: rest =>
      let d' := step d delta in
      let (ys, final) := consume d' rest t l in
      (snapshot d' t l :: ys, final)
  end.

(** The generator, run to completion: the values it yields and the value it
    returns. *)
Definition generateEmailStream (options : GenerateEmailOptions)
           (stream : OpenAI.Stream) : list EmailContent * EmailContent :=
  let t := match tone options with Some t => t | None => professional end in
  let l := match language options with Some l => l | None => ja end in
  match stream with
  | OpenAI.Rejected => ([], generateTemplateEmail options)
  | OpenAI.Chunks deltas broken =>
      let (ys, final) :=
        consume {| d_subject := []; d_body := []; isBodySection := false |}
                deltas t l in
      if broken then (ys, generateTemplateEmail options)
      else (ys, snapshot final t l)
  end.

End EmailGenerator.

(* ================================================================== *)
(** ** apps/web/src/helpers/generateMail.ts: the browser-side composer *)
(* ================================================================== *)

Module WebGenerateMail.

Inductive Tone := professional | friendly | casual.
Inductive Lang := ja | en.

Record EmailContent := mkEmailContent {
  subject : jsstring;
  body : jsstring;
  tone : Tone;
  language : Lang
}.

(** [Partial<EmailContent>] as the generator yields it. *)
Record PartialContent := mkPartial {
  y_subject : jsstring;
  y_body : option jsstring;
  y_tone : Tone;
  y_language : Lang
}.

Record GenerateMailOptions := mkOptions {
  o_tone : option Tone;
  o_language : option Lang;
  customMessage : option jsstring;
  senderName : option jsstring;
  senderCompany : option jsstring
}.

Definition defaults : GenerateMailOptions :=
  {| o_tone := None; o_language := None; customMessage := None;
     senderName := None; senderCompany := None |}.

Record Template := mkTemplate {
  t_subject : jsstring;
  t_greeting : jsstring;
  t_closing : jsstring
}.

Definition EMAIL_TEMPLATES (t : Tone) (l : Lang) : Template :=
  match t, l with
  | professional, ja =>
      {| t_subject := lit "{name}様、お世話になっております";
         t_greeting := lit "{name}様" ++ nl ++ nl ++ lit "お世話になっております。";
         t_closing := lit "今後ともどうぞよろしくお願いいたします。" |}
  | professional, en =>
      {| t_subject := lit "Nice meeting you, {name}";
         t_greeting := lit "Dear {name}," ++ nl ++ nl ++ lit "It was a pleasure meeting you.";
         t_closing := lit "Looking forward to staying in touch." |}
  | friendly, ja =>
      {| t_subject := lit "{name}さん、お会いできて嬉しかったです";
         t_greeting := lit "{name}さん" ++ nl ++ nl ++ lit "お会いできて嬉しかったです！";
         t_closing := lit "またお話しできることを楽しみにしています。" |}
  | friendly, en =>
      {| t_subject := lit "Great meeting you, {name}!";
         t_greeting := lit "Hi {name}," ++ nl ++ nl ++ lit "It was great meeting you!";
         t_closing := lit "Hope we can chat again soon." |}
  | casual, ja =>
      {| t_subject := lit "{name}さん、お疲れさまでした";
         t_greeting := lit "{name}さん" ++ nl ++ nl ++ lit "お疲れさまでした！";
         t_closing := lit "またお会いしましょう！" |}
  | casual, en =>
      {| t_subject := lit "Hey {name}, nice meeting you!";
         t_greeting := lit "Hey {name}," ++ nl ++ nl ++ lit "Nice meeting you!";
         t_closing := lit "Let's keep in touch!" |}
  end.

Definition placeholder : jsstring := lit "{name}".

Definition toneOf (options : GenerateMailOptions) : Tone :=
  match o_tone options with Some t => t | None => professional end.

Definition languageOf (options : GenerateMailOptions) : Lang :=
  match o_language options with Some l => l | None => ja end.

Definition generateWithTemplate (cardData : ParseCard.ParsedCardData)
           (options : GenerateMailOptions) : EmailContent :=
  let t := toneOf options in
  let l := languageOf options in
  let template := EMAIL_TEMPLATES t l in
  let subject := replace (t_subject template) placeholder (ParseCard.name cardData) in
  let body0 := replace (t_greeting template) placeholder (ParseCard.name cardData) in
  let body1 :=
    if truthy (ParseCard.company cardData) then
      body0 ++ match l with
               | ja => nl ++ ParseCard.company cardData
                          ++ lit "でのお仕事、お疲れさまです。"
               | en => nl ++ lit "I hope things are going well at "
                          ++ ParseCard.company cardData ++ lit "."
               end
    else body0 in
  let body2 :=
    if truthy_opt (customMessage options)
    then body1 ++ nl ++ nl ++ or_else (customMessage options) []
    else body1 in
  let body3 := body2 ++ nl ++ nl ++ t_closing template in
  let body4 :=
    if truthy_opt (senderName options) then
      body3 ++ match l with
               | ja => nl ++ nl ++ or_else (senderName options) []
               | en => nl ++ nl ++ lit "Best regards," ++ nl
                          ++ or_else (senderName options) []
               end
    else body3 in
  {| subject := subject; body := body4; tone := t; language := l |}.

(** The accumulation of the streamed body: a chunk without content is
    skipped, every other chunk yields the body so far. *)
Fixpoint accumulate (subject : jsstring) (t : Tone) (l : Lang) (body : jsstring)
         (deltas : list (option jsstring)) : list PartialContent * jsstring :=
  match deltas with
  | [] => ([], body)
  | delta :: rest =>
      if truthy_opt delta then
        let body' := body ++ or_else delta [] in
        let (ys, final) := accumulate subject t l body' rest in
        ({| y_subject := subject; y_body := Some body'; y_tone := t;
            y_language := l |} :: ys, final)
      else accumulate subject t l body rest
  end.

Definition asPartial (c : EmailContent) : PartialContent :=
  {| y_subject := subject c; y_body := Some (body c); y_tone := tone c;
     y_language := language c |}.

(** The generator, run to completion: the values it yields and the value it
    returns. *)
Definition generateMailStream (cardData : ParseCard.ParsedCardData)
           (options : GenerateMailOptions) (stream : OpenAI.Stream)
  : list PartialContent * EmailContent :=
  let t := toneOf options in
  let l := languageOf options in
  let template := EMAIL_TEMPLATES t l in
  let subject := replace (t_subject template) placeholder (ParseCard.name cardData) in
  let first := {| y_subject := subject; y_body := None; y_tone := t;
                  y_language := l |} in
  match stream with
  | OpenAI.Rejected =>
      let fallback := generateWithTemplate cardData options in
      ([first; asPartial fallback], fallback)
  | OpenAI.Chunks deltas broken =>
      let (ys, body) := accumulate subject t l [] deltas in
      if broken then
        let fallback := generateWithTemplate cardData options in
        (first :: ys ++ [asPartial fallback], fallback)
      else
        (first :: ys, {| subject := subject; body := body; tone := t; language := l |})
  end.

End WebGenerateMail.

(* ================================================================== *)
(** ** The merge rule in the words of the specification *)
(* ================================================================== *)

Module Spec.

(** "For each field, prefer A's value if non-empty, else B's value, else
    empty": [a] is the AI candidate's value, [b] the pattern candidate's,
    absent when the patterns found nothing. *)
Definition prefer (a : jsstring) (b : option jsstring) : jsstring :=
  match a with
  | _ :: _ => a
  | [] => match b with
          | Some v => v
          | None => []
          end
  end.

(** The threshold above which the AI candidate is trusted, the confidence
    of a merged record and the confidence of a pattern-only record. *)
Definition threshold : number := Fin (7 # 10).
Definition mergedFloor : number := Fin (6 # 10).
Definition patternConfidence : number := Fin (4 # 10).

(** The confidence the AI reported is a number, or there is none. *)
Definition numberOrMissing (confidence : option Coercion.value) : Prop :=
  match confidence with
  | None | Some (Coercion.VNum _) => True
  | Some _ => False
  end.

End Spec.

(* ================================================================== *)
(** ** server/src/helpers/gmail.ts: building and sending the message *)
(* ================================================================== *)

Module Gmail.

Record SendMailOptions := mkSendMailOptions {
  accessToken : jsstring;
  from : jsstring;
  to : jsstring;
  subject : jsstring;
  body : jsstring
}.

Record SendMailResult := mkSendMailResult {
  messageId : jsstring;
  threadId : jsstring
}.

(** A code unit is a high or a low surrogate. *)
Definition isHigh (c : N) : bool := ((55296 <=? c) && (c <=? 56319))%N.
Definition isLow (c : N) : bool := ((56320 <=? c) && (c <=? 57343))%N.

(** [Buffer.from(s)]: the UTF-8 bytes of the string.  A surrogate pair is
    one code point of four bytes, a lone surrogate becomes U+FFFD. *)
Fixpoint utf8 (s : jsstring) : list N :=
  match s with
  | [] => []
  | c :: r =>
      if (c <? 128)%N then c :: utf8 r
      else if (c <? 2048)%N then
        (192 + c / 64)%N :: (128 + c mod 64)%N :: utf8 r
      else if isHigh c then
        match r with
        | d :: r' =>
            if isLow d then
              let cp := (65536 + (c - 55296) * 1024 + (d - 56320))%N in
              (240 + cp / 262144)%N :: (128 + (cp / 4096) mod 64)%N
                :: (128 + (cp / 64) mod 64)%N :: (128 + cp mod 64)%N :: utf8 r'
            else 239%N :: 191%N :: 189%N :: utf8 r
        | [] => [239; 191; 189]%N
        end
      else if isLow c then 239%N :: 191%N :: 189%N :: utf8 r
      else
        (224 + c / 4096)%N :: (128 + (c / 64) mod 64)%N :: (128 + c mod 64)%N
          :: utf8 r
  end.

(** The base64 alphabet: the character of a six-bit value. *)
Definition b64char (v : N) : N :=
  if (v <? 26)%N then (65 + v)%N
  else if (v <? 52)%N then (97 + (v - 26))%N
  else if (v <? 62)%N then (48 + (v - 52))%N
  else if (v =? 62)%N then 43%N
  else 47%N.

Definition pad : N := 61%N.

(** [buffer.toString('base64')] *)
Fixpoint base64 (bs : list N) : jsstring :=
  match bs with
  | [] => []
  | [a] => [b64char (a / 4); b64char ((a mod 4) * 16); pad; pad]%N
  | [a; b] =>
      [b64char (a / 4); b64char ((a mod 4) * 16 + b / 16);
       b64char ((b mod 16) * 4); pad]%N
  | a :: b :: c :: r =>
      (b64char (a / 4) :: b64char ((a mod 4) * 16 + b / 16)
         :: b64char ((b mod 16) * 4 + c / 64) :: b64char (c mod 64)
         :: base64 r)%N
  end.

(** [s.replace(/x/g, y)] for single characters [x] and [y]. *)
Definition replaceAllChar (x y : N) (s : jsstring) : jsstring :=
  map (fun c => if (c =? x)%N then y else c) s.

Fixpoint dropPad (s : jsstring) : jsstring :=
  match s with
  | c :: r => if (c =? pad)%N then dropPad r else s
  | [] => []
  end.

(** [s.replace(/=+$/, '')]: the trailing run of [=] is removed. *)
Definition stripPadding (s : jsstring) : jsstring := rev (dropPad (rev s)).

Definition encodeEmail (email : jsstring) : jsstring :=
  stripPadding
    (replaceAllChar 47 95
       (replaceAllChar 43 45 (base64 (utf8 email)))).

(** The characters of the URL-safe alphabet: letters, digits, [-], [_]. *)
Definition urlSafe (c : N) : bool :=
  ((65 <=? c) && (c <=? 90) || (97 <=? c) && (c <=? 122)
   || (48 <=? c) && (c <=? 57) || (c =? 45) || (c =? 95))%N.

(** The RFC 2822 text of the message. *)
Definition createMessage (options : SendMailOptions) : jsstring :=
  join nl
    [ lit "From: " ++ from options;
      lit "To: " ++ to options;
      lit "Subject: " ++ subject options;
      lit "MIME-Version: 1.0";
      lit "Content-Type: text/plain; charset=utf-8";
      [];
      body options ].

(** What a promise rejects with. *)
Inductive Thrown :=
| ErrorWith (message : jsstring)   (* an [Error] *)
| NotAnError.                      (* any other value *)

(** What [gmail.users.messages.send] comes to. *)
Inductive SendReply :=
| Rejects (t : Thrown)
| Resolves (id threadId : option jsstring).

(** A call that returns or throws an [AppError]. *)
Inductive Http (A : Type) :=
| Returned (a : A)
| AppError (status : Z) (message : jsstring).
Arguments AppError {A} status message.

(** The [catch] of [sendGmail]. *)
Definition mapError {A} (t : Thrown) : Http A :=
  match t with
  | ErrorWith message =>
      if includes message (lit "invalid_grant")
      then AppError 401 (lit "Gmail access token expired")
      else if includes message (lit "insufficient_scope")
      then AppError 403 (lit "Insufficient Gmail permissions")
      else AppError 500 (lit "Failed to send email via Gmail")
  | NotAnError => AppError 500 (lit "Failed to send email via Gmail")
  end.

Section Client.

(** The Gmail API behind an access token: what sending the raw message
    comes to. *)
Variable send : jsstring -> jsstring -> SendReply.

Definition sendGmail (options : SendMailOptions) : Http SendMailResult :=
  let message := createMessage options in
  let encodedMessage := encodeEmail message in
  match send (accessToken options) encodedMessage with
  | Resolves id threadId =>
      if negb (truthy_opt id) || negb (truthy_opt threadId) then
        (* the [AppError] thrown here is caught by the same [catch] *)
        mapError (ErrorWith (lit "Failed to send email"))
      else Returned {| messageId := or_else id []; threadId := or_else threadId [] |}
  | Rejects t => mapError t
  end.

End Client.

End Gmail.

(* ================================================================== *)
(** ** server/src/routes/send.ts: the send routes *)
(* ================================================================== *)

Module SendRoute.

(** [req.user] *)
Record User := mkUser {
  userEmail : jsstring;
  userToken : jsstring
}.

Record SendRequest := mkSendRequest {
  recipient : GenerateMail.Recipient;
  templateOverrides : option GenerateMail.TemplateOverrides
}.

(** The body of the response of [POST /]. *)
Record SendResponse := mkSendResponse {
  r_messageId : jsstring;
  r_to : jsstring;
  r_subject : jsstring
}.

Inductive Status := sent | failed.

Record BatchEntry := mkBatchEntry {
  b_email : jsstring;
  b_status : Status;
  b_messageId : option jsstring;
  b_error : option jsstring
}.

Record BatchResponse := mkBatchResponse {
  total : nat;
  sentCount : nat;
  failedCount : nat;
  results : list BatchEntry
}.

(** What a route handler does with a request: it responds, or hands an
    error to [next]. *)
Inductive Handled (A : Type) :=
| Responded (a : A)
| NextAppError (status : Z) (message : jsstring)
| NextZodError.
Arguments NextAppError {A} status message.
Arguments NextZodError {A}.

Definition isSent (e : BatchEntry) : bool :=
  match b_status e with sent => true | failed => false end.

Definition isFailed (e : BatchEntry) : bool :=
  match b_status e with failed => true | sent => false end.

Section Routes.

Variable parseReply : jsstring -> option (jsstring * jsstring).

(** The Gmail API, as in [Gmail.sendGmail]. *)
Variable send : jsstring -> jsstring -> Gmail.SendReply.

(** Whether [AppError], declared in middleware/errorHandler.js, is an
    [Error]: the batch route reads [error.message] only then. *)
Variable appErrorIsError : bool.

(** The mail of one recipient, generated and handed to Gmail. *)
Definition deliver (user : User) (to : GenerateMail.Recipient)
           (overrides : option GenerateMail.TemplateOverrides)
           (reply : GenerateMail.Reply)
  : GenerateMail.EmailContent * Gmail.Http Gmail.SendMailResult :=
  let emailContent := fst (GenerateMail.generateMail parseReply to overrides reply) in
  (emailContent,
   Gmail.sendGmail send
     {| Gmail.accessToken := userToken user;
        Gmail.from := userEmail user;
        Gmail.to := GenerateMail.email to;
        Gmail.subject := GenerateMail.subject emailContent;
        Gmail.body := GenerateMail.body emailContent |}).

(** [POST /] on a request body that passed [sendMailSchema]. *)
Definition postSend (user : User) (data : SendRequest) (reply : GenerateMail.Reply)
  : Handled SendResponse :=
  match deliver user (recipient data) (templateOverrides data) reply with
  | (emailContent, Gmail.Returned result) =>
      Responded
        {| r_messageId := Gmail.messageId result;
           r_to := GenerateMail.email (recipient data);
           r_subject := GenerateMail.subject emailContent |}
  | (_, Gmail.AppError status message) => NextAppError status message
  end.

(** One turn of the loop of [POST /batch]; [reply] is what the AI call made
    for this recipient comes to. *)
Definition batchEntry (user : User) (to : GenerateMail.Recipient)
           (reply : GenerateMail.Reply) : BatchEntry :=
  match deliver user to None reply with
  | (_, Gmail.Returned result) =>
      {| b_email := GenerateMail.email to; b_status := sent;
         b_messageId := Some (Gmail.messageId result); b_error := None |}
  | (_, Gmail.AppError _ message) =>
      {| b_email := GenerateMail.email to; b_status := failed;
         b_messageId := None;
         b_error := Some (if appErrorIsError then message else lit "Unknown error") |}
  end.

Fixpoint batchLoop (user : User) (recipients : list GenerateMail.Recipient)
         (replies : nat -> GenerateMail.Reply) (i : nat) : list BatchEntry :=
  match recipients with
  | [] => []
  | to :: rest => batchEntry user to (replies i) :: batchLoop user rest replies (S i)
  end.

(** [recipients.map(r => schema.parse(r))]: one invalid recipient rejects
    the whole request. *)
Fixpoint validateAll {Raw} (parse : Raw -> option GenerateMail.Recipient)
         (l : list Raw) : option (list GenerateMail.Recipient) :=
  match l with
  | [] => Some []
  | r :: rest =>
      match parse r with
      | None => None
      | Some v =>
          match validateAll parse rest with
          | None => None
          | Some vs => Some (v :: vs)
          end
      end
  end.

(** [POST /batch]: [recipients] is [None] when the body holds no array;
    [replies i] is what the AI call for the recipient at index [i] comes
    to. *)
Definition postBatch {Raw} (parse : Raw -> option GenerateMail.Recipient)
           (user : User) (recipients : option (list Raw))
           (replies : nat -> GenerateMail.Reply)
  : Handled BatchResponse :=
  match recipients with
  | None | Some [] => NextAppError 400 (lit "Recipients array required")
  | Some raw =>
      match validateAll parse raw with
      | None => NextZodError
      | Some validatedRecipients =>
          let results := batchLoop user validatedRecipients replies 0 in
          Responded
            {| total := length raw;
               sentCount := length (filter isSent results);
               failedCount := length (filter isFailed results);
               results := results |}
      end
  end.

End Routes.

End SendRoute.

(* ================================================================== *)
(** ** server/src/helpers/processOCR.ts: from the image to the record *)
(* ================================================================== *)

Module ServerOCR.

Record OCROptions := mkOCROptions {
  language : option ParseCard.Language;
  useGoogleVision : option bool;
  fallbackToTesseract : option bool
}.

Definition defaults : OCROptions :=
  {| language := None; useGoogleVision := None; fallbackToTesseract := None |}.

(** What a promise rejects with: an [Error] and its message, or any other
    value. *)
Inductive Thrown :=
| ErrorWith (message : string)
| NotAnError.

(** [error instanceof Error ? error.message : 'Unknown error'] *)
Definition messageOf (t : Thrown) : string :=
  match t with
  | ErrorWith message => message
  | NotAnError => "Unknown error"
  end.

(** What [visionClient.textDetection] comes to: it rejects, or resolves
    with the [textAnnotations] of the result, which may be missing; so may
    the description of an annotation. *)
Inductive VisionReply :=
| VisionRejects (t : Thrown)
| Annotations (detections : option (list (option jsstring))).

Definition extractTextWithGoogleVision (vision : VisionReply) : result jsstring :=
  match vision with
  | VisionRejects t => Throw (String.append "Google Vision API failed: " (messageOf t))
  | Annotations None | Annotations (Some []) =>
      Throw (String.append "Google Vision API failed: " "No text detected in image")
  | Annotations (Some (first :: _)) => Ok (or_else first [])
  end.

(** The placeholder: it warns and returns the empty string. *)
Definition extractTextWithTesseract : result jsstring := Ok [].

Section Pipeline.

Variable isEmail : jsstring -> bool.
Variable isUrl : jsstring -> bool.

(** The body of the [try] block of [processOCR]. *)
Definition attempt (options : OCROptions) (vision : VisionReply)
           (reply : ProcessOCR.Reply) : result ProcessOCR.OCRResult :=
  let google := match useGoogleVision options with Some b => b | None => true end in
  let tesseract := match fallbackToTesseract options with Some b => b | None => true end in
  let extracted :=
    if google then extractTextWithGoogleVision vision
    else if tesseract then extractTextWithTesseract
    else Throw "No OCR method specified" in
  match extracted with
  | Throw message => Throw message
  | Ok rawText =>
      if negb (truthy (trim rawText)) then Throw "No text extracted from image"
      else Ok (ProcessOCR.parseCardDataWithGPT isEmail isUrl reply rawText)
  end.

Definition processOCR (options : OCROptions) (vision : VisionReply)
           (reply : ProcessOCR.Reply) : result ProcessOCR.OCRResult :=
  match attempt options vision reply with
  | Ok parsedData => Ok parsedData
  | Throw message => Throw (String.append "OCR processing failed: " message)
  end.

End Pipeline.

End ServerOCR.

(* ================================================================== *)
(** ** apps/web/src/helpers/generateMail.ts: the AI path in the browser *)
(* ================================================================== *)

Module WebComposer.

(** [/\{[\s\S]*\}/]: from the first opening brace to the last closing one. *)
Definition jsonBlock : regex :=
  seq_of [one (chr "{"); star (Cls true []); one (chr "}")].

(** [/^件名[::：]?\s*/] *)
Definition subjectPrefix : regex :=
  seq_of [Bol; str "件名"; opt (Cls false (any_of ":：")); star space].

(** [s.replace(r, '')] for a pattern without the [g] flag. *)
Definition removeFirst (r : regex) (s : jsstring) : jsstring :=
  match exec r s 0 with
  | Some (i, e) => firstn i s ++ skipn e s
  | None => s
  end.

(** The object read from the JSON block, at the properties looked at. *)
Record MailJson := mkMailJson {
  j_subject : option jsstring;
  j_kenmei : option jsstring;     (* [parsed.件名] *)
  j_body : option jsstring;
  j_honbun : option jsstring      (* [parsed.本文] *)
}.

(** What the call to the chat completion API comes to. *)
Inductive Reply :=
| ApiError (message : string)
| Content (c : option jsstring).

Section Composer.

(** [JSON.parse]: the object, or the error it throws. *)
Variable jsonParse : jsstring -> result MailJson.

Definition generateWithGPT (cardData : ParseCard.ParsedCardData)
           (options : WebGenerateMail.GenerateMailOptions) (reply : Reply)
  : result WebGenerateMail.EmailContent :=
  let t := WebGenerateMail.toneOf options in
  let l := WebGenerateMail.languageOf options in
  match reply with
  | ApiError message => Throw message
  | Content c =>
      if negb (truthy_opt c) then Throw "No content generated"
      else
        let content := or_else c [] in
        match str_match jsonBlock content with
        | Some block =>
            match jsonParse block with
            | Throw message => Throw message
            | Ok parsed =>
                Ok {| WebGenerateMail.subject :=
                        if truthy_opt (j_subject parsed)
                        then or_else (j_subject parsed) []
                        else or_else (j_kenmei parsed) [];
                      WebGenerateMail.body :=
                        if truthy_opt (j_body parsed)
                        then or_else (j_body parsed) []
                        else or_else (j_honbun parsed) content;
                      WebGenerateMail.tone := t;
                      WebGenerateMail.language := l |}
            end
        | None =>
            let lines := filter ParseCard.nonBlank (split_lines content) in
            let fallbackSubject :=
              ParseCard.name cardData ++ lit "様、お世話になっております" in
            let subject :=
              match lines with
              | first :: _ => or_else (Some (removeFirst subjectPrefix first)) fallbackSubject
              | [] => fallbackSubject
              end in
            Ok {| WebGenerateMail.subject := subject;
                  WebGenerateMail.body := content;
                  WebGenerateMail.tone := t;
                  WebGenerateMail.language := l |}
        end
  end.

Definition generateMail (cardData : ParseCard.ParsedCardData)
           (options : WebGenerateMail.GenerateMailOptions) (reply : Reply)
  : result WebGenerateMail.EmailContent :=
  if negb (truthy (ParseCard.name cardData)) || negb (truthy (ParseCard.email cardData))
  then Throw "名前とメールアドレスは必須です"
  else
    match generateWithGPT cardData options reply with
    | Ok content => Ok content
    | Throw _ => Ok (WebGenerateMail.generateWithTemplate cardData options)
    end.

End Composer.

End WebComposer.

(* ================================================================== *)
(** ** apps/web/src/hooks/useCardStore.ts: the card store *)
(* ================================================================== *)

Module CardStore.

Inductive Status := processing | reviewing | ready | sending | sent | failed.

Record CardData := mkCard {
  id : jsstring;
  fileName : jsstring;
  thumbnailUrl : option jsstring;
  rawText : jsstring;
  extractedData : option ParseCard.ParsedCardData;
  emailContent : option WebGenerateMail.EmailContent;
  status : Status;
  createdAt : jsstring;
  updatedAt : jsstring;
  sentAt : option jsstring
}.

(** What [addCard] is given: a card without id and timestamps. *)
Record NewCard := mkNewCard {
  n_fileName : jsstring;
  n_thumbnailUrl : option jsstring;
  n_rawText : jsstring;
  n_extractedData : option ParseCard.ParsedCardData;
  n_emailContent : option WebGenerateMail.EmailContent;
  n_status : Status;
  n_sentAt : option jsstring
}.

(** [Partial<CardData>]: a property is present or left out. *)
Record Updates := mkUpdates {
  u_id : option jsstring;
  u_fileName : option jsstring;
  u_thumbnailUrl : option jsstring;
  u_rawText : option jsstring;
  u_extractedData : option ParseCard.ParsedCardData;
  u_emailContent : option WebGenerateMail.EmailContent;
  u_status : option Status;
  u_createdAt : option jsstring;
  u_updatedAt : option jsstring;
  u_sentAt : option jsstring
}.

Definition noUpdates : Updates :=
  {| u_id := None; u_fileName := None; u_thumbnailUrl := None; u_rawText := None;
     u_extractedData := None; u_emailContent := None; u_status := None;
     u_createdAt := None; u_updatedAt := None; u_sentAt := None |}.

Record State := mkState {
  pendingCards : list CardData;
  sentCards : list CardData;
  selectedCardId : option jsstring
}.

Definition initial : State :=
  {| pendingCards := []; sentCards := []; selectedCardId := None |}.

Definition override {A} (old : A) (new : option A) : A :=
  match new with Some v => v | None => old end.

Definition overrideOpt {A} (old new : option A) : option A :=
  match new with Some v => Some v | None => old end.

(** [{ ...card, ...updates, updatedAt: now }] *)
Definition applyUpdates (card : CardData) (updates : Updates) (now : jsstring)
  : CardData :=
  {| id := override (id card) (u_id updates);
     fileName := override (fileName card) (u_fileName updates);
     thumbnailUrl := overrideOpt (thumbnailUrl card) (u_thumbnailUrl updates);
     rawText := override (rawText card) (u_rawText updates);
     extractedData := overrideOpt (extractedData card) (u_extractedData updates);
     emailContent := overrideOpt (emailContent card) (u_emailContent updates);
     status := override (status card) (u_status updates);
     createdAt := override (createdAt card) (u_createdAt updates);
     updatedAt := now;
     sentAt := overrideOpt (sentAt card) (u_sentAt updates) |}.

(** [addCard(card)] with the identifier [crypto.randomUUID()] gave and the
    time it was called at: the new state and the identifier. *)
Definition addCard (uuid now : jsstring) (card : NewCard) (state : State)
  : State * jsstring :=
  let newCard :=
    {| id := uuid;
       fileName := n_fileName card;
       thumbnailUrl := n_thumbnailUrl card;
       rawText := n_rawText card;
       extractedData := n_extractedData card;
       emailContent := n_emailContent card;
       status := n_status card;
       createdAt := now;
       updatedAt := now;
       sentAt := n_sentAt card |} in
  ({| pendingCards := pendingCards state ++ [newCard];
      sentCards := sentCards state;
      selectedCardId := Some uuid |}, uuid).

Definition updateCard (now : jsstring) (cardId : jsstring) (updates : Updates)
           (state : State) : State :=
  {| pendingCards :=
       map (fun card => if str_eqb (id card) cardId
                        then applyUpdates card updates now else card)
           (pendingCards state);
     sentCards := sentCards state;
     selectedCardId := selectedCardId state |}.

Definition setSelectedCard (cardId : option jsstring) (state : State) : State :=
  {| pendingCards := pendingCards state;
     sentCards := sentCards state;
     selectedCardId := cardId |}.

Definition hasOtherId (cardId : jsstring) (card : CardData) : bool :=
  negb (str_eqb (id card) cardId).

Definition clearCard (cardId : jsstring) (state : State) : State :=
  {| pendingCards := filter (hasOtherId cardId) (pendingCards state);
     sentCards := sentCards state;
     selectedCardId :=
       match selectedCardId state with
       | Some s => if str_eqb s cardId then None else Some s
       | None => None
       end |}.

(** The card as [sendCard] files it. *)
Definition asSent (now : jsstring) (card : CardData) : CardData :=
  {| id := id card;
     fileName := fileName card;
     thumbnailUrl := thumbnailUrl card;
     rawText := rawText card;
     extractedData := extractedData card;
     emailContent := emailContent card;
     status := sent;
     createdAt := createdAt card;
     updatedAt := now;
     sentAt := Some now |}.

Definition sendCard (now : jsstring) (cardId : jsstring) (state : State) : State :=
  match find (fun c => str_eqb (id c) cardId) (pendingCards state) with
  | None => state
  | Some card =>
      {| pendingCards := filter (hasOtherId cardId) (pendingCards state);
         sentCards := sentCards state ++ [asSent now card];
         selectedCardId := selectedCardId state |}
  end.

(** [useSelectedCard] *)
Definition selectedCard (state : State) : option CardData :=
  match selectedCardId state with
  | Some s => find (fun c => str_eqb (id c) s) (pendingCards state)
  | None => None
  end.

End CardStore.

(* ================================================================== *)
(** ** apps/web/src/components/Upload/DropZone.tsx: one dropped file *)
(* ================================================================== *)

Module DropZone.

(** [OCRResult] of the Vision wrapper. *)
Record OCRResult := mkOCRResult {
  text : jsstring;
  confidence : number
}.

(** What the browser gives for one file: its name, its object URL, the
    identifier and the times the store is handed, and what text extraction
    and the AI call come to. *)
Record Dropped := mkDropped {
  name : jsstring;
  objectUrl : jsstring;
  uuid : jsstring;
  addedAt : jsstring;
  updatedAt : jsstring;
  extraction : result OCRResult;       (* [extractTextFromImage(file)] *)
  reply : ParseCard.Reply
}.

Section Runtime.

Variable rt : Coercion.Runtime.

(** One turn of the loop of [onDrop]. *)
Definition processFile (file : Dropped) (state : CardStore.State) : CardStore.State :=
  let (state1, cardId) :=
    CardStore.addCard (uuid file) (addedAt file)
      {| CardStore.n_fileName := name file;
         CardStore.n_thumbnailUrl := Some (objectUrl file);
         CardStore.n_rawText := [];
         CardStore.n_extractedData := None;
         CardStore.n_emailContent := None;
         CardStore.n_status := CardStore.processing;
         CardStore.n_sentAt := None |} state in
  match extraction file with
  | Throw _ => state1
  | Ok ocrResult =>
      if truthy (text ocrResult) then
        match ParseCard.parseCard rt (reply file) (text ocrResult) ParseCard.defaults with
        | Throw _ => state1
        | Ok parsedData =>
            CardStore.updateCard (updatedAt file) cardId
              {| CardStore.u_id := None; CardStore.u_fileName := None;
                 CardStore.u_thumbnailUrl := None;
                 CardStore.u_rawText := Some (text ocrResult);
                 CardStore.u_extractedData :=
                   Some {| ParseCard.name := ParseCard.name parsedData;
                           ParseCard.company := ParseCard.company parsedData;
                           ParseCard.role := ParseCard.role parsedData;
                           ParseCard.email := ParseCard.email parsedData;
                           ParseCard.phone := ParseCard.phone parsedData;
                           ParseCard.confidence :=
                             Math_max (confidence ocrResult)
                                      (ParseCard.confidence parsedData) |};
                 CardStore.u_emailContent := None;
                 CardStore.u_status := Some CardStore.reviewing;
                 CardStore.u_createdAt := None; CardStore.u_updatedAt := None;
                 CardStore.u_sentAt := None |} state1
        end
      else
        CardStore.updateCard (updatedAt file) cardId
          {| CardStore.u_id := None; CardStore.u_fileName := None;
             CardStore.u_thumbnailUrl := None; CardStore.u_rawText := None;
             CardStore.u_extractedData := None; CardStore.u_emailContent := None;
             CardStore.u_status := Some CardStore.failed;
             CardStore.u_createdAt := None; CardStore.u_updatedAt := None;
             CardStore.u_sentAt := None |} state1
  end.

(** [onDrop]: the files are processed in order. *)
Definition onDrop (files : list Dropped) (state : CardStore.State) : CardStore.State :=
  fold_left (fun s file => processFile file s) files state.

End Runtime.

End DropZone.

(* ================================================================== *)
(** ** apps/web/src/lib/ocr-worker.ts: the extractor of the browser *)
(* ================================================================== *)

Module OcrWorker.

(** [OCRResult]: the role is left out when none was found. *)
Record OCRResult := mkOCRResult {
  name : jsstring;
  email : jsstring;
  company : jsstring;
  role : option jsstring;
  confidence : Z
}.

(** [/[\w\.-]+@[\w\.-]+\.\w+/] *)
Definition emailPattern : regex :=
  seq_of [plus Worker.word_dot_dash; one (chr "@"); plus Worker.word_dot_dash;
          one (chr "."); plus word].

(** [/[\d\-\(\)\+\s]{10,}/] *)
Definition phonePattern : regex :=
  at_least (Cls false (digit_ranges
                       ++ [single "-"; single "("; single ")"; single "+"]
                       ++ space_ranges)) 10.

(** [/https?:\/\/[\w\.-]+\.\w+/] *)
Definition urlPattern : regex :=
  seq_of [str "http"; opt (chr "s"); str "://"; plus Worker.word_dot_dash;
          one (chr "."); plus word].

(** [[ぁ-んァ-ヶー一-龯]]: U+3041 to U+3093, U+30A1 to U+30F6, U+30FC and
    U+4E00 to U+9FAF. *)
Definition japanese_ranges : list (N * N) :=
  [(12353, 12435); (12449, 12534); (12540, 12540); (19968, 40879)]%N.

(** [/^[ぁ-んァ-ヶー一-龯]{2,}\s*[ぁ-んァ-ヶー一-龯]{2,}$/] *)
Definition japaneseNamePattern : regex :=
  seq_of [Bol; at_least (Cls false japanese_ranges) 2; star space;
          at_least (Cls false japanese_ranges) 2; Eol].

(** [/^[A-Z][a-z]+\s+[A-Z][a-z]+$/] *)
Definition englishNamePattern : regex :=
  seq_of [Bol; one (Cls false [range "A" "Z"]); plus (Cls false [range "a" "z"]);
          plus space;
          one (Cls false [range "A" "Z"]); plus (Cls false [range "a" "z"]); Eol].

(** [/[0-9@]/] *)
Definition digitOrAt : regex := one (Cls false [range "0" "9"; single "@"]).

(** [/[ぁ-んァ-ヶー一-龯a-zA-Z]/] *)
Definition nameCharacter : regex :=
  one (Cls false (japanese_ranges ++ [range "a" "z"; range "A" "Z"])).

Definition matches (r : regex) (s : jsstring) : bool :=
  match str_match r s with Some _ => true | None => false end.

Definition nonBlank (line : jsstring) : bool := truthy (trim line).

(** The first line the pattern matches gives the e-mail address. *)
Fixpoint firstEmail (lines : list jsstring) : option jsstring :=
  match lines with
  | [] => None
  | line :: rest =>
      match str_match emailPattern line with
      | Some m => Some m
      | None => firstEmail rest
      end
  end.

Section CompanyPatterns.

(** The eight company patterns use lazy quantifiers and lookahead, which
    [Regex] does not embed: [companyMatch i line] stands for
    [line.match(companyPatterns[i])[0]], [None] when there is no match. *)
Variable companyMatch : nat -> jsstring -> option jsstring.

Fixpoint firstLineMatch (i : nat) (lines : list jsstring) : option jsstring :=
  match lines with
  | [] => None
  | line :: rest =>
      match companyMatch i line with
      | Some m => Some m
      | None => firstLineMatch i rest
      end
  end.

(** The company loop: the patterns in order, and for each the lines in
    order.  After the first match nothing is assigned any more, also when
    the match is empty once trimmed. *)
Fixpoint companyLoop (patterns : list nat) (lines : list jsstring) : jsstring :=
  match patterns with
  | [] => []
  | i :: rest =>
      match firstLineMatch i lines with
      | Some m => trim m
      | None => companyLoop rest lines
      end
  end.

(** The lines the name loop skips. *)
Definition taken (company line : jsstring) : bool :=
  matches emailPattern line || matches phonePattern line
  || matches urlPattern line || str_eqb line company.

Definition looksLikeName (company line : jsstring) : bool :=
  negb (taken company line)
  && (matches japaneseNamePattern line || matches englishNamePattern line).

(** A line next to the name that may be the role. *)
Definition roleOf (neighbour : option jsstring) : jsstring :=
  match neighbour with
  | Some l => if (length l <? 20) && negb (matches digitOrAt l) then trim l else []
  | None => []
  end.

(** The role looked for around the line of the name: the line before it,
    and when that gives nothing the line after it. *)
Definition roleAround (lines : list jsstring) (line : jsstring) : jsstring :=
  match findIndex (str_eqb line) lines with
  | None => []
  | Some lineIndex =>
      let before :=
        if 0 <? lineIndex then roleOf (nth_error lines (lineIndex - 1)) else [] in
      if negb (truthy before) && (lineIndex <? length lines - 1)
      then roleOf (nth_error lines (lineIndex + 1))
      else before
  end.

Definition isCandidate (company line : jsstring) : bool :=
  negb (matches emailPattern line) && negb (matches phonePattern line)
  && negb (matches urlPattern line) && negb (str_eqb line company)
  && (2 <? length line) && (length line <? 30)
  && test nameCharacter line.

Definition extractBusinessCardInfo (text : jsstring) : OCRResult :=
  let lines := filter nonBlank (split_lines text) in
  let email := or_else (firstEmail lines) [] in
  let company := companyLoop (seq 0 8) lines in
  let named := find (looksLikeName company) lines in
  let name0 := match named with Some line => trim line | None => [] end in
  let role := match named with Some line => roleAround lines line | None => [] end in
  let name :=
    if truthy name0 then name0
    else match find (isCandidate company) lines with
         | Some line => trim line
         | None => name0
         end in
  let confidence :=
    ((if truthy email then 40 else 0)
     + (if truthy name && negb (str_eqb name (lit "Unknown")) then 30 else 0)
     + (if truthy company && negb (str_eqb company (lit "Unknown Company"))
        then 20 else 0)
     + (if truthy role then 10 else 0))%Z in
  {| name := or_else (Some name) (lit "不明");
     email := or_else (Some email) (lit "no-email@example.com");
     company := or_else (Some company) (lit "不明");
     role := if truthy role then Some role else None;
     confidence := confidence |}.

End CompanyPatterns.

End OcrWorker.

(* ================================================================== *)
(** ** Notions used to state properties of the card store *)
(* ================================================================== *)

Module StoreSpec.

(** Cards none of which has the identifier [cardId]. *)
Definition unused (cardId : jsstring) (cards : list CardStore.CardData) : Prop :=
  Forall (fun c => CardStore.id c <> cardId) cards.

End StoreSpec.

(* ================================================================== *)
(** ** Sample inputs *)
(* ================================================================== *)

Module Examples.

(** A Japanese card, as in the unit tests of the parser. *)
Definition sampleCard : jsstring :=
  text_lines [ lit "山田 太郎"; lit "株式会社サンプル"; lit "yamada@example.com";
               lit "03-1234-5678" ].

(** A reply the AI is sure of. *)
Definition confidentReply : ParseCard.Reply :=
  ParseCard.Parsed
    {| ParseCard.a_name := Some (lit "山田 太郎");
       ParseCard.a_company := Some (lit "株式会社サンプル");
       ParseCard.a_role := Some (lit "営業部長");
       ParseCard.a_email := Some (lit "yamada@example.com");
       ParseCard.a_phone := Some (lit "03-1234-5678");
       ParseCard.a_confidence := Some (Coercion.VNum (Fin (9 # 10))) |}.

Definition confidentCandidate : ParseCard.ParsedCardData :=
  {| ParseCard.name := lit "山田 太郎";
     ParseCard.company := lit "株式会社サンプル";
     ParseCard.role := lit "営業部長";
     ParseCard.email := lit "yamada@example.com";
     ParseCard.phone := lit "03-1234-5678";
     ParseCard.confidence := Fin (9 # 10) |}.

(** A reply the AI is unsure of, with fields left empty. *)
Definition unsureReply : ParseCard.Reply :=
  ParseCard.Parsed
    {| ParseCard.a_name := Some (lit "山田");
       ParseCard.a_company := Some [];
       ParseCard.a_role := Some [];
       ParseCard.a_email := Some (lit "yamada@example.com");
       ParseCard.a_phone := Some [];
       ParseCard.a_confidence := Some (Coercion.VNum (Fin (5 # 10))) |}.

Definition unsureCandidate : ParseCard.ParsedCardData :=
  {| ParseCard.name := lit "山田";
     ParseCard.company := [];
     ParseCard.role := [];
     ParseCard.email := lit "yamada@example.com";
     ParseCard.phone := [];
     ParseCard.confidence := Fin (5 # 10) |}.

Definition recipient : GenerateMail.Recipient :=
  {| GenerateMail.name := lit "山田 太郎";
     GenerateMail.email := lit "yamada@example.com";
     GenerateMail.company := lit "株式会社サンプル";
     GenerateMail.role := None |}.

(** A reply parser that rejects everything. *)
Definition noParse (_ : jsstring) : option (jsstring * jsstring) := None.

(** Overrides whose subject is supplied as the empty string. *)
Definition emptySubjectOverrides : GenerateMail.TemplateOverrides :=
  {| GenerateMail.o_subject := Some [];
     GenerateMail.o_body := Some (lit "Hello") |}.

Definition tanaka : EmailGenerator.BusinessCardData :=
  {| EmailGenerator.name := Some (lit "田中");
     EmailGenerator.company := Some (lit "株式会社テスト");
     EmailGenerator.role := None;
     EmailGenerator.email := Some (lit "tanaka@test.co.jp");
     EmailGenerator.phone := None;
     EmailGenerator.address := None;
     EmailGenerator.website := None |}.

(** The professional tone in Japanese, spelled out. *)
Definition professionalJa : EmailGenerator.GenerateEmailOptions :=
  {| EmailGenerator.cardData := tanaka;
     EmailGenerator.senderName := lit "山田";
     EmailGenerator.senderCompany := None;
     EmailGenerator.tone := Some EmailGenerator.professional;
     EmailGenerator.language := Some EmailGenerator.ja;
     EmailGenerator.customMessage := None |}.


(** A reply whose confidence is a word. *)
Definition vagueArgs : ParseCard.FunctionArgs :=
  {| ParseCard.a_name := Some (lit "山田 太郎");
     ParseCard.a_company := Some (lit "株式会社サンプル");
     ParseCard.a_role := None;
     ParseCard.a_email := Some (lit "yamada@example.com");
     ParseCard.a_phone := None;
     ParseCard.a_confidence := Some (Coercion.VStr (lit "high")) |}.

Definition vagueReply : ParseCard.Reply := ParseCard.Parsed vagueArgs.

Definition vagueCandidate : ParseCard.ParsedCardData :=
  {| ParseCard.name := lit "山田 太郎";
     ParseCard.company := lit "株式会社サンプル";
     ParseCard.role := [];
     ParseCard.email := lit "yamada@example.com";
     ParseCard.phone := [];
     ParseCard.confidence := NaN |}.


(** A runtime for the sample runs, none of which has a number spelled out
    or a numeric string read. *)
Definition runtime : Coercion.Runtime :=
  {| Coercion.numberToString := fun _ => lit "NaN";
     Coercion.literalValue := fun _ => NaN |}.

(** Two responses of the card service. *)
Definition created : Worker.Response :=
  {| Worker.ok := true; Worker.statusText := "Created" |}.

Definition serverError : Worker.Response :=
  {| Worker.ok := false; Worker.statusText := "Internal Server Error" |}.

(** A worker whose collaborators all answer. *)
Definition services : Worker.Services :=
  {| Worker.base64 := fun image => image;
     Worker.sharp := fun buffer => Ok buffer;
     Worker.recognize := fun _ => Ok sampleCard;
     Worker.uuidv4 := lit "card-1";
     Worker.postCard := fun _ => Ok created;
     Worker.postSend := fun _ =>
       Ok (created,
           {| Worker.messageId := lit "msg-1"; Worker.resultSubject := None;
              Worker.resultBody := None |});
     Worker.putCard := fun _ _ => Ok true |}.

Definition job : Worker.JobData :=
  {| Worker.image := lit "aGVsbG8="; Worker.mimetype := lit "image/jpeg" |}.

Definition processed : Worker.Processed :=
  {| Worker.cardInfo := Worker.extractBusinessCardInfo sampleCard;
     Worker.savedId := lit "card-1";
     Worker.emailId := lit "msg-1" |}.

(** A browser session that reviews before sending. *)
Definition browserServices : ProcessingContext.Services :=
  {| ProcessingContext.autoSend := false;
     ProcessingContext.performOCR := fun _ =>
       Ok {| ProcessingContext.name := lit "山田 太郎";
             ProcessingContext.email := lit "yamada@example.com";
             ProcessingContext.company := lit "株式会社サンプル";
             ProcessingContext.role := None;
             ProcessingContext.confidence := Fin (9 # 10) |};
     ProcessingContext.apiGenerateEmail := fun _ => Throw "Network Error";
     ProcessingContext.apiSendEmail := fun _ _ => Ok (lit "msg-1") |}.

Definition browserJob : ProcessingContext.ProcessingJob :=
  {| ProcessingContext.id := lit "job-1";
     ProcessingContext.file := lit "card.jpg";
     ProcessingContext.ocrResult := None;
     ProcessingContext.emailContent := None |}.

End Examples.

(* ================================================================== *)
(** ** More sample inputs *)
(* ================================================================== *)

Module Samples.

(** parseCard told to rely on the AI alone. *)
Definition aiOnly : ParseCard.ParseCardOptions :=
  {| ParseCard.fallbackToRegex := Some false; ParseCard.language := None |}.

(** A reply that reports a confidence of 150 percent. *)
Definition overconfidentArgs : ParseCard.FunctionArgs :=
  {| ParseCard.a_name := Some (lit "山田 太郎");
     ParseCard.a_company := None;
     ParseCard.a_role := None;
     ParseCard.a_email := None;
     ParseCard.a_phone := None;
     ParseCard.a_confidence := Some (Coercion.VNum (Fin (3 # 2))) |}.

(** processOCR switched to Tesseract. *)
Definition tesseractOnly : ServerOCR.OCROptions :=
  {| ServerOCR.language := None;
     ServerOCR.useGoogleVision := Some false;
     ServerOCR.fallbackToTesseract := None |}.

(** An e-mail check that asks for an at sign. *)
Definition hasAt (s : jsstring) : bool := includes s (lit "@").

(** A reply of the AI whose e-mail address is not one. *)
Definition badEmailReply : ProcessOCR.Extracted :=
  {| ProcessOCR.x_name := Some (JStr (lit "山田 太郎"));
     ProcessOCR.x_company := Some (JStr (lit "株式会社サンプル"));
     ProcessOCR.x_role := None;
     ProcessOCR.x_email := Some (JStr (lit "yamada at example.com"));
     ProcessOCR.x_phone := None;
     ProcessOCR.x_address := None;
     ProcessOCR.x_website := None;
     ProcessOCR.x_confidence := Some (JNum (Fin (9 # 10))) |}.

(** A reply of the AI with a confidence in percent. *)
Definition percentReply : ProcessOCR.Extracted :=
  {| ProcessOCR.x_name := Some (JStr (lit "山田 太郎"));
     ProcessOCR.x_company := None;
     ProcessOCR.x_role := None;
     ProcessOCR.x_email := None;
     ProcessOCR.x_phone := None;
     ProcessOCR.x_address := None;
     ProcessOCR.x_website := None;
     ProcessOCR.x_confidence := Some (JNum (Fin 90)) |}.

Definition mail : Gmail.SendMailOptions :=
  {| Gmail.accessToken := lit "token";
     Gmail.from := lit "me@example.com";
     Gmail.to := lit "yamada@example.com";
     Gmail.subject := lit "ご挨拶";
     Gmail.body := text_lines [lit "山田様"; []; lit "よろしくお願いいたします。"] |}.

(** A Gmail that accepts every message. *)
Definition accepting (_ _ : jsstring) : Gmail.SendReply :=
  Gmail.Resolves (Some (lit "msg-1")) (Some (lit "thread-1")).

(** A Gmail whose token has expired and lacks the scope as well. *)
Definition expired (_ _ : jsstring) : Gmail.SendReply :=
  Gmail.Rejects (Gmail.ErrorWith (lit "insufficient_scope; invalid_grant")).

(** A Gmail that resolves without a thread identifier. *)
Definition threadless (_ _ : jsstring) : Gmail.SendReply :=
  Gmail.Resolves (Some (lit "msg-1")) None.

Definition user : SendRoute.User :=
  {| SendRoute.userEmail := lit "me@example.com";
     SendRoute.userToken := lit "token" |}.

Definition request : SendRoute.SendRequest :=
  {| SendRoute.recipient := Examples.recipient;
     SendRoute.templateOverrides := None |}.

(** A recipient schema that accepts what it is given. *)
Definition accept (r : GenerateMail.Recipient) : option GenerateMail.Recipient :=
  Some r.

(** A JSON parser that rejects everything. *)
Definition noJson (_ : jsstring) : result WebComposer.MailJson :=
  Throw "Unexpected token".

(** A card on which no name was found. *)
Definition nameless : ParseCard.ParsedCardData :=
  {| ParseCard.name := [];
     ParseCard.company := lit "株式会社サンプル";
     ParseCard.role := [];
     ParseCard.email := lit "yamada@example.com";
     ParseCard.phone := [];
     ParseCard.confidence := Fin (4 # 10) |}.

(** A worker whose image library rejects the upload. *)
Definition brokenSharp : Worker.Services :=
  {| Worker.base64 := fun image => image;
     Worker.sharp := fun _ => Throw "Input buffer contains unsupported image format";
     Worker.recognize := fun _ => Ok Examples.sampleCard;
     Worker.uuidv4 := lit "card-1";
     Worker.postCard := fun _ => Ok Examples.created;
     Worker.postSend := fun _ =>
       Ok (Examples.created,
           {| Worker.messageId := lit "msg-1"; Worker.resultSubject := None;
              Worker.resultBody := None |});
     Worker.putCard := fun _ _ => Ok true |}.

(** A worker whose card service answers every request with an error
    status. *)
Definition noCards : Worker.Services :=
  {| Worker.base64 := fun image => image;
     Worker.sharp := fun buffer => Ok buffer;
     Worker.recognize := fun _ => Ok Examples.sampleCard;
     Worker.uuidv4 := lit "card-1";
     Worker.postCard := fun _ => Ok Examples.serverError;
     Worker.postSend := fun _ =>
       Ok (Examples.created,
           {| Worker.messageId := lit "msg-1"; Worker.resultSubject := None;
              Worker.resultBody := None |});
     Worker.putCard := fun _ _ => Ok false |}.

(** A worker whose send request is answered with an error status. *)
Definition noMail : Worker.Services :=
  {| Worker.base64 := fun image => image;
     Worker.sharp := fun buffer => Ok buffer;
     Worker.recognize := fun _ => Ok Examples.sampleCard;
     Worker.uuidv4 := lit "card-1";
     Worker.postCard := fun _ => Ok Examples.created;
     Worker.postSend := fun _ =>
       Ok (Examples.serverError,
           {| Worker.messageId := []; Worker.resultSubject := None;
              Worker.resultBody := None |});
     Worker.putCard := fun _ _ => Ok true |}.

(** A worker whose card service accepts a new card and refuses the
    update. *)
Definition noUpdate : Worker.Services :=
  {| Worker.base64 := fun image => image;
     Worker.sharp := fun buffer => Ok buffer;
     Worker.recognize := fun _ => Ok Examples.sampleCard;
     Worker.uuidv4 := lit "card-1";
     Worker.postCard := fun _ => Ok Examples.created;
     Worker.postSend := fun _ =>
       Ok (Examples.created,
           {| Worker.messageId := lit "msg-1"; Worker.resultSubject := None;
              Worker.resultBody := None |});
     Worker.putCard := fun _ _ => Ok false |}.

(** A card that shows a trade name and a phone number only. *)
Definition tradeCard : jsstring := text_lines [lit "ACME"; lit "03-1234-5678"].

Definition yamada : ProcessingContext.OCRResult :=
  {| ProcessingContext.name := lit "山田 太郎";
     ProcessingContext.email := lit "yamada@example.com";
     ProcessingContext.company := lit "株式会社サンプル";
     ProcessingContext.role := None;
     ProcessingContext.confidence := Fin (9 # 10) |}.

(** A browser session that sends without review. *)
Definition autoSending : ProcessingContext.Services :=
  {| ProcessingContext.autoSend := true;
     ProcessingContext.performOCR := fun _ => Ok yamada;
     ProcessingContext.apiGenerateEmail := fun _ => Throw "Network Error";
     ProcessingContext.apiSendEmail := fun _ _ => Ok (lit "msg-1") |}.

Definition pending (cardId : jsstring) : CardStore.CardData :=
  {| CardStore.id := cardId;
     CardStore.fileName := lit "card.jpg";
     CardStore.thumbnailUrl := None;
     CardStore.rawText := Examples.sampleCard;
     CardStore.extractedData := Some Examples.confidentCandidate;
     CardStore.emailContent := None;
     CardStore.status := CardStore.reviewing;
     CardStore.createdAt := lit "2024-01-01T00:00:00.000Z";
     CardStore.updatedAt := lit "2024-01-01T00:00:00.000Z";
     CardStore.sentAt := None |}.

(** Two pending cards, the first of them selected. *)
Definition store : CardStore.State :=
  {| CardStore.pendingCards := [pending (lit "card-1"); pending (lit "card-2")];
     CardStore.sentCards := [];
     CardStore.selectedCardId := Some (lit "card-1") |}.

Definition fresh : CardStore.NewCard :=
  {| CardStore.n_fileName := lit "new.jpg";
     CardStore.n_thumbnailUrl := None;
     CardStore.n_rawText := [];
     CardStore.n_extractedData := None;
     CardStore.n_emailContent := None;
     CardStore.n_status := CardStore.processing;
     CardStore.n_sentAt := None |}.

Definition readyNow : CardStore.Updates :=
  {| CardStore.u_id := None; CardStore.u_fileName := None;
     CardStore.u_thumbnailUrl := None; CardStore.u_rawText := None;
     CardStore.u_extractedData := None; CardStore.u_emailContent := None;
     CardStore.u_status := Some CardStore.ready;
     CardStore.u_createdAt := None; CardStore.u_updatedAt := None;
     CardStore.u_sentAt := None |}.

(** A dropped file on which the OCR finds nothing but white space. *)
Definition blankScan : DropZone.Dropped :=
  {| DropZone.name := lit "blank.jpg";
     DropZone.objectUrl := lit "blob:1";
     DropZone.uuid := lit "card-3";
     DropZone.addedAt := lit "2024-01-02T00:00:00.000Z";
     DropZone.updatedAt := lit "2024-01-02T00:00:01.000Z";
     DropZone.extraction :=
       Ok {| DropZone.text := lit "   "; DropZone.confidence := Fin (9 # 10) |};
     DropZone.reply := Examples.confidentReply |}.

End Samples.

(* ================================================================== *)
(** * Properties *)
(* ================================================================== *)

(** ** Numbers and strings *)

Lemma Qle_bool_false (p r : Q) : Qle_bool p r = false -> (r <= p)%Q.
Proof.
  intros H. apply Qlt_le_weak, Qnot_le_lt.
  intros L. apply Qle_bool_iff in L. congruence.
Qed.

Lemma num_leb_not_ltb (a b : number) :
  num_leb a b = true -> num_ltb b a = false.
Proof.
  destruct a, b; simpl; try congruence.
  intros ->. reflexivity.
Qed.

(** [Math.max(0, Math.min(1, x))] lands in the unit interval for every
    number but NaN. *)
Lemma clamp_in_unit (x : number) :
  x <> NaN -> in_unit (Math_max (Fin 0) (Math_min (Fin 1) x)).
Proof.
  intros Hx. destruct x as [| | x |]; simpl.
  - congruence.
  - exists 0%Q. repeat split; [apply Qle_refl | discriminate].
  - destruct (Qle_bool 1 x) eqn:E1; simpl.
    + exists 1%Q. repeat split; [discriminate | apply Qle_refl].
    + destruct (Qle_bool 0 x) eqn:E0.
      * exists x. repeat split.
        -- now apply Qle_bool_iff.
        -- now apply Qle_bool_false.
      * exists 0%Q. repeat split; [apply Qle_refl | discriminate].
  - exists 1%Q. repeat split; [discriminate | apply Qle_refl].
Qed.

Lemma max_floor_in_unit (c : number) (f : Q) :
  in_unit c -> (0 <= f)%Q -> (f <= 1)%Q ->
  in_unit (Math_max c (Fin f)) /\ num_leb (Fin f) (Math_max c (Fin f)) = true.
Proof.
  intros (x & -> & H0 & H1) F0 F1. simpl.
  destruct (Qle_bool x f) eqn:E; simpl.
  - split; [exists f; auto | apply Qle_bool_iff, Qle_refl].
  - split; [exists x; auto | apply Qle_bool_iff, Qle_bool_false, E].
Qed.

Lemma truthy_nonempty (s : jsstring) : truthy s = true <-> s <> [].
Proof.
  destruct s; simpl; split; congruence.
Qed.

Lemma or_else_nonempty (a : option jsstring) (d : jsstring) :
  d <> [] -> or_else a d <> [].
Proof.
  intros Hd. unfold or_else. destruct a as [x|]; auto.
  destruct (truthy x) eqn:E; auto. now apply truthy_nonempty.
Qed.

Lemma or_else_some_truthy (x d : jsstring) :
  x <> [] -> or_else (Some x) d = x.
Proof.
  intros H. unfold or_else. apply truthy_nonempty in H. now rewrite H.
Qed.

(** The source's [a || b || ''] is the specification's preference rule. *)
Lemma or3_prefer (a : jsstring) (b : option jsstring) :
  or3 a b = Spec.prefer a b.
Proof.
  unfold or3, or_else, Spec.prefer.
  destruct a; simpl; auto.
  destruct b as [[|y v]|]; reflexivity.
Qed.

Lemma str_eqb_refl (a : jsstring) : str_eqb a a = true.
Proof.
  unfold str_eqb. destruct (list_eq_dec N.eq_dec a a); congruence.
Qed.

Lemma endsWith_app (x p : jsstring) : endsWith (x ++ p) p = true.
Proof.
  unfold endsWith. rewrite length_app.
  replace (length x + length p - length p) with (length x) by lia.
  rewrite skipn_app, skipn_all, Nat.sub_diag. simpl.
  rewrite str_eqb_refl, andb_true_r. apply Nat.leb_le. lia.
Qed.

(** ** The structured parser *)

(** [Math.max(0, Math.min(1, x))] of NaN is NaN. *)
Lemma clamp_unit_or_NaN (x : number) :
  in_unit (Math_max (Fin 0) (Math_min (Fin 1) x))
  \/ (x = NaN /\ Math_max (Fin 0) (Math_min (Fin 1) x) = NaN).
Proof.
  destruct x as [| | x |].
  - right. split; reflexivity.
  - left. apply clamp_in_unit. discriminate.
  - left. apply clamp_in_unit. discriminate.
  - left. apply clamp_in_unit. discriminate.
Qed.


(** A record of the AI extractor is made from a parsed function call, and
    its confidence is the clamped conversion of what the call reported. *)
Lemma extractWithGPT_parsed (rt : Coercion.Runtime) (reply : ParseCard.Reply)
      (gpt : ParseCard.ParsedCardData) :
  ParseCard.extractWithGPT rt reply = Ok gpt ->
  exists a c,
    reply = ParseCard.Parsed a
    /\ ParseCard.reported rt (ParseCard.a_confidence a) = Ok c
    /\ ParseCard.confidence gpt = Math_max (Fin 0) (Math_min (Fin 1) c).
Proof.
  destruct reply as [m| |m|a]; cbn [ParseCard.extractWithGPT]; try discriminate.
  destruct (ParseCard.reported rt (ParseCard.a_confidence a)) as [c|m] eqn:R;
    [|discriminate].
  intros [= <-]. exists a, c. auto.
Qed.

Lemma extractWithGPT_unit_or_NaN (rt : Coercion.Runtime) (reply : ParseCard.Reply)
      (gpt : ParseCard.ParsedCardData) :
  ParseCard.extractWithGPT rt reply = Ok gpt ->
  in_unit (ParseCard.confidence gpt) \/ ParseCard.confidence gpt = NaN.
Proof.
  intros H. apply extractWithGPT_parsed in H as (a & c & _ & _ & ->).
  destruct (clamp_unit_or_NaN c) as [U | [_ N]]; auto.
Qed.

(** A reported number, or none, is never converted to NaN. *)
Lemma reported_number (rt : Coercion.Runtime) (v : option Coercion.value) :
  Spec.numberOrMissing v ->
  exists c, ParseCard.reported rt v = Ok c /\ c <> NaN.
Proof.
  destruct v as [[| b | n | s | l | k]|]; cbn [Spec.numberOrMissing]; try tauto; intros _.
  - cbn [ParseCard.reported Coercion.value_truthy].
    destruct (num_truthy n) eqn:T.
    + exists n. split; [reflexivity|]. intros ->. discriminate T.
    + eexists. split; [reflexivity | discriminate].
  - eexists. split; [reflexivity | discriminate].
Qed.

Lemma extractWithGPT_in_unit (rt : Coercion.Runtime) (a : ParseCard.FunctionArgs)
      (gpt : ParseCard.ParsedCardData) :
  Spec.numberOrMissing (ParseCard.a_confidence a) ->
  ParseCard.extractWithGPT rt (ParseCard.Parsed a) = Ok gpt ->
  in_unit (ParseCard.confidence gpt).
Proof.
  intros Hn H. apply extractWithGPT_parsed in H as (a' & c & [= <-] & R & ->).
  destruct (@reported_number rt _ Hn) as (c' & R' & Hc). rewrite R in R'.
  injection R' as <-. now apply clamp_in_unit.
Qed.

(** C1.  Whenever parseCard obtains an AI candidate (the text is not blank
    and extractWithGPT returns) whose confidence is at least 0.7, it returns
    that candidate itself: no field is replaced and the confidence is not
    adjusted.  This holds for every setting of the options, the default one
    with the pattern fallback enabled included. *)
Theorem parseCard_trusts_confident_ai
  (rt : Coercion.Runtime) (reply : ParseCard.Reply) (rawText : jsstring)
  (options : ParseCard.ParseCardOptions) (gpt : ParseCard.ParsedCardData) :
  trim rawText <> [] ->
  ParseCard.extractWithGPT rt reply = Ok gpt ->
  num_leb Spec.threshold (ParseCard.confidence gpt) = true ->
  ParseCard.parseCard rt reply rawText options = Ok gpt.
Proof.
  intros Htext Hgpt Hconf. unfold ParseCard.parseCard.
  apply truthy_nonempty in Htext. rewrite Htext. simpl negb. cbv iota.
  rewrite Hgpt.
  change (ParseCard.q 7 10) with Spec.threshold.
  now rewrite (num_leb_not_ltb _ _ Hconf).
Qed.

(** C2.  Whenever parseCard obtains an AI candidate whose confidence is
    below 0.7 and the pattern fallback is enabled (the default), the record
    it returns takes each field from the AI candidate when that value is
    non-empty, else from the pattern candidate, else is empty; its
    confidence is max(AI confidence, 0.6), which is at least 0.6. *)
Theorem parseCard_merges_unsure_ai
  (rt : Coercion.Runtime) (reply : ParseCard.Reply) (rawText : jsstring)
  (options : ParseCard.ParseCardOptions) (gpt : ParseCard.ParsedCardData) :
  trim rawText <> [] ->
  ParseCard.fallbackToRegex options <> Some false ->
  ParseCard.extractWithGPT rt reply = Ok gpt ->
  num_ltb (ParseCard.confidence gpt) Spec.threshold = true ->
  let lang := match ParseCard.language options with
              | Some l => l
              | None => ParseCard.auto
              end in
  let rx := ParseCard.extractWithRegex rawText (ParseCard.detectLanguage rawText lang) in
  exists merged,
    ParseCard.parseCard rt reply rawText options = Ok merged
    /\ ParseCard.name merged = Spec.prefer (ParseCard.name gpt) (ParseCard.p_name rx)
    /\ ParseCard.company merged = Spec.prefer (ParseCard.company gpt) (ParseCard.p_company rx)
    /\ ParseCard.role merged = Spec.prefer (ParseCard.role gpt) (ParseCard.p_role rx)
    /\ ParseCard.email merged = Spec.prefer (ParseCard.email gpt) (ParseCard.p_email rx)
    /\ ParseCard.phone merged = Spec.prefer (ParseCard.phone gpt) (ParseCard.p_phone rx)
    /\ ParseCard.confidence merged = Math_max (ParseCard.confidence gpt) Spec.mergedFloor
    /\ num_leb Spec.mergedFloor (ParseCard.confidence merged) = true.
Proof.
  intros Htext Hfb Hgpt Hlow lang rx.
  exists (ParseCard.merge gpt rx). split.
  - unfold ParseCard.parseCard.
    apply truthy_nonempty in Htext. rewrite Htext. simpl negb. cbv iota.
    rewrite Hgpt.
    change (ParseCard.q 7 10) with Spec.threshold. rewrite Hlow.
    destruct (ParseCard.fallbackToRegex options) as [[|]|]; try reflexivity.
    congruence.
  - unfold ParseCard.merge; cbn [ParseCard.name ParseCard.company ParseCard.role
                                  ParseCard.email ParseCard.phone ParseCard.confidence].
    rewrite !or3_prefer. repeat (split; [reflexivity|]).
    apply (max_floor_in_unit (f := 6 # 10)).
    + destruct (extractWithGPT_unit_or_NaN _ _ Hgpt) as [U | N]; [exact U|].
      rewrite N in Hlow. discriminate Hlow.
    + discriminate.
    + discriminate.
Qed.

(** C3.  Whenever the AI extractor throws and the pattern fallback is not
    switched off, parseCard returns, without error, the pattern extractor's
    fields alone with the confidence 0.4, which is not zero; on the server,
    parseCardDataWithGPT answers every failure of its AI path (the call
    rejected, no function call, unparsable JSON, or a reply its schema
    rejects) with the output of its own pattern extractor, whose confidence
    is 0.4 too. *)
Theorem ai_failure_yields_pattern_result :
  (forall rt reply rawText options error,
     trim rawText <> [] ->
     ParseCard.fallbackToRegex options <> Some false ->
     ParseCard.extractWithGPT rt reply = Throw error ->
     let lang := match ParseCard.language options with
                 | Some l => l
                 | None => ParseCard.auto
                 end in
     let rx := ParseCard.extractWithRegex rawText
                 (ParseCard.detectLanguage rawText lang) in
     exists r,
       ParseCard.parseCard rt reply rawText options = Ok r
       /\ ParseCard.name r = or_else (ParseCard.p_name rx) []
       /\ ParseCard.company r = or_else (ParseCard.p_company rx) []
       /\ ParseCard.role r = or_else (ParseCard.p_role rx) []
       /\ ParseCard.email r = or_else (ParseCard.p_email rx) []
       /\ ParseCard.phone r = or_else (ParseCard.p_phone rx) []
       /\ ParseCard.confidence r = Spec.patternConfidence
       /\ ParseCard.confidence r <> Fin 0)
  /\ (forall isEmail isUrl reply rawText,
        match reply with
        | ProcessOCR.Parsed x => ProcessOCR.validate isEmail isUrl x = None
        | _ => True
        end ->
        ProcessOCR.parseCardDataWithGPT isEmail isUrl reply rawText
        = ProcessOCR.extractWithRegex rawText
        /\ ProcessOCR.confidence
             (ProcessOCR.parseCardDataWithGPT isEmail isUrl reply rawText)
           = Spec.patternConfidence).
Proof.
  split.
  - intros rt reply rawText options error Htext Hfb Hgpt lang rx.
    exists (ParseCard.regexOnly rx). split.
    + unfold ParseCard.parseCard.
      apply truthy_nonempty in Htext. rewrite Htext. simpl negb. cbv iota.
      rewrite Hgpt.
      destruct (ParseCard.fallbackToRegex options) as [[|]|]; try reflexivity.
      congruence.
    + unfold ParseCard.regexOnly; cbn [ParseCard.name ParseCard.company ParseCard.role
                                        ParseCard.email ParseCard.phone ParseCard.confidence].
      repeat (split; [reflexivity|]). discriminate.
  - intros isEmail isUrl reply rawText Hfail.
    assert (E : ProcessOCR.parseCardDataWithGPT isEmail isUrl reply rawText
                = ProcessOCR.extractWithRegex rawText).
    { destruct reply; cbn [ProcessOCR.parseCardDataWithGPT]; try reflexivity.
      now rewrite Hfail. }
    rewrite E. split; reflexivity.
Qed.

(** ** The recipient-based composer *)

Lemma bothOverrides_supplied (s b : jsstring) :
  s <> [] -> b <> [] ->
  GenerateMail.bothOverrides
    (Some {| GenerateMail.o_subject := Some s; GenerateMail.o_body := Some b |})
  = Some (s, b).
Proof.
  intros Hs Hb. unfold GenerateMail.bothOverrides. simpl.
  apply truthy_nonempty in Hs, Hb. now rewrite Hs, Hb.
Qed.

Lemma bothOverrides_lacking (overrides : GenerateMail.TemplateOverrides) :
  GenerateMail.o_subject overrides = None \/ GenerateMail.o_subject overrides = Some []
  \/ GenerateMail.o_body overrides = None \/ GenerateMail.o_body overrides = Some [] ->
  GenerateMail.bothOverrides (Some overrides) = None.
Proof.
  unfold GenerateMail.bothOverrides.
  intros [H | [H | [H | H]]]; rewrite H.
  - reflexivity.
  - destruct (GenerateMail.o_body overrides); reflexivity.
  - destruct (GenerateMail.o_subject overrides); reflexivity.
  - destruct (GenerateMail.o_subject overrides) as [s|]; [|reflexivity].
    cbn [truthy]. now rewrite andb_false_r.
Qed.

(** C4, as the code has it.  For every recipient and every override pair
    whose subject and body are both supplied and non-empty, generateMail
    returns exactly that subject and body and does nothing else: no call to
    the AI and no fallback to the template.  An override supplied as the
    empty string is treated as absent (the guard tests truthiness): whenever
    the subject or the body is missing or empty, generateMail does exactly
    what it does without overrides, and that starts with the call to the
    AI. *)
Theorem generateMail_returns_overrides_verbatim :
  (forall parseReply recipient (s b : jsstring) reply,
     s <> [] -> b <> [] ->
     GenerateMail.generateMail parseReply recipient
       (Some {| GenerateMail.o_subject := Some s; GenerateMail.o_body := Some b |})
       reply
     = ({| GenerateMail.subject := s; GenerateMail.body := b |}, []))
  /\ (forall parseReply recipient overrides reply,
        GenerateMail.o_subject overrides = None
        \/ GenerateMail.o_subject overrides = Some []
        \/ GenerateMail.o_body overrides = None
        \/ GenerateMail.o_body overrides = Some [] ->
        GenerateMail.generateMail parseReply recipient (Some overrides) reply
        = GenerateMail.generateMail parseReply recipient None reply
        /\ exists later,
             snd (GenerateMail.generateMail parseReply recipient (Some overrides) reply)
             = GenerateMail.OpenAICall GenerateMail.SYSTEM_PROMPT
                 (GenerateMail.userPrompt recipient) :: later).
Proof.
  split.
  - intros parseReply recipient s b reply Hs Hb. unfold GenerateMail.generateMail.
    now rewrite (bothOverrides_supplied Hs Hb).
  - intros parseReply recipient overrides reply H.
    unfold GenerateMail.generateMail.
    rewrite (bothOverrides_lacking _ H). cbn [GenerateMail.bothOverrides].
    split; [reflexivity|].
    destruct (GenerateMail.generated parseReply reply); eexists; reflexivity.
Qed.




(** ** The streaming generators *)

(** C6.  When the stream fails, whether the call is rejected or the
    iteration throws after any number of chunks, the value the streaming
    generator resolves to is the output of the deterministic template
    generator for the same arguments; it does not depend on the chunks
    received before the failure.  This holds for generateMailStream in the
    browser helper and for generateEmailStream on the server. *)
Theorem stream_failure_resolves_to_template :
  (forall cardData options deltas,
     snd (WebGenerateMail.generateMailStream cardData options (OpenAI.Chunks deltas true))
     = WebGenerateMail.generateWithTemplate cardData options)
  /\ (forall cardData options,
        snd (WebGenerateMail.generateMailStream cardData options OpenAI.Rejected)
        = WebGenerateMail.generateWithTemplate cardData options)
  /\ (forall options deltas,
        snd (EmailGenerator.generateEmailStream options (OpenAI.Chunks deltas true))
        = EmailGenerator.generateTemplateEmail options)
  /\ (forall options,
        snd (EmailGenerator.generateEmailStream options OpenAI.Rejected)
        = EmailGenerator.generateTemplateEmail options).
Proof.
  repeat split.
  - intros cardData options deltas. unfold WebGenerateMail.generateMailStream.
    destruct (WebGenerateMail.accumulate _ _ _ _ deltas). reflexivity.
  - intros options deltas. unfold EmailGenerator.generateEmailStream.
    destruct (EmailGenerator.consume _ deltas _ _). reflexivity.
Qed.

(** ** The two pipelines *)

(** The progress log of one attempt of the worker's handler, by outcome:
    a failing attempt stops at the checkpoint before the step that threw. *)
Lemma handler_progress (sv : Worker.Services) (job : Worker.JobData) :
  let run := Worker.processCardHandler sv job [] in
  match fst run with
  | Ok _ => snd run = [10; 30; 60; 70; 80; 100]%Z
  | Throw _ => snd run = [10; 30]%Z \/ snd run = [10; 30; 60; 70]%Z
               \/ snd run = [10; 30; 60; 70; 80]%Z
  end.
Proof.
  unfold Worker.processCardHandler, Worker.bind, Worker.updateProgress,
    Worker.await, Worker.ret.
  cbn [app].
  destruct (Worker.performOCR sv _) as [text|e]; cbn [app fst snd]; auto.
  destruct (Worker.saveCardData sv _ text) as [card|e]; cbn [app fst snd]; auto.
  destruct (Worker.sendEmailViaAPI sv _) as [res|e]; cbn [app fst snd]; auto.
  destruct (Worker.updateCardWithEmailInfo sv _ res) as [ok|e]; cbn [app fst snd]; auto.
Qed.

Lemma processJob_progress (sv : ProcessingContext.Services)
      (job : ProcessingContext.ProcessingJob) :
  ProcessingContext.succeeded (ProcessingContext.processJob sv job) = true ->
  ProcessingContext.reported (ProcessingContext.processJob sv job)
  = [10; 40; 70; 100]%Z.
Proof.
  unfold ProcessingContext.processJob.
  destruct (ProcessingContext.performOCR sv _) as [o|e]; [|discriminate].
  destruct (ProcessingContext.autoSend sv); [|reflexivity].
  destruct (ProcessingContext.sendEmail sv job) as [mid|e]; [reflexivity|discriminate].
Qed.

Lemma sorted_worker_checkpoints : Sorted Z.lt [10; 30; 60; 70; 80; 100]%Z.
Proof.
  repeat (constructor; try reflexivity).
Qed.

Lemma sorted_browser_checkpoints : Sorted Z.lt [10; 40; 70; 100]%Z.
Proof.
  repeat (constructor; try reflexivity).
Qed.

(** C7, as the code has it.  Every attempt of the worker's processCardHandler
    that completes successfully reports exactly the progress values 10 (on
    start), 30 (image preprocessed), 60 (text recognized), 70 (fields
    extracted), 80 (card saved) and 100 (mail sent and card updated), in
    increasing order.  The four checkpoints 10, 40, 70, 100 are those of the
    browser-side processJob: on claim, after extraction, after composition
    and on completion, in increasing order too. *)
Theorem pipeline_progress_checkpoints :
  (forall sv job done log,
     Worker.processCardHandler sv job [] = (Ok done, log) ->
     log = [10; 30; 60; 70; 80; 100]%Z /\ Sorted Z.lt log)
  /\ (forall sv job,
        ProcessingContext.succeeded (ProcessingContext.processJob sv job) = true ->
        ProcessingContext.reported (ProcessingContext.processJob sv job)
        = [10; 40; 70; 100]%Z
        /\ Sorted Z.lt (ProcessingContext.reported (ProcessingContext.processJob sv job))).
Proof.
  split.
  - intros sv job done log Hrun.
    pose proof (handler_progress sv job) as H. cbv zeta in H.
    rewrite Hrun in H. cbn [fst snd] in H. subst log.
    split; auto using sorted_worker_checkpoints.
  - intros sv job Hok. rewrite (processJob_progress _ _ Hok).
    split; auto using sorted_browser_checkpoints.
Qed.

(** ** Confidence values *)



Lemma zConfidence_in_unit (v : json) (n : number) :
  ProcessOCR.zConfidence v = Some n -> in_unit n.
Proof.
  destruct v as [| | m | |]; try discriminate.
  destruct m as [| | x |]; try discriminate.
  unfold ProcessOCR.zConfidence, num_leb.
  destruct (Qle_bool 0 x) eqn:L0; try discriminate.
  destruct (Qle_bool x 1) eqn:L1; try discriminate.
  intros [= <-].
  exists x. repeat split; now apply Qle_bool_iff.
Qed.

Lemma server_confidence_in_unit (isEmail isUrl : jsstring -> bool)
      (reply : ProcessOCR.Reply) (rawText : jsstring) :
  in_unit (ProcessOCR.confidence
             (ProcessOCR.parseCardDataWithGPT isEmail isUrl reply rawText)).
Proof.
  assert (R : in_unit (ProcessOCR.confidence (ProcessOCR.extractWithRegex rawText))).
  { unfold ProcessOCR.extractWithRegex; cbn [ProcessOCR.confidence].
    exists (4 # 10)%Q. repeat split; discriminate. }
  destruct reply as [| | |x]; cbn [ProcessOCR.parseCardDataWithGPT]; auto.
  destruct (ProcessOCR.validate isEmail isUrl x) as [v|] eqn:V; auto.
  unfold ProcessOCR.validate in V.
  repeat match type of V with
         | match ?t with _ => _ end = _ =>
             let E := fresh "E" in destruct t eqn:E; try discriminate
         end.
  injection V as <-. cbn [ProcessOCR.confidence].
  eapply zConfidence_in_unit; eauto.
Qed.





(** ** The template generators *)

Lemma app_nonempty_l (x y : jsstring) : x <> [] -> x ++ y <> [].
Proof.
  destruct x; simpl; congruence.
Qed.

Lemma app_nonempty_r (x y : jsstring) : y <> [] -> x ++ y <> [].
Proof.
  destruct x, y; simpl; congruence.
Qed.

Lemma startsWith_length (s p : jsstring) :
  startsWith s p = true -> length p <= length s.
Proof.
  revert s. induction p as [|x p IH]; intros [|y s]; simpl; try lia; try discriminate.
  intros H. apply andb_true_iff in H as [_ H]. apply IH in H. lia.
Qed.

Lemma indexOf_from_bound (s p : jsstring) (k i : nat) :
  indexOf_from k s p = Some i -> k <= i /\ (i - k) + length p <= length s.
Proof.
  revert k. induction s as [|c s IH]; intros k.
  - destruct p; simpl; [|discriminate]. intros [= <-]. lia.
  - cbn [indexOf_from]. destruct (startsWith (c :: s) p) eqn:E.
    + intros [= <-]. apply startsWith_length in E. simpl in *. lia.
    + intros H. apply IH in H. simpl. lia.
Qed.

(** Replacing a pattern shorter than the string leaves something. *)
Lemma replace_nonempty (s p r : jsstring) :
  length p < length s -> replace s p r <> [].
Proof.
  intros Hlen. unfold replace. destruct (indexOf s p) as [i|] eqn:E.
  - apply indexOf_from_bound in E as [_ E].
    intros H. apply (f_equal (@length N)) in H.
    rewrite !length_app, length_firstn, length_skipn in H. simpl in H. lia.
  - intros ->. simpl in Hlen. lia.
Qed.

Lemma template_subject_longer (t : WebGenerateMail.Tone) (l : WebGenerateMail.Lang) :
  length WebGenerateMail.placeholder
  < length (WebGenerateMail.t_subject (WebGenerateMail.EMAIL_TEMPLATES t l)).
Proof.
  apply Nat.ltb_lt. destruct t, l; vm_compute; reflexivity.
Qed.

Lemma template_closing_nonempty (t : WebGenerateMail.Tone) (l : WebGenerateMail.Lang) :
  WebGenerateMail.t_closing (WebGenerateMail.EMAIL_TEMPLATES t l) <> [].
Proof.
  apply truthy_nonempty. destruct t, l; vm_compute; reflexivity.
Qed.

(** The browser-side template generator returns a subject and a body that
    are not empty, whatever the card and the options. *)
Lemma generateWithTemplate_nonempty
      (cardData : ParseCard.ParsedCardData)
      (options : WebGenerateMail.GenerateMailOptions) :
  WebGenerateMail.subject (WebGenerateMail.generateWithTemplate cardData options) <> []
  /\ WebGenerateMail.body (WebGenerateMail.generateWithTemplate cardData options) <> [].
Proof.
  unfold WebGenerateMail.generateWithTemplate.
  cbn [WebGenerateMail.subject WebGenerateMail.body]. split.
  - apply replace_nonempty, template_subject_longer.
  - set (closing := WebGenerateMail.t_closing _).
    assert (C : closing <> []) by apply template_closing_nonempty.
    destruct (truthy_opt (WebGenerateMail.senderName options)).
    + apply app_nonempty_l, app_nonempty_r, app_nonempty_r, app_nonempty_r, C.
    + apply app_nonempty_r, app_nonempty_r, app_nonempty_r, C.
Qed.

Lemma lit_nonempty (s : string) : truthy (lit s) = true -> lit s <> [].
Proof.
  apply truthy_nonempty.
Qed.

(** With a tone supplied, the server-side template generator returns a
    subject and a body that are not empty. *)
Lemma generateTemplateEmail_with_tone
      (options : EmailGenerator.GenerateEmailOptions) (t : EmailGenerator.Tone) :
  EmailGenerator.tone options = Some t ->
  exists s b,
    EmailGenerator.subject (EmailGenerator.generateTemplateEmail options) = Some s
    /\ EmailGenerator.body (EmailGenerator.generateTemplateEmail options) = Some b
    /\ s <> [] /\ b <> [].
Proof.
  intros Ht. unfold EmailGenerator.generateTemplateEmail. rewrite Ht.
  cbn [EmailGenerator.subject EmailGenerator.body].
  do 2 eexists. split; [reflexivity|]. split; [reflexivity|].
  destruct (EmailGenerator.language options) as [[|]|], t;
    unfold EmailGenerator.templates_ja, EmailGenerator.templates_en, text_lines;
    cbn [EmailGenerator.t_subject EmailGenerator.t_body join];
    (split;
     [ first [ apply app_nonempty_r, lit_nonempty; vm_compute; reflexivity
             | apply app_nonempty_l, lit_nonempty; vm_compute; reflexivity ]
     | first [ apply app_nonempty_l, app_nonempty_r, lit_nonempty; vm_compute; reflexivity
             | apply app_nonempty_l, app_nonempty_l, lit_nonempty; vm_compute; reflexivity ] ]).
Qed.

(** C9.  The server-side template generator gives its language a default
    but not its tone.  With the tone left out, which the option type allows
    and generateEmail forwards as it is, the object it returns has neither a
    subject nor a body: here generateEmail, whose AI call was rejected, falls
    back to the template and returns such an object. *)
Theorem generateTemplateEmail_without_tone :
  EmailGenerator.generateEmail
    {| EmailGenerator.cardData :=
         {| EmailGenerator.name := Some (lit "Taro Yamada");
            EmailGenerator.company := Some (lit "Example Corp");
            EmailGenerator.role := None;
            EmailGenerator.email := Some (lit "taro@example.com");
            EmailGenerator.phone := None;
            EmailGenerator.address := None;
            EmailGenerator.website := None |};
       EmailGenerator.senderName := lit "Hanako Sato";
       EmailGenerator.senderCompany := None;
       EmailGenerator.tone := None;
       EmailGenerator.language := None;
       EmailGenerator.customMessage := None |}
    EmailGenerator.ApiError
  = {| EmailGenerator.subject := None;
       EmailGenerator.body := None;
       EmailGenerator.e_tone := None;
       EmailGenerator.e_language := EmailGenerator.ja |}.
Proof.
  reflexivity.
Qed.

(** ** The matcher *)

Lemma greedy_advances (c : cls) (s : jsstring) :
  forall min max i k e,
    advancing k -> greedy c min max i s k = Some e -> i <= e.
Proof.
  induction s as [|x s IH]; intros min max i k e Hk; cbn [greedy].
  - destruct min; [apply Hk | discriminate].
  - assert (Hstop : match min with O => k i (x :: s) | S _ => None end = Some e -> i <= e).
    { destruct min; [apply Hk | discriminate]. }
    destruct (cls_mem c x && _); auto.
    destruct (greedy c (pred min) (option_map pred max) (S i) s k) as [e'|] eqn:G; auto.
    intros [= <-]. apply IH in G; auto. lia.
Qed.

Lemma rmatch_advances (r : regex) :
  forall i s k e, advancing k -> rmatch r i s k = Some e -> i <= e.
Proof.
  induction r as [| | |c min max|r1 IH1 r2 IH2|r1 IH1 r2 IH2];
    intros i s k e Hk; cbn [rmatch].
  - apply Hk.
  - destruct i; [apply Hk | discriminate].
  - destruct s; [apply Hk | discriminate].
  - now apply greedy_advances.
  - apply IH1. intros j s' e'. now apply IH2.
  - destruct (rmatch r1 i s k) as [e'|] eqn:M.
    + intros [= <-]. eapply IH1; eauto.
    + now apply IH2.
Qed.

(** A pattern that starts with [c+] consumes at least one character. *)
Lemma plus_consumes (c : cls) (i : nat) (s : jsstring)
      (k : nat -> jsstring -> option nat) (e : nat) :
  advancing k -> greedy c 1 None i s k = Some e -> S i <= e /\ s <> [].
Proof.
  intros Hk. destruct s as [|x s]; cbn [greedy]; [discriminate|].
  destruct (cls_mem c x && true); [|discriminate].
  destruct (greedy c (pred 1) (option_map pred None) (S i) s k) as [e'|] eqn:G;
    [|discriminate].
  intros [= <-]. apply greedy_advances in G; auto. split; [lia | discriminate].
Qed.

Lemma search_finds (r : regex) (s : jsstring) :
  forall i a e,
    search r i s = Some (a, e) ->
    i <= a /\ rmatch r a (skipn (a - i) s) (fun e' _ => Some e') = Some e.
Proof.
  induction s as [|x s IH]; intros i a e; cbn [search].
  - destruct (rmatch r i [] _) as [e'|] eqn:M; [|discriminate].
    intros [= <- <-]. rewrite Nat.sub_diag. auto.
  - destruct (rmatch r i (x :: s) _) as [e'|] eqn:M.
    + intros [= <- <-]. rewrite Nat.sub_diag. auto.
    + intros H. apply IH in H as [Hle H]. split; [lia|].
      replace (a - i) with (S (a - S i)) by lia. exact H.
Qed.

(** What the worker's e-mail pattern matches is never empty. *)
Lemma emailPattern_match_nonempty (text m : jsstring) :
  str_match Worker.emailPattern text = Some m -> m <> [].
Proof.
  unfold str_match, exec. cbn [length Nat.ltb Nat.leb skipn].
  destruct (search Worker.emailPattern 0 text) as [[a e]|] eqn:Hs; [|discriminate].
  intros [= <-]. apply search_finds in Hs as [_ M].
  rewrite Nat.sub_0_r in M.
  unfold Worker.emailPattern in M. cbn [seq_of rmatch] in M.
  apply plus_consumes in M as [Hlt Hne].
  - unfold substring. destruct (skipn a text) as [|y t]; [congruence|].
    replace (e - a) with (S (e - S a)) by lia. discriminate.
  - repeat (intros ? ? ?; apply rmatch_advances).
    intros jk sk ek H. injection H as H. lia.
Qed.

(** ** The worker-side extractor *)

Lemma firstCompany_none (ps : list regex) (text : jsstring) :
  existsb (fun p => Worker.matches p text) ps = false ->
  Worker.firstCompany ps text = [].
Proof.
  induction ps as [|p ps IH]; simpl; auto.
  unfold Worker.matches at 1. destruct (str_match p text); simpl; [discriminate|auto].
Qed.

(** C10.  For every input text the record returned by
    extractBusinessCardInfo has a non-empty name, e-mail address and company.
    A field that is not found is replaced by its placeholder: the address
    no-email@example.com when the e-mail pattern matches nowhere in the text
    (and the first match otherwise), 'Unknown Company' when no company
    pattern matches, 'Unknown' when no line qualifies as a name.  So a card without an e-mail address still yields a
    record, addressed to the placeholder address. *)
Theorem extractBusinessCardInfo_fills_placeholders (text : jsstring) :
  let r := Worker.extractBusinessCardInfo text in
  Worker.name r <> [] /\ Worker.email r <> [] /\ Worker.company r <> []
  /\ (str_match Worker.emailPattern text = None ->
      Worker.email r = lit "no-email@example.com")
  /\ (forall m, str_match Worker.emailPattern text = Some m -> Worker.email r = m)
  /\ (existsb (fun p => Worker.matches p text) Worker.companyPatterns = false ->
      Worker.company r = lit "Unknown Company")
  /\ (find Worker.isNameLine (filter Worker.nonBlank (split_lines text)) = None ->
      Worker.name r = lit "Unknown").
Proof.
  unfold Worker.extractBusinessCardInfo.
  cbn [Worker.name Worker.email Worker.company].
  split; [|split; [|split; [|split; [|split; [|split]]]]].
  - apply or_else_nonempty, lit_nonempty. vm_compute; reflexivity.
  - apply or_else_nonempty, lit_nonempty. vm_compute; reflexivity.
  - apply or_else_nonempty, lit_nonempty. vm_compute; reflexivity.
  - intros ->. reflexivity.
  - intros m Hm. rewrite Hm.
    pose proof (emailPattern_match_nonempty _ Hm) as Hne.
    cbn [or_else]. apply truthy_nonempty in Hne. now rewrite !Hne.
  - intros H. rewrite (firstCompany_none _ _ H). reflexivity.
  - intros ->. reflexivity.
Qed.

(** ** The theorems at sample inputs *)

Lemma parseCard_trusts_confident_ai_witness :
  ParseCard.parseCard Examples.runtime Examples.confidentReply Examples.sampleCard
    ParseCard.defaults
  = Ok Examples.confidentCandidate.
Proof.
  apply parseCard_trusts_confident_ai.
  - intros E. vm_compute in E. discriminate E.
  - reflexivity.
  - reflexivity.
Defined.

Lemma parseCard_merges_unsure_ai_witness :
  exists merged,
    ParseCard.parseCard Examples.runtime Examples.unsureReply Examples.sampleCard
      ParseCard.defaults
    = Ok merged
    /\ ParseCard.confidence merged
       = Math_max (ParseCard.confidence Examples.unsureCandidate) Spec.mergedFloor.
Proof.
  pose proof (@parseCard_merges_unsure_ai Examples.runtime Examples.unsureReply
                Examples.sampleCard
                ParseCard.defaults Examples.unsureCandidate) as H.
  cbv zeta in H.
  destruct H as (merged & Hrun & _ & _ & _ & _ & _ & Hconf & _).
  - intros E. vm_compute in E. discriminate E.
  - discriminate.
  - reflexivity.
  - reflexivity.
  - exists merged. split; [exact Hrun | exact Hconf].
Defined.

Lemma ai_failure_yields_pattern_result_witness :
  (exists r,
     ParseCard.parseCard Examples.runtime (ParseCard.ApiError "GPT API Error")
       Examples.sampleCard ParseCard.defaults = Ok r
     /\ ParseCard.confidence r = Spec.patternConfidence)
  /\ ProcessOCR.confidence
       (ProcessOCR.parseCardDataWithGPT (fun _ => true) (fun _ => true)
          ProcessOCR.ApiError Examples.sampleCard)
     = Spec.patternConfidence.
Proof.
  destruct ai_failure_yields_pattern_result as [Hweb Hserver]. split.
  - pose proof (Hweb Examples.runtime (ParseCard.ApiError "GPT API Error")
                  Examples.sampleCard ParseCard.defaults "GPT API Error"%string) as H.
    cbv zeta in H.
    destruct H as (r & Hrun & _ & _ & _ & _ & _ & Hconf & _).
    + intros E. vm_compute in E. discriminate E.
    + discriminate.
    + reflexivity.
    + exists r. split; [exact Hrun | exact Hconf].
  - apply Hserver. exact I.
Defined.

Lemma generateMail_returns_overrides_verbatim_witness :
  GenerateMail.generateMail Examples.noParse Examples.recipient
    (Some {| GenerateMail.o_subject := Some (lit "Hi");
             GenerateMail.o_body := Some (lit "Hello") |})
    GenerateMail.ApiError
  = ({| GenerateMail.subject := lit "Hi"; GenerateMail.body := lit "Hello" |}, [])
  /\ GenerateMail.generateMail Examples.noParse Examples.recipient
       (Some Examples.emptySubjectOverrides) GenerateMail.ApiError
     = GenerateMail.generateMail Examples.noParse Examples.recipient None
         GenerateMail.ApiError.
Proof.
  destruct generateMail_returns_overrides_verbatim as [Hboth Hlacking]. split.
  - apply Hboth.
    + intros E. vm_compute in E. discriminate E.
    + intros E. vm_compute in E. discriminate E.
  - apply Hlacking. right. left. reflexivity.
Defined.


Lemma pipeline_progress_checkpoints_witness :
  snd (Worker.processCardHandler Examples.services Examples.job [])
  = [10; 30; 60; 70; 80; 100]%Z
  /\ ProcessingContext.reported
       (ProcessingContext.processJob Examples.browserServices Examples.browserJob)
     = [10; 40; 70; 100]%Z.
Proof.
  destruct pipeline_progress_checkpoints as [Hworker Hbrowser].
  assert (Hrun : Worker.processCardHandler Examples.services Examples.job []
                 = (Ok Examples.processed, [10; 30; 60; 70; 80; 100]%Z))
    by (vm_compute; reflexivity).
  split.
  - destruct (Hworker _ _ _ _ Hrun) as [_ _]. rewrite Hrun. reflexivity.
  - apply Hbrowser. reflexivity.
Defined.

Lemma extractBusinessCardInfo_fills_placeholders_witness :
  Worker.email (Worker.extractBusinessCardInfo (lit "03-1234-5678"))
  = lit "no-email@example.com".
Proof.
  pose proof (extractBusinessCardInfo_fills_placeholders (lit "03-1234-5678")) as H.
  cbv zeta in H. destruct H as (_ & _ & _ & H & _).
  apply H. vm_compute. reflexivity.
Defined.


(** ** Where the specification and the code part *)

(** A subject supplied as the empty string is not returned, although the
    pair is supplied: the AI is called, and when it fails the error is
    logged and the template is returned. *)
Lemma generateMail_empty_override_is_regenerated :
  GenerateMail.o_subject Examples.emptySubjectOverrides = Some []
  /\ GenerateMail.o_body Examples.emptySubjectOverrides = Some (lit "Hello")
  /\ GenerateMail.generateMail Examples.noParse Examples.recipient
       (Some Examples.emptySubjectOverrides) GenerateMail.ApiError
     = (GenerateMail.fallbackTemplate Examples.recipient,
        [ GenerateMail.OpenAICall GenerateMail.SYSTEM_PROMPT
            (GenerateMail.userPrompt Examples.recipient);
          GenerateMail.ConsoleError ])
  /\ GenerateMail.generateMail Examples.noParse Examples.recipient
       (Some Examples.emptySubjectOverrides) GenerateMail.ApiError
     <> ({| GenerateMail.subject := []; GenerateMail.body := lit "Hello" |}, []).
Proof.
  split; [reflexivity|]. split; [reflexivity|]. split; [reflexivity|].
  intros E. apply (f_equal snd) in E. vm_compute in E. discriminate E.
Qed.


(** A successful attempt of the worker's handler reports six values, not
    the four checkpoints. *)
Lemma handler_reports_six_checkpoints :
  fst (Worker.processCardHandler Examples.services Examples.job [])
  = Ok Examples.processed
  /\ snd (Worker.processCardHandler Examples.services Examples.job [])
     <> [10; 40; 70; 100]%Z.
Proof.
  split.
  - vm_compute. reflexivity.
  - intros E. vm_compute in E. discriminate E.
Qed.


(* ================================================================== *)
(** * Further properties of the code *)
(* ================================================================== *)

(** ** More on the structured parser *)

(** X1.  How parseCard ends.  Blank text is refused before anything is called.
    On other text, with the pattern fallback switched off parseCard is the
    AI extractor alone, its errors included; with the fallback on it never
    fails. *)
Theorem parseCard_outcomes (rt : Coercion.Runtime) :
  (forall reply rawText options,
     trim rawText = [] ->
     ParseCard.parseCard rt reply rawText options = Throw "Empty text provided")
  /\ (forall reply rawText options,
        trim rawText <> [] ->
        ParseCard.fallbackToRegex options = Some false ->
        ParseCard.parseCard rt reply rawText options = ParseCard.extractWithGPT rt reply)
  /\ (forall reply rawText options,
        trim rawText <> [] ->
        ParseCard.fallbackToRegex options <> Some false ->
        exists r, ParseCard.parseCard rt reply rawText options = Ok r).
Proof.
  split; [|split].
  - intros reply rawText options H. unfold ParseCard.parseCard. now rewrite H.
  - intros reply rawText options H Hoff. unfold ParseCard.parseCard.
    apply truthy_nonempty in H. rewrite H, Hoff. cbn [negb].
    destruct (ParseCard.extractWithGPT rt reply) as [gpt|e]; [|reflexivity].
    now rewrite andb_false_r.
  - intros reply rawText options H Hon. unfold ParseCard.parseCard.
    apply truthy_nonempty in H. rewrite H. cbn [negb].
    destruct (ParseCard.extractWithGPT rt reply) as [gpt|e].
    + destruct (_ && _); eauto.
    + destruct (ParseCard.fallbackToRegex options) as [[|]|]; cbn [negb]; eauto.
      congruence.
Qed.

Lemma max_floor_below (c : number) (f t : Q) :
  (f < t)%Q -> num_ltb c (Fin t) = true -> c <> NaN ->
  num_ltb (Math_max c (Fin f)) (Fin t) = true.
Proof.
  intros Hft Hc Hn. destruct c as [| | x |]; simpl in *; try congruence.
  - apply negb_true_iff. destruct (Qle_bool t f) eqn:E; auto.
    apply Qle_bool_iff in E. exfalso. eapply Qlt_not_le; eauto.
  - destruct (Qle_bool x f); simpl; auto.
    apply negb_true_iff. destruct (Qle_bool t f) eqn:E; auto.
    apply Qle_bool_iff in E. exfalso. eapply Qlt_not_le; eauto.
Qed.

(** X2.  The confidence parseCard returns with the pattern fallback on.  It
    is 0.4 when the AI extractor threw.  A merged record has a confidence of
    at least 0.6 that stays below 0.7: merging never lifts a record to the
    trust threshold.  A trusted record is the AI's own, confidence included:
    that confidence is at least 0.7, or it is NaN, which is not below 0.7
    either; it is at least 0.7 whenever the AI reported a number or
    nothing. *)
Theorem parseCard_confidence_bands (rt : Coercion.Runtime)
  (reply : ParseCard.Reply) (rawText : jsstring)
  (options : ParseCard.ParseCardOptions) (r : ParseCard.ParsedCardData) :
  ParseCard.fallbackToRegex options <> Some false ->
  ParseCard.parseCard rt reply rawText options = Ok r ->
  match ParseCard.extractWithGPT rt reply with
  | Throw _ => ParseCard.confidence r = Spec.patternConfidence
  | Ok gpt =>
      if num_ltb (ParseCard.confidence gpt) Spec.threshold
      then num_leb Spec.mergedFloor (ParseCard.confidence r) = true
           /\ num_ltb (ParseCard.confidence r) Spec.threshold = true
      else r = gpt
           /\ (num_leb Spec.threshold (ParseCard.confidence r) = true
               \/ ParseCard.confidence r = NaN)
           /\ (match reply with
               | ParseCard.Parsed a => Spec.numberOrMissing (ParseCard.a_confidence a)
               | _ => True
               end -> num_leb Spec.threshold (ParseCard.confidence r) = true)
  end.
Proof.
  intros Hon. unfold ParseCard.parseCard.
  destruct (negb (truthy (trim rawText))); [discriminate|].
  destruct (ParseCard.extractWithGPT rt reply) as [gpt|e] eqn:G.
  - change (ParseCard.q 7 10) with Spec.threshold.
    destruct (num_ltb (ParseCard.confidence gpt) Spec.threshold) eqn:L.
    + assert (U : in_unit (ParseCard.confidence gpt)).
      { destruct (extractWithGPT_unit_or_NaN _ _ G) as [U | N]; [exact U|].
        rewrite N in L. discriminate L. }
      destruct (ParseCard.fallbackToRegex options) as [[|]|]; try congruence;
        cbn [andb]; intros [= <-]; unfold ParseCard.merge;
        cbn [ParseCard.confidence];
        (split;
         [ apply (max_floor_in_unit (f := 6 # 10)); auto; discriminate
         | apply max_floor_below; auto;
           [reflexivity | destruct U as (x & -> & _); discriminate] ]).
    + cbn [andb]. intros [= <-]. split; [reflexivity|].
      assert (T : in_unit (ParseCard.confidence gpt) ->
                  num_leb Spec.threshold (ParseCard.confidence gpt) = true).
      { intros (x & Hx & _). rewrite Hx in *. simpl in *.
        apply negb_false_iff in L. exact L. }
      split.
      * destruct (extractWithGPT_unit_or_NaN _ _ G) as [U | N]; auto.
      * intros Hn. apply T.
        destruct (extractWithGPT_parsed _ _ G) as (a & c & -> & _ & _).
        eapply extractWithGPT_in_unit; eauto.
  - destruct (ParseCard.fallbackToRegex options) as [[|]|]; try congruence;
      cbn [negb]; intros [= <-]; reflexivity.
Qed.

Lemma nameLoop_line (ph co : regex) (lines : list jsstring) :
  forall pl cl n,
    ParseCard.nameLoop ph co lines pl cl = Some n ->
    exists line,
      In line lines /\ n = trim line /\ includes line (lit "@") = false
      /\ 1 < length line < 50.
Proof.
  induction lines as [|line rest IH]; intros pl cl n; cbn [ParseCard.nameLoop].
  - discriminate.
  - assert (Hrest : forall pl' cl', ParseCard.nameLoop ph co rest pl' cl' = Some n ->
              exists l, In l (line :: rest) /\ n = trim l
                        /\ includes l (lit "@") = false /\ 1 < length l < 50).
    { intros pl' cl' H. apply IH in H as (l & Hin & H). exists l. split; [now right | exact H]. }
    destruct (includes line (lit "@")) eqn:At; [apply Hrest|].
    destruct (test_g ph line pl) as [isPhone pl'].
    destruct isPhone; [apply Hrest|].
    destruct (test_g co line cl) as [isCompany cl'].
    destruct isCompany; [apply Hrest|].
    destruct ((1 <? length line) && (length line <? 50)) eqn:Len; [|apply Hrest].
    intros [= <-]. exists line. apply andb_true_iff in Len as [L1 L2].
    apply Nat.ltb_lt in L1, L2. repeat split; auto. now left.
Qed.

(** X3.  The name found by the pattern extractor of parseCard.ts is one of the
    lines of the text, trimmed; that line is not blank, holds no at sign
    and has between 2 and 49 code units. *)
Theorem extractWithRegex_name_is_a_line
  (text : jsstring) (language : ParseCard.Language) (n : jsstring) :
  ParseCard.p_name (ParseCard.extractWithRegex text language) = Some n ->
  exists line,
    In line (split_lines text) /\ n = trim line /\ n <> []
    /\ includes line (lit "@") = false /\ 1 < length line < 50.
Proof.
  unfold ParseCard.extractWithRegex; cbn [ParseCard.p_name]. intros H.
  apply nameLoop_line in H as (line & Hin & Hn & Hat & Hlen).
  apply filter_In in Hin as [Hin Hnb]. exists line. repeat split; auto; try lia.
  subst n. now apply truthy_nonempty.
Qed.

(** A pattern of one character class matches somewhere exactly when some
    code unit of the string is in the class. *)
Lemma search_one (c : cls) (s : jsstring) :
  forall i,
    search (one c) i s = None <-> existsb (cls_mem c) s = false.
Proof.
  induction s as [|x s IH]; intros i.
  - simpl. tauto.
  - cbn [search rmatch one greedy existsb pred option_map].
    destruct (cls_mem c x) eqn:M; cbn [andb orb].
    + assert (G : greedy c 0 (Some 0) (S i) s (fun e _ => Some e) = Some (S i)).
      { destruct s; cbn [greedy]; [reflexivity|]. now rewrite andb_false_r. }
      rewrite G. split; discriminate.
    + apply IH.
Qed.

Lemma test_one (c : cls) (s : jsstring) :
  test (one c) s = existsb (cls_mem c) s.
Proof.
  unfold test, exec. cbn [length Nat.ltb Nat.leb skipn].
  destruct (search (one c) 0 s) as [p|] eqn:E.
  - destruct (existsb (cls_mem c) s) eqn:X; auto.
    apply search_one with (i := 0) in X. congruence.
  - symmetry. now apply search_one with (i := 0).
Qed.

Lemma cls_mem_any_of (l : jsstring) (x : N) :
  cls_mem (Cls false (map (fun y => (y, y)) l)) x = true <-> In x l.
Proof.
  unfold cls_mem. cbn [negated ranges xorb]. rewrite existsb_exists. split.
  - intros (r & Hin & Hr). apply in_map_iff in Hin as (y & <- & Hy).
    unfold in_range in Hr. cbn [fst snd] in Hr.
    apply andb_true_iff in Hr as [H1 H2].
    apply N.leb_le in H1, H2. assert (x = y) by lia. now subst.
  - intros Hin. exists (x, x). split; [apply in_map_iff; exists x; auto|].
    unfold in_range. cbn [fst snd]. now rewrite N.leb_refl.
Qed.

(** X4.  Language detection.  A language given by the caller is kept.  Left to
    itself, parseCard takes the text for Japanese exactly when it holds one
    of the ten characters listed in the pattern, and for English otherwise,
    whatever other script the text is written in. *)
Theorem detectLanguage_looks_for_ten_characters (rawText : jsstring) :
  ParseCard.detectLanguage rawText ParseCard.ja = ParseCard.ja
  /\ ParseCard.detectLanguage rawText ParseCard.en = ParseCard.en
  /\ (ParseCard.detectLanguage rawText ParseCard.auto = ParseCard.ja
      <-> exists x, In x rawText /\ In x (lit "ひらがなカタカナ漢字"))
  /\ (ParseCard.detectLanguage rawText ParseCard.auto = ParseCard.en
      <-> forall x, In x rawText -> ~ In x (lit "ひらがなカタカナ漢字")).
Proof.
  split; [reflexivity|]. split; [reflexivity|].
  unfold ParseCard.detectLanguage, ParseCard.japanese_chars, any_of.
  rewrite test_one.
  destruct (existsb _ rawText) eqn:E.
  - apply existsb_exists in E as (x & Hin & Hx). apply cls_mem_any_of in Hx.
    split; split; try discriminate; eauto.
    intros H. exfalso. eapply H; eauto.
  - split; split; try discriminate; auto.
    + intros (x & Hin & Hx). apply cls_mem_any_of in Hx.
      assert (existsb (cls_mem (Cls false (map (fun y => (y, y)) (lit "ひらがなカタカナ漢字"))))
                rawText = true) by (apply existsb_exists; eauto).
      congruence.
    + intros _ x Hin Hx. apply cls_mem_any_of in Hx.
      assert (existsb (cls_mem (Cls false (map (fun y => (y, y)) (lit "ひらがなカタカナ漢字"))))
                rawText = true) by (apply existsb_exists; eauto).
      congruence.
Qed.

Lemma extractWithGPT_of_reported (rt : Coercion.Runtime) (a : ParseCard.FunctionArgs)
      (c : number) :
  ParseCard.reported rt (ParseCard.a_confidence a) = Ok c ->
  exists gpt,
    ParseCard.extractWithGPT rt (ParseCard.Parsed a) = Ok gpt
    /\ ParseCard.confidence gpt = Math_max (Fin 0) (Math_min (Fin 1) c).
Proof.
  intros R. cbn [ParseCard.extractWithGPT]. rewrite R.
  eexists. split; reflexivity.
Qed.

(** The clamp of a reported finite number, zero being replaced by 0.5. *)
Lemma clamp_reported_number (x : Q) :
  let c := Math_max (Fin 0)
             (Math_min (Fin 1) (if num_truthy (Fin x) then Fin x else Fin (5 # 10))) in
  ((x == 0)%Q -> c = Fin (5 # 10))
  /\ ((x < 0)%Q -> c = Fin 0)
  /\ ((0 < x)%Q -> (x < 1)%Q -> c = Fin x)
  /\ ((1 <= x)%Q -> c = Fin 1).
Proof.
  cbv zeta. unfold num_truthy.
  assert (Z0 : Qeq_bool x 0 = true -> (x == 0)%Q) by apply Qeq_bool_iff.
  assert (L1 : Qle_bool 1 x = true -> (1 <= x)%Q) by apply Qle_bool_iff.
  assert (L0 : Qle_bool 0 x = true -> (0 <= x)%Q) by apply Qle_bool_iff.
  assert (F1 : Qle_bool 1 x = false -> (x < 1)%Q).
  { intros F. apply Qnot_le_lt. intros L. apply Qle_bool_iff in L. congruence. }
  assert (F0 : Qle_bool 0 x = false -> (x < 0)%Q).
  { intros F. apply Qnot_le_lt. intros L. apply Qle_bool_iff in L. congruence. }
  assert (N0 : Qeq_bool x 0 = false -> ~ (x == 0)%Q).
  { intros E H. apply Qeq_bool_iff in H. congruence. }
  repeat split; intros;
    destruct (Qeq_bool x 0) eqn:E; cbn [negb Math_min Math_max];
    try (specialize (Z0 eq_refl)); try (specialize (N0 eq_refl));
    try reflexivity; try (exfalso; lra);
    destruct (Qle_bool 1 x) eqn:E1;
    try (specialize (L1 eq_refl)); try (specialize (F1 eq_refl));
    try reflexivity; try (exfalso; lra);
    destruct (Qle_bool 0 x) eqn:E0;
    try (specialize (L0 eq_refl)); try (specialize (F0 eq_refl));
    try reflexivity; try (exfalso; lra).
Qed.

(** X5.  The confidence extractWithGPT returns, by what the AI reported;
    nothing checks that it is a number.  Nothing at all, null, false, 0 and
    the empty string become 0.5.  A number is clamped: a negative one
    becomes 0, one of 1 or more becomes 1, one strictly between 0 and 1 is
    kept; true becomes 1.  A string that is not blank and is not a numeric
    literal, 'high' say, gives NaN, and a blank one gives 0.  An empty array
    gives 0, and any other array what the conversion of its elements joined
    by commas gives.  A plain object gives NaN, unless it has a property
    named toString: then the conversion throws, and so does
    extractWithGPT. *)
Theorem extractWithGPT_confidence (rt : Coercion.Runtime) (a : ParseCard.FunctionArgs) :
  let returns c :=
    exists gpt,
      ParseCard.extractWithGPT rt (ParseCard.Parsed a) = Ok gpt
      /\ ParseCard.confidence gpt = c in
  match ParseCard.a_confidence a with
  | None | Some Coercion.VNull | Some (Coercion.VBool false)
  | Some (Coercion.VNum NaN) => returns (Fin (5 # 10))
  | Some (Coercion.VBool true) | Some (Coercion.VNum PosInf) => returns (Fin 1)
  | Some (Coercion.VNum NegInf) => returns (Fin 0)
  | Some (Coercion.VNum (Fin x)) =>
      ((x == 0)%Q -> returns (Fin (5 # 10)))
      /\ ((x < 0)%Q -> returns (Fin 0))
      /\ ((0 < x)%Q -> (x < 1)%Q -> returns (Fin x))
      /\ ((1 <= x)%Q -> returns (Fin 1))
  | Some (Coercion.VStr s) =>
      (s = [] -> returns (Fin (5 # 10)))
      /\ (s <> [] -> trim s = [] -> returns (Fin 0))
      /\ (trim s <> [] -> test Coercion.numericLiteral (trim s) = false ->
          returns NaN)
  | Some (Coercion.VArray []) => returns (Fin 0)
  | Some (Coercion.VArray (e :: l)) =>
      match Coercion.ToNumber rt (Coercion.VArray (e :: l)) with
      | Ok c => returns (Math_max (Fin 0) (Math_min (Fin 1) c))
      | Throw message =>
          ParseCard.extractWithGPT rt (ParseCard.Parsed a) = Throw message
      end
  | Some (Coercion.VObject keys) =>
      if existsb (str_eqb (lit "toString")) keys
      then ParseCard.extractWithGPT rt (ParseCard.Parsed a)
           = Throw "Cannot convert object to primitive value"
      else returns NaN
  end.
Proof.
  cbv zeta.
  assert (Hret : forall c v,
            ParseCard.reported rt (ParseCard.a_confidence a) = Ok c ->
            Math_max (Fin 0) (Math_min (Fin 1) c) = v ->
            exists gpt,
              ParseCard.extractWithGPT rt (ParseCard.Parsed a) = Ok gpt
              /\ ParseCard.confidence gpt = v).
  { intros c v R <-. now apply extractWithGPT_of_reported. }
  destruct (ParseCard.a_confidence a) as [[| [|] | [| | x |] | s | [|e l] | keys]|] eqn:A.
  - now apply (Hret (Fin (5 # 10))).
  - now apply (Hret (Fin 1)).
  - now apply (Hret (Fin (5 # 10))).
  - now apply (Hret (Fin (5 # 10))).
  - now apply (Hret NegInf).
  - pose proof (clamp_reported_number x) as C. cbv zeta in C.
    destruct C as (C0 & C1 & C2 & C3).
    assert (R : ParseCard.reported rt (Some (Coercion.VNum (Fin x)))
                = Ok (if num_truthy (Fin x) then Fin x else Fin (5 # 10))).
    { cbn [ParseCard.reported Coercion.value_truthy Coercion.ToNumber].
      destruct (num_truthy (Fin x)); reflexivity. }
    repeat split; intros; eapply Hret; eauto.
  - now apply (Hret PosInf).
  - split; [|split].
    + intros ->. now apply (Hret (Fin (5 # 10))).
    + intros Hs Ht. apply (Hret (Fin 0)); [|reflexivity].
      cbn [ParseCard.reported Coercion.value_truthy Coercion.ToNumber].
      apply truthy_nonempty in Hs. rewrite Hs.
      unfold Coercion.StringToNumber. now rewrite Ht.
    + intros Ht Hl. apply (Hret NaN); [|reflexivity].
      cbn [ParseCard.reported Coercion.value_truthy Coercion.ToNumber].
      assert (Hs : truthy s = true).
      { destruct s; [|reflexivity]. exfalso. apply Ht. reflexivity. }
      rewrite Hs. unfold Coercion.StringToNumber.
      apply truthy_nonempty in Ht. now rewrite Ht, Hl.
  - now apply (Hret (Fin 0)).
  - cbn [ParseCard.extractWithGPT]. rewrite A.
    cbn [ParseCard.reported Coercion.value_truthy].
    destruct (Coercion.ToNumber rt (Coercion.VArray (e :: l))) as [c|m].
    + eexists. split; reflexivity.
    + reflexivity.
  - cbn [ParseCard.extractWithGPT]. rewrite A.
    cbn [ParseCard.reported Coercion.value_truthy Coercion.ToNumber Coercion.ToString].
    destruct (existsb (str_eqb (lit "toString")) keys).
    + reflexivity.
    + eexists. split; reflexivity.
  - now apply (Hret (Fin (5 # 10))).
Qed.

(** ** From the image to the record on the server *)

(** X6.  processOCR without Google Vision.  Switched to Tesseract it always
    fails, since the Tesseract extractor is a placeholder that returns no
    text; with both extractors switched off it fails too.  And a failure of
    Google Vision is final: Tesseract is not tried after it, whatever
    [fallbackToTesseract] says. *)
Theorem processOCR_has_no_working_fallback
  (isEmail isUrl : jsstring -> bool) (options : ServerOCR.OCROptions)
  (vision : ServerOCR.VisionReply) (reply : ProcessOCR.Reply) :
  (ServerOCR.useGoogleVision options = Some false ->
   ServerOCR.processOCR isEmail isUrl options vision reply
   = Throw (if match ServerOCR.fallbackToTesseract options with
               | Some b => b
               | None => true
               end
            then "OCR processing failed: No text extracted from image"
            else "OCR processing failed: No OCR method specified"))
  /\ (ServerOCR.useGoogleVision options <> Some false ->
      forall t, vision = ServerOCR.VisionRejects t ->
      ServerOCR.processOCR isEmail isUrl options vision reply
      = Throw (String.append "OCR processing failed: Google Vision API failed: "
                 (ServerOCR.messageOf t))).
Proof.
  unfold ServerOCR.processOCR, ServerOCR.attempt. split.
  - intros ->. destruct (ServerOCR.fallbackToTesseract options) as [[|]|]; reflexivity.
  - intros Hg t ->.
    destruct (ServerOCR.useGoogleVision options) as [[|]|]; try congruence; reflexivity.
Qed.

(** X7.  Once Google Vision has returned text that is not blank, processOCR
    returns a record for every reply of the AI: a failure of the AI path is
    never a failure of processOCR.  The confidence of the record lies in
    [0,1]. *)
Theorem processOCR_survives_the_ai
  (isEmail isUrl : jsstring -> bool) (options : ServerOCR.OCROptions)
  (first : option jsstring) (others : list (option jsstring))
  (reply : ProcessOCR.Reply) :
  ServerOCR.useGoogleVision options <> Some false ->
  trim (or_else first []) <> [] ->
  exists r,
    ServerOCR.processOCR isEmail isUrl options
      (ServerOCR.Annotations (Some (first :: others))) reply = Ok r
    /\ r = ProcessOCR.parseCardDataWithGPT isEmail isUrl reply (or_else first [])
    /\ in_unit (ProcessOCR.confidence r).
Proof.
  intros Hg Ht. eexists. split; [|split; [reflexivity|]].
  - unfold ServerOCR.processOCR, ServerOCR.attempt.
    apply truthy_nonempty in Ht.
    destruct (ServerOCR.useGoogleVision options) as [[|]|]; try congruence;
      cbn [ServerOCR.extractTextWithGoogleVision]; rewrite Ht; reflexivity.
  - apply server_confidence_in_unit.
Qed.

Lemma validate_rejects_email (isEmail isUrl : jsstring -> bool)
      (x : ProcessOCR.Extracted) (e : jsstring) :
  ProcessOCR.x_email x = Some (JStr e) -> e <> [] -> isEmail e = false ->
  ProcessOCR.validate isEmail isUrl x = None.
Proof.
  intros He Hne Hbad. unfold ProcessOCR.validate. rewrite He.
  apply truthy_nonempty in Hne.
  cbn [json_or_undefined json_truthy]. rewrite Hne.
  cbn [ProcessOCR.zString]. rewrite Hbad.
  repeat match goal with
         | |- context [match ?t with Some _ => _ | None => _ end] =>
             destruct t
         end; reflexivity.
Qed.

Lemma validate_rejects_confidence (isEmail isUrl : jsstring -> bool)
      (x : ProcessOCR.Extracted) (v : json) :
  ProcessOCR.x_confidence x = Some v -> json_truthy v = true ->
  ProcessOCR.zConfidence v = None ->
  ProcessOCR.validate isEmail isUrl x = None.
Proof.
  intros Hc Ht Hbad. unfold ProcessOCR.validate. rewrite Hc.
  cbn [json_or]. rewrite Ht, Hbad.
  repeat match goal with
         | |- context [match ?t with Some _ => _ | None => _ end] =>
             destruct t
         end; reflexivity.
Qed.

(** X8.  One field that the schema rejects costs the whole AI reply.  When the
    AI's e-mail address does not pass the e-mail check, or its confidence is
    a number above 1, parseCardDataWithGPT drops every field the AI found
    and returns the pattern extractor's record. *)
Theorem parseCardDataWithGPT_drops_rejected_reply
  (isEmail isUrl : jsstring -> bool) (x : ProcessOCR.Extracted)
  (rawText : jsstring) :
  (forall e, ProcessOCR.x_email x = Some (JStr e) -> e <> [] -> isEmail e = false ->
     ProcessOCR.parseCardDataWithGPT isEmail isUrl (ProcessOCR.Parsed x) rawText
     = ProcessOCR.extractWithRegex rawText)
  /\ (forall c, ProcessOCR.x_confidence x = Some (JNum (Fin c)) -> (1 < c)%Q ->
        ProcessOCR.parseCardDataWithGPT isEmail isUrl (ProcessOCR.Parsed x) rawText
        = ProcessOCR.extractWithRegex rawText).
Proof.
  split.
  - intros e He Hne Hbad. cbn [ProcessOCR.parseCardDataWithGPT].
    now rewrite (validate_rejects_email isEmail isUrl x He Hne Hbad).
  - intros c Hc Hgt. cbn [ProcessOCR.parseCardDataWithGPT].
    rewrite (validate_rejects_confidence isEmail isUrl x Hc); auto.
    + cbn [json_truthy num_truthy]. apply negb_true_iff.
      destruct (Qeq_bool c 0) eqn:E; auto. apply Qeq_bool_iff in E. lra.
    + cbn [ProcessOCR.zConfidence num_leb].
      destruct (Qle_bool c 1) eqn:E; [|now rewrite andb_false_r].
      apply Qle_bool_iff in E. lra.
Qed.

(** ** The message handed to Gmail *)

Lemma b64char_standard (v : N) :
  (Gmail.urlSafe (Gmail.b64char v) = true
   /\ Gmail.b64char v <> 43%N /\ Gmail.b64char v <> 47%N)
  \/ Gmail.b64char v = 43%N \/ Gmail.b64char v = 47%N.
Proof.
  unfold Gmail.b64char.
  destruct (v <? 26)%N eqn:A; [left|].
  { apply N.ltb_lt in A. unfold Gmail.urlSafe.
    replace (65 <=? 65 + v)%N with true by (symmetry; apply N.leb_le; lia).
    replace (65 + v <=? 90)%N with true by (symmetry; apply N.leb_le; lia).
    repeat split; auto; lia. }
  destruct (v <? 52)%N eqn:B; [left|].
  { apply N.ltb_lt in B. apply N.ltb_ge in A. unfold Gmail.urlSafe.
    replace (97 <=? 97 + (v - 26))%N with true by (symmetry; apply N.leb_le; lia).
    replace (97 + (v - 26) <=? 122)%N with true by (symmetry; apply N.leb_le; lia).
    rewrite orb_true_r. repeat split; auto; lia. }
  destruct (v <? 62)%N eqn:C; [left|].
  { apply N.ltb_lt in C. apply N.ltb_ge in B. unfold Gmail.urlSafe.
    replace (48 <=? 48 + (v - 52))%N with true by (symmetry; apply N.leb_le; lia).
    replace (48 + (v - 52) <=? 57)%N with true by (symmetry; apply N.leb_le; lia).
    cbn [andb]. rewrite !orb_true_r. repeat split; auto; lia. }
  destruct (v =? 62)%N; auto.
Qed.

(** A base64 character after the two replacements is URL-safe. *)
Lemma replaced_urlSafe (v : N) :
  Gmail.urlSafe
    (hd 0%N (Gmail.replaceAllChar 47 95 (Gmail.replaceAllChar 43 45 [Gmail.b64char v])))
  = true.
Proof.
  cbn [Gmail.replaceAllChar map hd].
  destruct (b64char_standard v) as [(U & P & S)|[E|E]].
  - apply N.eqb_neq in P, S. now rewrite P, S.
  - rewrite E. reflexivity.
  - rewrite E. reflexivity.
Qed.

Lemma list_ind3 (P : list N -> Prop) :
  P [] -> (forall a, P [a]) -> (forall a b, P [a; b]) ->
  (forall a b c r, P r -> P (a :: b :: c :: r)) ->
  forall l, P l.
Proof.
  intros H0 H1 H2 H3 l.
  assert (H : P l /\ (forall a, P (a :: l)) /\ (forall a b, P (a :: b :: l))).
  { induction l as [|x l (Hl & Hl1 & Hl2)]; auto. }
  apply H.
Qed.

(** base64 is a run of alphabet characters, four for three bytes without
    rounding down, followed by at most two padding characters. *)
Lemma base64_shape (bs : list N) :
  exists vs k,
    Gmail.base64 bs = map Gmail.b64char vs ++ repeat Gmail.pad k
    /\ length vs = (4 * length bs + 2) / 3.
Proof.
  induction bs as [|a|a b|a b c r (vs & k & E & L)] using list_ind3.
  - exists [], 0. split; reflexivity.
  - eexists [_; _], 2. split; reflexivity.
  - eexists [_; _; _], 1. split; reflexivity.
  - eexists (_ :: _ :: _ :: _ :: vs), k. split.
    + cbn [Gmail.base64 map app]. rewrite E. reflexivity.
    + cbn [length]. rewrite L.
      replace (4 * S (S (S (length r))) + 2) with (4 * length r + 2 + 4 * 3) by lia.
      rewrite Nat.div_add by discriminate. lia.
Qed.

Lemma dropPad_repeat (k : nat) (s : jsstring) :
  Gmail.dropPad (repeat Gmail.pad k ++ s) = Gmail.dropPad s.
Proof.
  induction k; simpl; auto.
Qed.

Lemma dropPad_urlSafe (s : jsstring) :
  Forall (fun c => Gmail.urlSafe c = true) s -> Gmail.dropPad s = s.
Proof.
  destruct s as [|c s]; auto. intros H. inversion H as [|? ? Hc _]; subst.
  cbn [Gmail.dropPad]. destruct (c =? Gmail.pad)%N eqn:E; auto.
  apply N.eqb_eq in E. subst c. discriminate.
Qed.

Lemma stripPadding_urlSafe (s : jsstring) (k : nat) :
  Forall (fun c => Gmail.urlSafe c = true) s ->
  Gmail.stripPadding (s ++ repeat Gmail.pad k) = s.
Proof.
  intros H. unfold Gmail.stripPadding.
  rewrite rev_app_distr, rev_repeat, dropPad_repeat.
  rewrite dropPad_urlSafe; [apply rev_involutive|].
  now apply Forall_rev.
Qed.

(** X9.  The raw message.  Whatever the text of the mail, what encodeEmail
    returns is made of letters, digits, [-] and [_] only, with no [+], [/]
    or [=] left, and has four characters for every three bytes of the UTF-8
    text, rounded up: the padding is gone. *)
Theorem encodeEmail_is_url_safe (email : jsstring) :
  Forall (fun c => Gmail.urlSafe c = true) (Gmail.encodeEmail email)
  /\ length (Gmail.encodeEmail email) = (4 * length (Gmail.utf8 email) + 2) / 3.
Proof.
  unfold Gmail.encodeEmail.
  destruct (base64_shape (Gmail.utf8 email)) as (vs & k & E & L). rewrite E.
  unfold Gmail.replaceAllChar. rewrite !map_app, !map_map.
  replace (map _ (repeat Gmail.pad k)) with (repeat Gmail.pad k).
  2:{ clear. induction k; simpl; [reflexivity | now f_equal]. }
  match goal with |- context [map ?g vs] => set (f := g) end.
  assert (U : Forall (fun c => Gmail.urlSafe c = true) (map f vs)).
  { apply Forall_forall. intros c Hc. apply in_map_iff in Hc as (v & <- & _).
    exact (replaced_urlSafe v). }
  rewrite stripPadding_urlSafe by exact U. split; [exact U|].
  now rewrite length_map.
Qed.

Lemma split_lines_line (a b : jsstring) :
  ~ In LF a -> split_lines (a ++ nl ++ b) = a :: split_lines b.
Proof.
  induction a as [|c a IH]; intros H.
  - reflexivity.
  - cbn [app split_lines]. destruct (c =? LF)%N eqn:E.
    + apply N.eqb_eq in E. exfalso. apply H. now left.
    + change (a ++ LF :: b) with (a ++ nl ++ b).
      rewrite IH; [reflexivity|]. intros Hin. apply H. now right.
Qed.

Lemma not_in_app (x : N) (a b : jsstring) :
  ~ In x a -> ~ In x b -> ~ In x (a ++ b).
Proof.
  intros Ha Hb H. apply in_app_or in H. tauto.
Qed.

Lemma lit_no_LF (s : string) :
  existsb (N.eqb LF) (lit s) = false -> ~ In LF (lit s).
Proof.
  intros E H. assert (existsb (N.eqb LF) (lit s) = true).
  { apply existsb_exists. exists LF. split; [exact H | apply N.eqb_refl]. }
  congruence.
Qed.

(** X10.  The layout of the message.  When the sender, the addressee and the
    subject hold no line feed, the message is five header lines, an empty
    line, and then the lines of the body, unchanged. *)
Theorem createMessage_layout (options : Gmail.SendMailOptions) :
  ~ In LF (Gmail.from options) ->
  ~ In LF (Gmail.to options) ->
  ~ In LF (Gmail.subject options) ->
  split_lines (Gmail.createMessage options)
  = [ lit "From: " ++ Gmail.from options;
      lit "To: " ++ Gmail.to options;
      lit "Subject: " ++ Gmail.subject options;
      lit "MIME-Version: 1.0";
      lit "Content-Type: text/plain; charset=utf-8";
      [] ]
    ++ split_lines (Gmail.body options).
Proof.
  intros Hf Ht Hs. unfold Gmail.createMessage. cbn [join].
  rewrite split_lines_line
    by (apply not_in_app; [apply lit_no_LF; vm_compute; reflexivity | exact Hf]).
  rewrite split_lines_line
    by (apply not_in_app; [apply lit_no_LF; vm_compute; reflexivity | exact Ht]).
  rewrite split_lines_line
    by (apply not_in_app; [apply lit_no_LF; vm_compute; reflexivity | exact Hs]).
  rewrite split_lines_line by (apply lit_no_LF; vm_compute; reflexivity).
  rewrite split_lines_line by (apply lit_no_LF; vm_compute; reflexivity).
  rewrite (split_lines_line [] (Gmail.body options)) by (intros []).
  reflexivity.
Qed.

(** ** Sending *)

Lemma mapError_status (A : Type) (t : Gmail.Thrown) :
  exists status message,
    @Gmail.mapError A t = Gmail.AppError status message
    /\ (status = 401 \/ status = 403 \/ status = 500)%Z.
Proof.
  destruct t as [m|]; cbn [Gmail.mapError].
  - destruct (includes m (lit "invalid_grant")); [eauto 6|].
    destruct (includes m (lit "insufficient_scope")); eauto 6.
  - eauto 6.
Qed.

Lemma sendGmail_error_status
      (send : jsstring -> jsstring -> Gmail.SendReply)
      (options : Gmail.SendMailOptions) (status : Z) (message : jsstring) :
  Gmail.sendGmail send options = Gmail.AppError status message ->
  (status = 401 \/ status = 403 \/ status = 500)%Z.
Proof.
  unfold Gmail.sendGmail.
  destruct (send _ _) as [t|id threadId].
  - destruct (mapError_status Gmail.SendMailResult t) as (s & m & -> & Hs).
    intros [= <- _]. exact Hs.
  - destruct (negb (truthy_opt id) || negb (truthy_opt threadId)); [|discriminate].
    destruct (mapError_status Gmail.SendMailResult
                (Gmail.ErrorWith (lit "Failed to send email"))) as (s & m & -> & Hs).
    intros [= <- _]. exact Hs.
Qed.

(** X11.  How sendGmail ends.  It returns the two identifiers exactly when Gmail
    resolved with both of them non-empty.  Everything else is an AppError
    with status 401, 403 or 500: 401 when the error message mentions
    invalid_grant, even if it mentions insufficient_scope too, and a reply
    without an identifier is reported as 'Failed to send email via Gmail'
    with status 500. *)
Theorem sendGmail_outcomes
  (send : jsstring -> jsstring -> Gmail.SendReply) (options : Gmail.SendMailOptions) :
  let raw := Gmail.encodeEmail (Gmail.createMessage options) in
  (forall r,
     Gmail.sendGmail send options = Gmail.Returned r <->
     send (Gmail.accessToken options) raw
     = Gmail.Resolves (Some (Gmail.messageId r)) (Some (Gmail.threadId r))
     /\ Gmail.messageId r <> [] /\ Gmail.threadId r <> [])
  /\ (forall status message,
        Gmail.sendGmail send options = Gmail.AppError status message ->
        (status = 401 \/ status = 403 \/ status = 500)%Z)
  /\ (forall m,
        send (Gmail.accessToken options) raw = Gmail.Rejects (Gmail.ErrorWith m) ->
        includes m (lit "invalid_grant") = true ->
        Gmail.sendGmail send options
        = Gmail.AppError 401 (lit "Gmail access token expired"))
  /\ (forall id threadId,
        send (Gmail.accessToken options) raw = Gmail.Resolves id threadId ->
        truthy_opt id = false \/ truthy_opt threadId = false ->
        Gmail.sendGmail send options
        = Gmail.AppError 500 (lit "Failed to send email via Gmail")).
Proof.
  cbv zeta. unfold Gmail.sendGmail.
  split; [|split; [|split]].
  - intros [mid tid]. cbn [Gmail.messageId Gmail.threadId].
    destruct (send _ _) as [t|id threadId].
    + split.
      * destruct (mapError_status Gmail.SendMailResult t) as (s & m & -> & _). discriminate.
      * intros (H & _). discriminate.
    + destruct id as [[|a i]|], threadId as [[|b t]|]; cbn [truthy_opt truthy negb orb or_else];
        try (split; [ intros H; try discriminate H;
                      exfalso; vm_compute in H; discriminate H
                    | intros (H & H1 & H2); try discriminate H;
                      injection H as <- <-; congruence ]).
      split.
      * intros [= <- <-]. repeat split; discriminate.
      * intros ([= <- <-] & _ & _). reflexivity.
  - intros status message. apply sendGmail_error_status.
  - intros m -> Hm. cbn [Gmail.mapError]. now rewrite Hm.
  - intros id threadId -> H.
    replace (negb (truthy_opt id) || negb (truthy_opt threadId)) with true
      by (destruct H as [-> | ->]; cbn [negb orb]; auto using orb_true_r).
    vm_compute. reflexivity.
Qed.

Lemma batchLoop_shape
      (parseReply : jsstring -> option (jsstring * jsstring))
      (send : jsstring -> jsstring -> Gmail.SendReply) (isError : bool)
      (user : SendRoute.User) (recipients : list GenerateMail.Recipient)
      (replies : nat -> GenerateMail.Reply) :
  forall i,
    let results := SendRoute.batchLoop parseReply send isError user recipients replies i in
    map SendRoute.b_email results = map GenerateMail.email recipients
    /\ length (filter SendRoute.isSent results)
       + length (filter SendRoute.isFailed results) = length recipients.
Proof.
  induction recipients as [|to rest IH]; intros i; cbn [SendRoute.batchLoop].
  - split; reflexivity.
  - destruct (IH (S i)) as [He Hc]. cbv zeta in *. cbn [map filter]. split.
    + rewrite He. f_equal. unfold SendRoute.batchEntry.
      destruct (SendRoute.deliver _ _ _ _ _ _) as [? [?|? ?]]; reflexivity.
    + unfold SendRoute.batchEntry at 1 3.
      destruct (SendRoute.deliver _ _ _ _ _ _) as [? [?|? ?]];
        cbn [SendRoute.isSent SendRoute.isFailed SendRoute.b_status length];
        cbn [length] in *; lia.
Qed.

Lemma validateAll_length (Raw : Type) (parse : Raw -> option GenerateMail.Recipient)
      (raw : list Raw) :
  forall vs, SendRoute.validateAll parse raw = Some vs ->
             length vs = length raw
             /\ Forall2 (fun r v => parse r = Some v) raw vs.
Proof.
  induction raw as [|r raw IH]; cbn [SendRoute.validateAll].
  - intros vs [= <-]. split; [reflexivity | constructor].
  - intros vs. destruct (parse r) as [v|] eqn:P; [|discriminate].
    destruct (SendRoute.validateAll parse raw) as [vs'|]; [|discriminate].
    intros [= <-]. destruct (IH vs' eq_refl) as [L F].
    split; [simpl; now f_equal | now constructor].
Qed.

(** X12.  The batch route.  A response is given only when the body holds a
    non-empty array whose recipients all pass the schema.  It has one entry
    per recipient, in the order of the request and under the recipient's
    address, and every recipient is counted once: sent plus failed is the
    total.  A recipient whose mail fails does not stop the ones after it. *)
Theorem postBatch_counts_every_recipient
  (Raw : Type) (parse : Raw -> option GenerateMail.Recipient)
  (parseReply : jsstring -> option (jsstring * jsstring))
  (send : jsstring -> jsstring -> Gmail.SendReply) (isError : bool)
  (user : SendRoute.User) (recipients : option (list Raw))
  (replies : nat -> GenerateMail.Reply) (response : SendRoute.BatchResponse) :
  SendRoute.postBatch parseReply send isError parse user recipients replies
  = SendRoute.Responded response ->
  exists raw validated,
    recipients = Some raw /\ raw <> []
    /\ Forall2 (fun r v => parse r = Some v) raw validated
    /\ SendRoute.total response = length raw
    /\ length (SendRoute.results response) = SendRoute.total response
    /\ map SendRoute.b_email (SendRoute.results response)
       = map GenerateMail.email validated
    /\ SendRoute.sentCount response + SendRoute.failedCount response
       = SendRoute.total response.
Proof.
  unfold SendRoute.postBatch.
  destruct recipients as [[|r raw]|]; try discriminate.
  destruct (SendRoute.validateAll parse (r :: raw)) as [vs|] eqn:V; [|discriminate].
  intros [= <-]. cbn [SendRoute.total SendRoute.results SendRoute.sentCount
                        SendRoute.failedCount].
  destruct (validateAll_length parse (r :: raw) V) as [L F].
  destruct (batchLoop_shape parseReply send isError user vs replies 0) as [He Hc].
  cbv zeta in He, Hc.
  exists (r :: raw), vs.
  split; [reflexivity|]. split; [discriminate|]. split; [exact F|].
  split; [reflexivity|]. split; [|split].
  - change (S (length raw)) with (length (r :: raw)).
    rewrite <- L, <- (length_map SendRoute.b_email), He. apply length_map.
  - exact He.
  - rewrite Hc. exact L.
Qed.

(** X13.  The send route and the AI, for a request body that passed the schema.
    Whatever the AI call comes to, the request is answered whenever Gmail
    accepts the message, addressed to the recipient of the request; an
    AppError the route hands to the error handler is one of sendGmail, with
    status 401, 403 or 500. *)
Theorem postSend_fails_only_at_gmail
  (parseReply : jsstring -> option (jsstring * jsstring))
  (send : jsstring -> jsstring -> Gmail.SendReply)
  (user : SendRoute.User) (data : SendRoute.SendRequest)
  (reply : GenerateMail.Reply) :
  (forall id threadId,
     (forall token raw, send token raw = Gmail.Resolves (Some id) (Some threadId)) ->
     id <> [] -> threadId <> [] ->
     exists subject,
       SendRoute.postSend parseReply send user data reply
       = SendRoute.Responded
           {| SendRoute.r_messageId := id;
              SendRoute.r_to := GenerateMail.email (SendRoute.recipient data);
              SendRoute.r_subject := subject |})
  /\ (forall status message,
        SendRoute.postSend parseReply send user data reply
        = SendRoute.NextAppError status message ->
        (status = 401 \/ status = 403 \/ status = 500)%Z).
Proof.
  unfold SendRoute.postSend, SendRoute.deliver. split.
  - intros id threadId Hsend Hi Ht. eexists.
    unfold Gmail.sendGmail. rewrite Hsend.
    apply truthy_nonempty in Hi, Ht. cbn [truthy_opt or_else].
    rewrite Hi, Ht. cbn [negb orb Gmail.messageId]. reflexivity.
  - intros status message.
    destruct (Gmail.sendGmail send _) as [r|s m] eqn:G; [discriminate|].
    intros [= <- _].
    eapply sendGmail_error_status. exact G.
Qed.

(** ** More on the composers *)

Lemma zNonEmpty_nonempty (v : option json) (s : jsstring) :
  EmailGenerator.zNonEmpty v = Some s -> s <> [].
Proof.
  destruct v as [[| | | x |]|]; simpl; try discriminate.
  destruct x; simpl; [discriminate|]. intros [= <-]. discriminate.
Qed.

(** X14.  With a tone given in the options, generateEmail returns a subject and
    a body that are not empty, whatever the AI call comes to: a reply that
    the schema accepts has both, and every other reply is answered by a
    template. *)
Theorem generateEmail_with_tone_is_complete
  (options : EmailGenerator.GenerateEmailOptions) (t : EmailGenerator.Tone)
  (reply : EmailGenerator.Reply) :
  EmailGenerator.tone options = Some t ->
  exists s b,
    EmailGenerator.subject (EmailGenerator.generateEmail options reply) = Some s
    /\ EmailGenerator.body (EmailGenerator.generateEmail options reply) = Some b
    /\ s <> [] /\ b <> [].
Proof.
  intros Ht. pose proof (generateTemplateEmail_with_tone options Ht) as T.
  unfold EmailGenerator.generateEmail.
  destruct reply as [| | |g]; auto.
  destruct (EmailGenerator.validate g _ _) as [v|] eqn:V; auto.
  unfold EmailGenerator.validate in V.
  destruct (EmailGenerator.zNonEmpty (EmailGenerator.g_subject g)) as [s|] eqn:S;
    [|discriminate].
  destruct (EmailGenerator.zNonEmpty (EmailGenerator.g_body g)) as [b|] eqn:B;
    [|discriminate].
  destruct (EmailGenerator.zTone _); [|discriminate].
  destruct (EmailGenerator.zLang _); [|discriminate].
  injection V as <-. exists s, b. cbn [EmailGenerator.subject EmailGenerator.body].
  repeat split; eauto using zNonEmpty_nonempty.
Qed.

Lemma consume_without_body_marker (t : EmailGenerator.Tone) (l : EmailGenerator.Lang)
      (deltas : list (option jsstring)) :
  Forall (fun delta => includes (or_else delta []) (lit "本文:") = false
                       /\ includes (or_else delta []) (lit "Body:") = false) deltas ->
  forall d,
    EmailGenerator.isBodySection d = false -> EmailGenerator.d_body d = [] ->
    EmailGenerator.isBodySection (snd (EmailGenerator.consume d deltas t l)) = false
    /\ EmailGenerator.d_body (snd (EmailGenerator.consume d deltas t l)) = [].
Proof.
  induction 1 as [|delta rest [H1 H2] _ IH]; intros d Hs Hb; cbn [EmailGenerator.consume].
  - auto.
  - destruct (EmailGenerator.consume (EmailGenerator.step d delta) rest t l)
      as [ys final] eqn:E.
    cbn [snd]. specialize (IH (EmailGenerator.step d delta)).
    rewrite E in IH. cbn [snd] in IH. apply IH.
    + unfold EmailGenerator.step. rewrite H1, H2. cbn [orb].
      destruct (_ || _); [reflexivity|].
      destruct (truthy _); [|exact Hs]. rewrite Hs. reflexivity.
    + unfold EmailGenerator.step. rewrite H1, H2. cbn [orb].
      destruct (_ || _); [exact Hb|].
      destruct (truthy _); [|exact Hb]. rewrite Hs. exact Hb.
Qed.

(** X15.  A stream that never names the body section.  When no chunk holds
    '本文:' or 'Body:', every piece of text is taken for the subject, and
    the mail generateEmailStream resolves to has an empty body; nothing
    checks it before it is returned. *)
Theorem generateEmailStream_without_body_marker
  (options : EmailGenerator.GenerateEmailOptions)
  (deltas : list (option jsstring)) :
  Forall (fun delta => includes (or_else delta []) (lit "本文:") = false
                       /\ includes (or_else delta []) (lit "Body:") = false) deltas ->
  EmailGenerator.body
    (snd (EmailGenerator.generateEmailStream options (OpenAI.Chunks deltas false)))
  = Some [].
Proof.
  intros H. unfold EmailGenerator.generateEmailStream.
  set (t := match EmailGenerator.tone options with Some t => t | None => _ end).
  set (l := match EmailGenerator.language options with Some l => l | None => _ end).
  pose proof (consume_without_body_marker t l H
                {| EmailGenerator.d_subject := []; EmailGenerator.d_body := [];
                   EmailGenerator.isBodySection := false |} eq_refl eq_refl) as [_ Hb].
  destruct (EmailGenerator.consume _ deltas t l) as [ys final].
  cbn [snd EmailGenerator.snapshot EmailGenerator.body] in *. now rewrite Hb.
Qed.

Lemma last_nonempty {A} (l : list A) (d1 d2 : A) :
  l <> [] -> last l d1 = last l d2.
Proof.
  induction l as [|x l IH]; [congruence|]. intros _.
  destruct l as [|y l]; [reflexivity|]. cbn [last] in *. apply IH. discriminate.
Qed.

Lemma consume_yields (t : EmailGenerator.Tone) (l : EmailGenerator.Lang)
      (deltas : list (option jsstring)) :
  forall d,
    length (fst (EmailGenerator.consume d deltas t l)) = length deltas
    /\ last (fst (EmailGenerator.consume d deltas t l)) (EmailGenerator.snapshot d t l)
       = EmailGenerator.snapshot (snd (EmailGenerator.consume d deltas t l)) t l.
Proof.
  induction deltas as [|delta rest IH]; intros d; cbn [EmailGenerator.consume].
  - split; reflexivity.
  - specialize (IH (EmailGenerator.step d delta)).
    destruct (EmailGenerator.consume (EmailGenerator.step d delta) rest t l)
      as [ys final].
    cbn [fst snd length] in *. destruct IH as [IL IF]. split; [now f_equal|].
    destruct ys as [|y ys]; [exact IF|].
    rewrite <- IF. cbn [last].
    apply (last_nonempty (l := y :: ys)). discriminate.
Qed.

(** X16.  What the consumer of generateEmailStream sees.  The generator yields
    one partial mail per chunk, also for a chunk without content, and when
    the stream ends normally the mail it resolves to is the last partial it
    yielded. *)
Theorem generateEmailStream_resolves_to_last_partial
  (options : EmailGenerator.GenerateEmailOptions)
  (deltas : list (option jsstring)) (broken : bool) :
  let run := EmailGenerator.generateEmailStream options (OpenAI.Chunks deltas broken) in
  length (fst run) = length deltas
  /\ (broken = false -> deltas <> [] ->
      forall d, last (fst run) d = snd run).
Proof.
  cbv zeta. unfold EmailGenerator.generateEmailStream.
  set (t := match EmailGenerator.tone options with Some t => t | None => _ end).
  set (l := match EmailGenerator.language options with Some l => l | None => _ end).
  set (d0 := {| EmailGenerator.d_subject := []; EmailGenerator.d_body := [];
                EmailGenerator.isBodySection := false |}).
  pose proof (consume_yields t l deltas d0) as [HL HF].
  destruct (EmailGenerator.consume d0 deltas t l) as [ys final].
  cbn [fst snd] in *. split.
  - destruct broken; exact HL.
  - intros -> Hne d. cbn [fst snd]. rewrite <- HF.
    destruct ys as [|y ys]; [destruct deltas; [congruence | discriminate]|].
    apply last_nonempty. discriminate.
Qed.

Lemma accumulate_body (subject : jsstring) (t : WebGenerateMail.Tone)
      (l : WebGenerateMail.Lang) (deltas : list (option jsstring)) :
  forall body,
    let run := WebGenerateMail.accumulate subject t l body deltas in
    snd run = body ++ concat (map (fun d => or_else d []) deltas)
    /\ length (fst run) = length (filter truthy_opt deltas)
    /\ Forall (fun y => WebGenerateMail.y_subject y = subject
                        /\ exists rest, WebGenerateMail.y_body y = Some rest
                                        /\ exists more, snd run = rest ++ more)
              (fst run).
Proof.
  induction deltas as [|delta rest IH]; intros body; cbv zeta;
    cbn [WebGenerateMail.accumulate].
  - cbn [snd fst map concat length filter]. rewrite app_nil_r. auto.
  - destruct (truthy_opt delta) eqn:T.
    + specialize (IH (body ++ or_else delta [])). cbv zeta in IH.
      destruct (WebGenerateMail.accumulate subject t l (body ++ or_else delta []) rest)
        as [ys final].
      cbn [fst snd map concat filter length] in *. rewrite T.
      destruct IH as (IB & IL & IF). split; [|split].
      * rewrite IB. now rewrite <- app_assoc.
      * cbn [length]. now f_equal.
      * constructor; [|exact IF].
        cbn [WebGenerateMail.y_subject WebGenerateMail.y_body].
        split; [reflexivity|]. eexists. split; [reflexivity|].
        rewrite IB. eexists. reflexivity.
    + specialize (IH body). cbv zeta in IH.
      cbn [map concat filter]. rewrite T.
      destruct delta as [[|c x]|]; try discriminate; cbn [or_else truthy app]; exact IH.
Qed.

(** X17.  The streamed mail in the browser.  When the stream ends normally,
    generateMailStream resolves to the template's subject (the AI has no
    part in it) and to a body that is the chunks joined in order.  It
    yields the subject first and then one partial per chunk that has
    content; the body of each partial is a beginning of the final body. *)
Theorem generateMailStream_joins_the_chunks
  (cardData : ParseCard.ParsedCardData)
  (options : WebGenerateMail.GenerateMailOptions)
  (deltas : list (option jsstring)) :
  let run := WebGenerateMail.generateMailStream cardData options
               (OpenAI.Chunks deltas false) in
  let subject :=
    WebGenerateMail.subject (WebGenerateMail.generateWithTemplate cardData options) in
  WebGenerateMail.subject (snd run) = subject
  /\ WebGenerateMail.body (snd run) = concat (map (fun d => or_else d []) deltas)
  /\ length (fst run) = 1 + length (filter truthy_opt deltas)
  /\ Forall (fun y => WebGenerateMail.y_subject y = subject
                      /\ match WebGenerateMail.y_body y with
                         | Some shown =>
                             exists more, WebGenerateMail.body (snd run) = shown ++ more
                         | None => True
                         end)
            (fst run).
Proof.
  cbv zeta. unfold WebGenerateMail.generateMailStream.
  set (t := WebGenerateMail.toneOf options).
  set (l := WebGenerateMail.languageOf options).
  set (subject := replace _ WebGenerateMail.placeholder (ParseCard.name cardData)).
  assert (Hs : WebGenerateMail.subject
                 (WebGenerateMail.generateWithTemplate cardData options) = subject)
    by reflexivity.
  rewrite Hs.
  pose proof (accumulate_body subject t l deltas []) as H. cbv zeta in H.
  destruct (WebGenerateMail.accumulate subject t l [] deltas) as [ys body].
  cbn [fst snd app WebGenerateMail.subject WebGenerateMail.body length] in *.
  destruct H as (HB & HL & HF). repeat split; auto.
  constructor.
  - cbn [WebGenerateMail.y_subject WebGenerateMail.y_body]. auto.
  - eapply Forall_impl; [|exact HF].
    intros y (Hy & rest & -> & more & Hm). split; [exact Hy|]. eauto.
Qed.

Lemma generateWithGPT_body (jsonParse : jsstring -> result WebComposer.MailJson)
      (cardData : ParseCard.ParsedCardData)
      (options : WebGenerateMail.GenerateMailOptions)
      (reply : WebComposer.Reply) (mail : WebGenerateMail.EmailContent) :
  WebComposer.generateWithGPT jsonParse cardData options reply = Ok mail ->
  WebGenerateMail.body mail <> [].
Proof.
  unfold WebComposer.generateWithGPT. destruct reply as [m|c]; [discriminate|].
  destruct (truthy_opt c) eqn:T; [|discriminate]. cbn [negb].
  assert (C : or_else c [] <> []).
  { destruct c as [x|]; [|discriminate]. cbn [truthy_opt or_else] in *.
    rewrite T. now apply truthy_nonempty. }
  destruct (str_match WebComposer.jsonBlock (or_else c [])) as [block|].
  - destruct (jsonParse block) as [parsed|]; [|discriminate].
    intros [= <-]. cbn [WebGenerateMail.body].
    destruct (truthy_opt (WebComposer.j_body parsed)) eqn:B.
    + destruct (WebComposer.j_body parsed) as [x|]; [|discriminate].
      cbn [truthy_opt or_else] in *. rewrite B. now apply truthy_nonempty.
    + now apply or_else_nonempty.
  - intros [= <-]. exact C.
Qed.

(** X18.  The composer of the browser.  generateMail refuses a card without a
    name or without an e-mail address.  For every other card it returns a
    mail, whatever the AI call comes to, and the body of that mail is never
    empty; when the AI path throws, the mail is the template's. *)
Theorem web_generateMail_outcomes
  (jsonParse : jsstring -> result WebComposer.MailJson)
  (cardData : ParseCard.ParsedCardData)
  (options : WebGenerateMail.GenerateMailOptions) (reply : WebComposer.Reply) :
  (ParseCard.name cardData = [] \/ ParseCard.email cardData = [] ->
   WebComposer.generateMail jsonParse cardData options reply
   = Throw "名前とメールアドレスは必須です")
  /\ (ParseCard.name cardData <> [] -> ParseCard.email cardData <> [] ->
      exists mail,
        WebComposer.generateMail jsonParse cardData options reply = Ok mail
        /\ WebGenerateMail.body mail <> []
        /\ (forall e,
              WebComposer.generateWithGPT jsonParse cardData options reply = Throw e ->
              mail = WebGenerateMail.generateWithTemplate cardData options)).
Proof.
  unfold WebComposer.generateMail. split.
  - intros [-> | ->]; cbn [truthy negb orb]; [reflexivity|].
    now rewrite orb_true_r.
  - intros Hn He. apply truthy_nonempty in Hn, He. rewrite Hn, He. cbn [negb orb].
    destruct (WebComposer.generateWithGPT jsonParse cardData options reply)
      as [mail|e] eqn:G.
    + exists mail. repeat split; [eapply generateWithGPT_body; eauto | discriminate].
    + eexists. repeat split.
      apply (generateWithTemplate_nonempty cardData options).
Qed.

(** ** More on the worker *)

(** X19.  Image preprocessing cannot fail a job.  When sharp throws, the handler
    goes on with the image as it was uploaded: the attempt ends exactly as
    it does with a sharp that returns its input. *)
Theorem preprocessing_failure_is_invisible
  (sv : Worker.Services) (job : Worker.JobData) (log : list Z) (e : string) :
  Worker.sharp sv (Worker.base64 sv (Worker.image job)) = Throw e ->
  Worker.processCardHandler sv job log
  = Worker.processCardHandler
      {| Worker.base64 := Worker.base64 sv;
         Worker.sharp := fun buffer => Ok buffer;
         Worker.recognize := Worker.recognize sv;
         Worker.uuidv4 := Worker.uuidv4 sv;
         Worker.postCard := Worker.postCard sv;
         Worker.postSend := Worker.postSend sv;
         Worker.putCard := Worker.putCard sv |} job log.
Proof.
  intros H. unfold Worker.processCardHandler, Worker.preprocessImage.
  cbn [Worker.sharp Worker.base64]. rewrite H. reflexivity.
Qed.

(** X20.  A card that cannot be saved, a mail that cannot be sent and a
    card that cannot be updated are treated differently.  When the save is
    answered with a response that is not ok, the attempt fails with 'Failed
    to save card: ' followed by the status text of the response, after
    reporting 70 and before any mail is sent.  When the card is saved and
    the send is answered with a response that is not ok, the attempt fails
    with 'Failed to send email: ' and the status text, after reporting 80.
    When the mail is out and the update of the card is answered with a
    response that is not ok, this is only logged: the attempt succeeds and
    reports 100. *)
Theorem card_update_failure_does_not_fail_the_job
  (sv : Worker.Services) (job : Worker.JobData) (text : jsstring) :
  Worker.recognize sv (Worker.preprocessImage sv (Worker.base64 sv (Worker.image job)))
  = Ok text ->
  (forall response,
     (forall card, Worker.postCard sv card = Ok response) ->
     Worker.ok response = false ->
     Worker.processCardHandler sv job []
     = (Throw (String.append "Failed to save card: " (Worker.statusText response)),
        [10; 30; 60; 70]%Z))
  /\ (forall saved sent mail,
        (forall card, Worker.postCard sv card = Ok saved) ->
        Worker.ok saved = true ->
        (forall recipient, Worker.postSend sv recipient = Ok (sent, mail)) ->
        (Worker.ok sent = false ->
         Worker.processCardHandler sv job []
         = (Throw (String.append "Failed to send email: " (Worker.statusText sent)),
            [10; 30; 60; 70; 80]%Z))
        /\ (Worker.ok sent = true ->
            (forall id r, Worker.putCard sv id r = Ok false) ->
            Worker.processCardHandler sv job []
            = (Ok {| Worker.cardInfo := Worker.extractBusinessCardInfo text;
                     Worker.savedId := Worker.uuidv4 sv;
                     Worker.emailId := Worker.messageId mail |},
               [10; 30; 60; 70; 80; 100]%Z))).
Proof.
  intros Hocr. split.
  - intros response Hsave Hok.
    unfold Worker.processCardHandler, Worker.bind, Worker.updateProgress,
      Worker.await, Worker.ret, Worker.performOCR.
    cbn [app]. rewrite Hocr. cbn [app].
    unfold Worker.saveCardData. rewrite Hsave, Hok. reflexivity.
  - intros saved sent mail Hsave Hok Hsend. split.
    + intros Hno.
      unfold Worker.processCardHandler, Worker.bind, Worker.updateProgress,
        Worker.await, Worker.ret, Worker.performOCR.
      cbn [app]. rewrite Hocr. cbn [app].
      unfold Worker.saveCardData, Worker.sendEmailViaAPI.
      rewrite Hsave, Hok. cbn [app]. rewrite Hsend, Hno. reflexivity.
    + intros Hyes Hput.
      unfold Worker.processCardHandler, Worker.bind, Worker.updateProgress,
        Worker.await, Worker.ret, Worker.performOCR.
      cbn [app]. rewrite Hocr. cbn [app].
      unfold Worker.saveCardData, Worker.sendEmailViaAPI,
        Worker.updateCardWithEmailInfo.
      rewrite Hsave, Hok. cbn [app]. rewrite Hsend, Hyes. cbn [app].
      rewrite Hput. reflexivity.
Qed.

Lemma includes_empty (s : jsstring) : includes s [] = true.
Proof.
  destruct s; reflexivity.
Qed.

(** X21.  A card on which no name is found.  The search for the role then starts
    from the first line: when the text has a second non-blank line that is
    shorter than 20 code units and holds no e-mail address, that line,
    trimmed, is returned as the role, next to the name 'Unknown'. *)
Theorem role_without_name_is_the_second_line
  (text first second : jsstring) (rest : list jsstring) :
  filter Worker.nonBlank (split_lines text) = first :: second :: rest ->
  find Worker.isNameLine (first :: second :: rest) = None ->
  length second < 20 ->
  Worker.matches Worker.emailPattern second = false ->
  Worker.role (Worker.extractBusinessCardInfo text) = trim second
  /\ Worker.name (Worker.extractBusinessCardInfo text) = lit "Unknown".
Proof.
  intros Hlines Hname Hlen Hmail. unfold Worker.extractBusinessCardInfo.
  cbn [Worker.role Worker.name]. rewrite Hlines, Hname.
  cbn [findIndex findIndex_from]. rewrite includes_empty.
  cbn [length Nat.add nth_error].
  apply Nat.ltb_lt in Hlen. rewrite Hlen, Hmail. cbn [negb andb].
  replace (Z.of_nat 0 <? Z.of_nat (S (S (length rest))) - 1)%Z with true
    by (symmetry; apply Z.ltb_lt; lia).
  split; reflexivity.
Qed.

(** X22.  The weight of the e-mail address.  Without an address in the text the
    worker's score is at most 60; with one it is at least 40.  Since the
    score is taken before the placeholders are filled in, a record sent to
    no-email@example.com never scores above 60. *)
Theorem worker_confidence_and_email (text : jsstring) :
  let r := Worker.extractBusinessCardInfo text in
  (str_match Worker.emailPattern text = None ->
   (Worker.confidence r <= 60)%Z /\ Worker.email r = lit "no-email@example.com")
  /\ (str_match Worker.emailPattern text <> None -> (40 <= Worker.confidence r)%Z).
Proof.
  cbv zeta. unfold Worker.extractBusinessCardInfo.
  cbn [Worker.confidence Worker.email]. split.
  - intros ->. cbn [or_else truthy]. split; [|reflexivity].
    repeat match goal with |- context [if ?b then _ else _] => destruct b end; lia.
  - intros H. destruct (str_match Worker.emailPattern text) as [m|] eqn:E; [|congruence].
    pose proof (emailPattern_match_nonempty _ E) as Hne.
    apply truthy_nonempty in Hne. cbn [or_else]. rewrite Hne, Hne.
    repeat match goal with |- context [if ?b then _ else _] => destruct b end; lia.
Qed.

(** ** More on the browser-side pipeline *)

Lemma fallbackContent_closing (o : ProcessingContext.OCRResult) :
  endsWith (ProcessingContext.body (ProcessingContext.fallbackContent o))
           GenerateMail.closing = true.
Proof.
  unfold ProcessingContext.fallbackContent, GenerateMail.closing, text_lines.
  cbn [ProcessingContext.body join].
  rewrite !app_assoc. apply endsWith_app.
Qed.

(** X23.  A job that is processed for the first time is never sent.  sendEmail
    reads the job object processJob was called with, which has no OCR
    result and no mail content yet; so with auto-send on, a first run stops
    after reporting 10, 40 and 70 and marks the job failed with 'OCR result
    or email content missing', whatever the two earlier steps returned. *)
Theorem first_run_with_autoSend_fails
  (sv : ProcessingContext.Services) (job : ProcessingContext.ProcessingJob)
  (o : ProcessingContext.OCRResult) :
  ProcessingContext.autoSend sv = true ->
  ProcessingContext.ocrResult job = None \/ ProcessingContext.emailContent job = None ->
  ProcessingContext.performOCR sv (ProcessingContext.file job) = Ok o ->
  let updates := ProcessingContext.processJob sv job in
  ProcessingContext.succeeded updates = false
  /\ ProcessingContext.reported updates = [10; 40; 70]%Z
  /\ map ProcessingContext.u_error updates
     = [None; None; None; Some "OCR result or email content missing"%string]
  /\ Forall (fun u => ProcessingContext.u_emailId u = None) updates.
Proof.
  intros Hauto Hstale Hocr. cbv zeta. unfold ProcessingContext.processJob.
  rewrite Hocr, Hauto.
  assert (S : ProcessingContext.sendEmail sv job
              = Throw "OCR result or email content missing").
  { unfold ProcessingContext.sendEmail.
    destruct Hstale as [-> | ->]; [reflexivity|].
    destruct (ProcessingContext.ocrResult job); reflexivity. }
  rewrite S. repeat split. repeat constructor.
Qed.

(** X24.  How a run of processJob ends.  Its reports are a strictly increasing
    beginning of 10, 40, 70, 100; exactly one of its updates, the last one,
    is marked completed; and the step that writes the mail cannot fail the
    run: when the generation endpoint is down, the fallback mail is used,
    whose body ends with the closing sentence. *)
Theorem processJob_ends_once
  (sv : ProcessingContext.Services) (job : ProcessingContext.ProcessingJob) :
  let updates := ProcessingContext.processJob sv job in
  (exists later, ProcessingContext.reported updates ++ later = [10; 40; 70; 100]%Z)
  /\ (exists before final,
        updates = before ++ [final]
        /\ ProcessingContext.u_completed final = true
        /\ Forall (fun u => ProcessingContext.u_completed u = false) before)
  /\ (forall o e,
        ProcessingContext.apiGenerateEmail sv o = Throw e ->
        endsWith (ProcessingContext.body (ProcessingContext.generateEmailContent sv o))
                 GenerateMail.closing = true).
Proof.
  cbv zeta. split; [|split].
  - unfold ProcessingContext.processJob.
    destruct (ProcessingContext.performOCR sv _) as [o|e]; [|exists [40; 70; 100]%Z; reflexivity].
    destruct (ProcessingContext.autoSend sv); [|exists []; reflexivity].
    destruct (ProcessingContext.sendEmail sv job);
      [exists []; reflexivity | exists [100%Z]; reflexivity].
  - unfold ProcessingContext.processJob, ProcessingContext.failure.
    destruct (ProcessingContext.performOCR sv _) as [o|e].
    + destruct (ProcessingContext.autoSend sv);
        [destruct (ProcessingContext.sendEmail sv job)|];
        (eexists [_; _; _], _; split; [reflexivity|];
         split; [reflexivity | repeat constructor]).
    + eexists [_], _. split; [reflexivity|]. split; [reflexivity | repeat constructor].
  - intros o e H. unfold ProcessingContext.generateEmailContent. rewrite H.
    apply fallbackContent_closing.
Qed.

(** ** The card store and the drop zone *)

Lemma str_eqb_eq (a b : jsstring) : str_eqb a b = true <-> a = b.
Proof.
  unfold str_eqb. destruct (list_eq_dec N.eq_dec a b); split; congruence.
Qed.

Lemma str_eqb_neq (a b : jsstring) : str_eqb a b = false <-> a <> b.
Proof.
  unfold str_eqb. destruct (list_eq_dec N.eq_dec a b); split; congruence.
Qed.

Lemma find_unused (cardId : jsstring) (cards : list CardStore.CardData) :
  StoreSpec.unused cardId cards ->
  find (fun c => str_eqb (CardStore.id c) cardId) cards = None.
Proof.
  induction 1 as [|c cards H _ IH]; [reflexivity|].
  cbn [find]. apply str_eqb_neq in H. now rewrite H.
Qed.

Lemma find_app_unused (cardId : jsstring) (cards more : list CardStore.CardData) :
  StoreSpec.unused cardId cards ->
  find (fun c => str_eqb (CardStore.id c) cardId) (cards ++ more)
  = find (fun c => str_eqb (CardStore.id c) cardId) more.
Proof.
  induction 1 as [|c cards H _ IH]; [reflexivity|].
  cbn [find app]. apply str_eqb_neq in H. now rewrite H.
Qed.

Lemma map_unused (cardId : jsstring) (f : CardStore.CardData -> CardStore.CardData)
      (cards : list CardStore.CardData) :
  StoreSpec.unused cardId cards ->
  map (fun c => if str_eqb (CardStore.id c) cardId then f c else c) cards = cards.
Proof.
  induction 1 as [|c cards H _ IH]; [reflexivity|].
  cbn [map]. rewrite IH. apply str_eqb_neq in H. now rewrite H.
Qed.

Lemma filter_unused (cardId : jsstring) (cards : list CardStore.CardData) :
  StoreSpec.unused cardId cards ->
  filter (CardStore.hasOtherId cardId) cards = cards.
Proof.
  induction 1 as [|c cards H _ IH]; [reflexivity|].
  cbn [filter]. rewrite IH. unfold CardStore.hasOtherId.
  apply str_eqb_neq in H. now rewrite H.
Qed.

Lemma filter_hasOtherId_unused (cardId : jsstring) (cards : list CardStore.CardData) :
  StoreSpec.unused cardId (filter (CardStore.hasOtherId cardId) cards).
Proof.
  apply Forall_forall. intros c H. apply filter_In in H as [_ H].
  unfold CardStore.hasOtherId in H. apply negb_true_iff in H.
  now apply str_eqb_neq.
Qed.

(** X25.  addCard puts the new card last and selects it.  The card has the
    identifier that is returned and both its times are the time of the
    call; when no pending card has that identifier yet, it is the card
    useSelectedCard then finds. *)
Theorem addCard_selects_the_new_card
  (uuid now : jsstring) (card : CardStore.NewCard) (state : CardStore.State) :
  StoreSpec.unused uuid (CardStore.pendingCards state) ->
  let (after, cardId) := CardStore.addCard uuid now card state in
  cardId = uuid
  /\ length (CardStore.pendingCards after) = S (length (CardStore.pendingCards state))
  /\ CardStore.sentCards after = CardStore.sentCards state
  /\ exists new,
       CardStore.selectedCard after = Some new
       /\ last (CardStore.pendingCards after) new = new
       /\ CardStore.id new = cardId
       /\ CardStore.status new = CardStore.n_status card
       /\ CardStore.createdAt new = now /\ CardStore.updatedAt new = now.
Proof.
  intros Hfresh. cbn [CardStore.addCard].
  split; [reflexivity|]. cbn [CardStore.pendingCards CardStore.sentCards].
  split; [rewrite length_app; simpl; lia|]. split; [reflexivity|].
  eexists. unfold CardStore.selectedCard.
  cbn [CardStore.selectedCardId CardStore.pendingCards].
  rewrite (find_app_unused _ Hfresh). cbn [find CardStore.id].
  rewrite str_eqb_refl. split; [reflexivity|].
  rewrite last_last. repeat split.
Qed.

(** X26.  updateCard touches nothing but the pending cards with the given
    identifier.  The number of pending cards, the sent cards and the
    selection stay; a card with another identifier stays as it is; an
    identifier no pending card has leaves the state as it was; and a card
    that is updated takes the new status when one is given, and the time of
    the call even when the updates carry an updatedAt of their own. *)
Theorem updateCard_touches_only_its_card
  (now cardId : jsstring) (updates : CardStore.Updates) (state : CardStore.State) :
  let after := CardStore.updateCard now cardId updates state in
  length (CardStore.pendingCards after) = length (CardStore.pendingCards state)
  /\ CardStore.sentCards after = CardStore.sentCards state
  /\ CardStore.selectedCardId after = CardStore.selectedCardId state
  /\ (forall i c, nth_error (CardStore.pendingCards state) i = Some c ->
        CardStore.id c <> cardId ->
        nth_error (CardStore.pendingCards after) i = Some c)
  /\ (forall i c, nth_error (CardStore.pendingCards state) i = Some c ->
        CardStore.id c = cardId ->
        exists c', nth_error (CardStore.pendingCards after) i = Some c'
          /\ CardStore.updatedAt c' = now
          /\ (forall s, CardStore.u_status updates = Some s -> CardStore.status c' = s)
          /\ (CardStore.u_status updates = None -> CardStore.status c' = CardStore.status c))
  /\ (StoreSpec.unused cardId (CardStore.pendingCards state) ->
        CardStore.pendingCards after = CardStore.pendingCards state).
Proof.
  cbv zeta. unfold CardStore.updateCard.
  cbn [CardStore.pendingCards CardStore.sentCards CardStore.selectedCardId].
  split; [apply length_map|]. split; [reflexivity|]. split; [reflexivity|].
  split; [|split].
  - intros i c Hi Hc. rewrite nth_error_map, Hi. cbn [option_map].
    apply str_eqb_neq in Hc. now rewrite Hc.
  - intros i c Hi Hc. rewrite nth_error_map, Hi. cbn [option_map].
    apply str_eqb_eq in Hc. rewrite Hc. eexists. split; [reflexivity|].
    cbn [CardStore.applyUpdates CardStore.updatedAt CardStore.status].
    split; [reflexivity|]. split.
    + intros s ->. reflexivity.
    + intros ->. reflexivity.
  - intros H. now apply map_unused.
Qed.

Lemma find_split (cardId : jsstring) (cards : list CardStore.CardData)
      (card : CardStore.CardData) :
  find (fun c => str_eqb (CardStore.id c) cardId) cards = Some card ->
  CardStore.id card = cardId
  /\ exists before rest, cards = before ++ card :: rest /\ StoreSpec.unused cardId before.
Proof.
  induction cards as [|c cards IH]; [discriminate|].
  cbn [find]. destruct (str_eqb (CardStore.id c) cardId) eqn:E.
  - intros [= ->]. split; [now apply str_eqb_eq|].
    exists [], cards. split; [reflexivity | constructor].
  - intros H. destruct (IH H) as [Hid (before & rest & -> & Hb)].
    split; [exact Hid|]. exists (c :: before), rest. split; [reflexivity|].
    constructor; [now apply str_eqb_neq | exact Hb].
Qed.

(** X27.  sendCard moves a pending card to the sent cards.  With an identifier
    no pending card has, nothing changes.  Otherwise the first pending card
    with it is appended to the sent cards with status sent and the time of
    the call as sentAt and updatedAt, and no pending card keeps the
    identifier.  The selection is not touched: when the card sent was the
    selected one, the selection goes on naming it, and useSelectedCard
    finds no card.  When identifiers are not repeated, no card is lost. *)
Theorem sendCard_moves_the_card
  (now cardId : jsstring) (state : CardStore.State) :
  let after := CardStore.sendCard now cardId state in
  (StoreSpec.unused cardId (CardStore.pendingCards state) -> after = state)
  /\ (forall card,
        find (fun c => str_eqb (CardStore.id c) cardId) (CardStore.pendingCards state)
        = Some card ->
        CardStore.sentCards after
        = CardStore.sentCards state ++ [CardStore.asSent now card]
        /\ CardStore.status (CardStore.asSent now card) = CardStore.sent
        /\ CardStore.sentAt (CardStore.asSent now card) = Some now
        /\ CardStore.id (CardStore.asSent now card) = cardId
        /\ StoreSpec.unused cardId (CardStore.pendingCards after)
        /\ CardStore.selectedCardId after = CardStore.selectedCardId state
        /\ (CardStore.selectedCardId state = Some cardId ->
            CardStore.selectedCard after = None)
        /\ (NoDup (map CardStore.id (CardStore.pendingCards state)) ->
            length (CardStore.pendingCards after) + length (CardStore.sentCards after)
            = length (CardStore.pendingCards state) + length (CardStore.sentCards state)))
.
Proof.
  cbv zeta. unfold CardStore.sendCard. split.
  - intros H. now rewrite (find_unused H).
  - intros card H. rewrite H.
    cbn [CardStore.pendingCards CardStore.sentCards CardStore.selectedCardId].
    destruct (find_split _ _ H) as [Hid (before & rest & Hcards & Hb)].
    split; [reflexivity|]. split; [reflexivity|]. split; [reflexivity|].
    split; [exact Hid|]. split; [apply filter_hasOtherId_unused|].
    split; [reflexivity|]. split.
    + intros Hsel. unfold CardStore.selectedCard.
      cbn [CardStore.pendingCards CardStore.selectedCardId]. rewrite Hsel.
      apply find_unused, filter_hasOtherId_unused.
    + intros Hnd. rewrite Hcards in *. rewrite map_app in Hnd. cbn [map] in Hnd.
      apply NoDup_remove in Hnd as [Hnd Hnot].
      assert (Hrest : StoreSpec.unused cardId rest).
      { apply Forall_forall. intros c Hc Heq. apply Hnot. rewrite Hid.
        apply in_or_app. right. apply in_map_iff. exists c. auto. }
      rewrite filter_app. cbn [filter]. unfold CardStore.hasOtherId at 2.
      rewrite Hid, str_eqb_refl. cbn [negb].
      rewrite (filter_unused Hb), (filter_unused Hrest).
      rewrite !length_app. simpl. lia.
Qed.

(** X28.  clearCard drops every pending card with the identifier, and drops the
    selection exactly when it named that identifier; the sent cards stay.
    Clearing twice is clearing once. *)
Theorem clearCard_removes_and_deselects (cardId : jsstring) (state : CardStore.State) :
  let after := CardStore.clearCard cardId state in
  StoreSpec.unused cardId (CardStore.pendingCards after)
  /\ CardStore.sentCards after = CardStore.sentCards state
  /\ CardStore.selectedCardId after <> Some cardId
  /\ (CardStore.selectedCardId state <> Some cardId ->
      CardStore.selectedCardId after = CardStore.selectedCardId state)
  /\ (forall c, In c (CardStore.pendingCards state) -> CardStore.id c <> cardId ->
      In c (CardStore.pendingCards after))
  /\ CardStore.clearCard cardId after = after.
Proof.
  cbv zeta. unfold CardStore.clearCard.
  cbn [CardStore.pendingCards CardStore.sentCards CardStore.selectedCardId].
  split; [apply filter_hasOtherId_unused|]. split; [reflexivity|].
  split; [|split; [|split]].
  - destruct (CardStore.selectedCardId state) as [s|]; [|discriminate].
    destruct (str_eqb s cardId) eqn:E; [discriminate|].
    apply str_eqb_neq in E. congruence.
  - destruct (CardStore.selectedCardId state) as [s|]; [|reflexivity].
    intros H. destruct (str_eqb s cardId) eqn:E; [|reflexivity].
    apply str_eqb_eq in E. congruence.
  - intros c Hin Hc. apply filter_In. split; [exact Hin|].
    unfold CardStore.hasOtherId. apply str_eqb_neq in Hc. now rewrite Hc.
  - rewrite (filter_unused (filter_hasOtherId_unused cardId _)). f_equal.
    destruct (CardStore.selectedCardId state) as [s|]; [|reflexivity].
    destruct (str_eqb s cardId) eqn:E; [reflexivity|]. now rewrite E.
Qed.

Lemma parseCard_defaults_ok (rt : Coercion.Runtime) (reply : ParseCard.Reply)
      (rawText : jsstring) :
  trim rawText <> [] ->
  exists r, ParseCard.parseCard rt reply rawText ParseCard.defaults = Ok r.
Proof.
  intros H. unfold ParseCard.parseCard. apply truthy_nonempty in H. rewrite H.
  cbn [negb ParseCard.fallbackToRegex ParseCard.defaults].
  destruct (ParseCard.extractWithGPT rt reply) as [gpt|e]; [|eauto].
  destruct (_ && _); eauto.
Qed.

Lemma parseCard_blank (rt : Coercion.Runtime) (reply : ParseCard.Reply)
      (rawText : jsstring)
      (options : ParseCard.ParseCardOptions) :
  trim rawText = [] ->
  ParseCard.parseCard rt reply rawText options = Throw "Empty text provided".
Proof. intros H. unfold ParseCard.parseCard. now rewrite H. Qed.

Lemma updateCard_after_addCard
      (uuid now later : jsstring) (card : CardStore.NewCard)
      (updates : CardStore.Updates) (state : CardStore.State) :
  StoreSpec.unused uuid (CardStore.pendingCards state) ->
  exists new,
    CardStore.pendingCards (fst (CardStore.addCard uuid now card state))
    = CardStore.pendingCards state ++ [new]
    /\ CardStore.pendingCards
         (CardStore.updateCard later uuid updates
            (fst (CardStore.addCard uuid now card state)))
       = CardStore.pendingCards state ++ [CardStore.applyUpdates new updates later]
    /\ CardStore.id new = uuid
    /\ CardStore.fileName new = CardStore.n_fileName card
    /\ CardStore.rawText new = CardStore.n_rawText card
    /\ CardStore.extractedData new = CardStore.n_extractedData card
    /\ CardStore.status new = CardStore.n_status card.
Proof.
  intros Hfresh. eexists. split; [reflexivity|].
  unfold CardStore.updateCard, CardStore.addCard.
  cbn [fst CardStore.pendingCards]. rewrite map_app, (map_unused _ Hfresh).
  cbn [map CardStore.id]. rewrite str_eqb_refl. repeat split.
Qed.

Lemma selected_last (uuid : jsstring) (cards : list CardStore.CardData)
      (new : CardStore.CardData) (sentCards : list CardStore.CardData) :
  StoreSpec.unused uuid cards -> CardStore.id new = uuid ->
  CardStore.selectedCard
    {| CardStore.pendingCards := cards ++ [new];
       CardStore.sentCards := sentCards;
       CardStore.selectedCardId := Some uuid |} = Some new.
Proof.
  intros Hfresh Hid. unfold CardStore.selectedCard.
  cbn [CardStore.selectedCardId CardStore.pendingCards].
  rewrite (find_app_unused _ Hfresh). cbn [find]. rewrite Hid.
  now rewrite str_eqb_refl.
Qed.

(** X29.  What one dropped file does to the store, when its identifier is new.
    One card is appended, with the file's name, and selected; the cards
    that were there are not touched.  The card ends as failed when text
    extraction returns no text; as reviewing, with the extracted text and a
    confidence that is the larger of the OCR's and the parser's, when the
    text is not blank; and it stays in processing when text extraction
    fails or returns nothing but white space, which parseCard refuses: the
    catch clause only logs. *)
Theorem processFile_outcomes
  (rt : Coercion.Runtime) (file : DropZone.Dropped) (state : CardStore.State) :
  StoreSpec.unused (DropZone.uuid file) (CardStore.pendingCards state) ->
  let after := DropZone.processFile rt file state in
  exists card,
    CardStore.pendingCards after = CardStore.pendingCards state ++ [card]
    /\ CardStore.sentCards after = CardStore.sentCards state
    /\ CardStore.selectedCard after = Some card
    /\ CardStore.id card = DropZone.uuid file
    /\ CardStore.fileName card = DropZone.name file
    /\ match DropZone.extraction file with
       | Throw _ =>
           CardStore.status card = CardStore.processing
           /\ CardStore.extractedData card = None
       | Ok ocr =>
           match DropZone.text ocr, trim (DropZone.text ocr) with
           | [], _ =>
               CardStore.status card = CardStore.failed
               /\ CardStore.extractedData card = None
           | _ :: _, [] =>
               CardStore.status card = CardStore.processing
               /\ CardStore.extractedData card = None
           | _ :: _, _ :: _ =>
               CardStore.status card = CardStore.reviewing
               /\ CardStore.rawText card = DropZone.text ocr
               /\ exists parsed data,
                    ParseCard.parseCard rt (DropZone.reply file) (DropZone.text ocr)
                                        ParseCard.defaults = Ok parsed
                    /\ CardStore.extractedData card = Some data
                    /\ ParseCard.email data = ParseCard.email parsed
                    /\ ParseCard.confidence data
                       = Math_max (DropZone.confidence ocr) (ParseCard.confidence parsed)
           end
       end.
Proof.
  intros Hfresh. cbv zeta. unfold DropZone.processFile.
  set (card0 := {| CardStore.n_fileName := DropZone.name file |}).
  assert (Hadd : forall later updates, CardStore.u_id updates = None ->
            CardStore.u_fileName updates = None ->
            let after := CardStore.updateCard later (DropZone.uuid file) updates
                           (fst (CardStore.addCard (DropZone.uuid file)
                                   (DropZone.addedAt file) card0 state)) in
            exists new,
              CardStore.pendingCards after
              = CardStore.pendingCards state ++ [CardStore.applyUpdates new updates later]
              /\ CardStore.sentCards after = CardStore.sentCards state
              /\ CardStore.selectedCard after
                 = Some (CardStore.applyUpdates new updates later)
              /\ CardStore.id (CardStore.applyUpdates new updates later)
                 = DropZone.uuid file
              /\ CardStore.fileName (CardStore.applyUpdates new updates later)
                 = DropZone.name file
              /\ CardStore.extractedData new = None).
  { intros later updates Hu Hf. cbv zeta.
    destruct (@updateCard_after_addCard (DropZone.uuid file) (DropZone.addedAt file) later
                card0 updates state Hfresh)
      as (new & _ & Hp & Hid & Hfn & _ & Hex & _).
    exists new.
    assert (Hid' : CardStore.id (CardStore.applyUpdates new updates later)
                   = DropZone.uuid file).
    { cbn [CardStore.applyUpdates CardStore.id]. now rewrite Hu. }
    split; [exact Hp|]. split; [reflexivity|]. split.
    - unfold CardStore.selectedCard. rewrite Hp.
      cbn [CardStore.updateCard CardStore.addCard fst CardStore.selectedCardId].
      rewrite (find_app_unused _ Hfresh). cbn [find]. rewrite Hid'.
      now rewrite str_eqb_refl.
    - split; [exact Hid'|]. split; [|exact Hex].
      cbn [CardStore.applyUpdates CardStore.fileName]. now rewrite Hf. }
  assert (Hnew : exists new,
            fst (CardStore.addCard (DropZone.uuid file) (DropZone.addedAt file) card0 state)
            = {| CardStore.pendingCards := CardStore.pendingCards state ++ [new];
                 CardStore.sentCards := CardStore.sentCards state;
                 CardStore.selectedCardId := Some (DropZone.uuid file) |}
            /\ CardStore.id new = DropZone.uuid file
            /\ CardStore.fileName new = DropZone.name file
            /\ CardStore.status new = CardStore.processing
            /\ CardStore.extractedData new = None).
  { eexists. split; [reflexivity|]. repeat split. }
  destruct Hnew as (new & Hst & Hid & Hfn & Hs & Hex).
  assert (Hstay : exists card,
            CardStore.pendingCards
              (fst (CardStore.addCard (DropZone.uuid file) (DropZone.addedAt file) card0 state))
            = CardStore.pendingCards state ++ [card]
            /\ CardStore.sentCards
                 (fst (CardStore.addCard (DropZone.uuid file) (DropZone.addedAt file)
                         card0 state)) = CardStore.sentCards state
            /\ CardStore.selectedCard
                 (fst (CardStore.addCard (DropZone.uuid file) (DropZone.addedAt file)
                         card0 state)) = Some card
            /\ CardStore.id card = DropZone.uuid file
            /\ CardStore.fileName card = DropZone.name file
            /\ CardStore.status card = CardStore.processing
            /\ CardStore.extractedData card = None).
  { exists new. rewrite Hst. cbn [CardStore.pendingCards CardStore.sentCards].
    split; [reflexivity|]. split; [reflexivity|].
    split; [now apply selected_last|]. auto. }
  destruct (CardStore.addCard (DropZone.uuid file) (DropZone.addedAt file) card0 state)
    as [state1 cardId] eqn:Eadd.
  assert (Hcid : cardId = DropZone.uuid file).
  { unfold CardStore.addCard in Eadd. now injection Eadd. }
  subst cardId. cbn [fst] in *.
  destruct (DropZone.extraction file) as [ocr|e].
  - destruct (DropZone.text ocr) as [|ch text] eqn:Etext.
    + cbn [truthy].
      match goal with |- context [CardStore.updateCard ?l _ ?u _] =>
        destruct (Hadd l u eq_refl eq_refl) as (n & Hp & Hsc & Hsel & Hi & Hf & Hx) end.
      eexists. split; [exact Hp|]. split; [exact Hsc|]. split; [exact Hsel|].
      split; [exact Hi|]. split; [exact Hf|].
      cbn [CardStore.applyUpdates CardStore.status CardStore.extractedData
           CardStore.u_status CardStore.u_extractedData CardStore.override
           CardStore.overrideOpt].
      split; [reflexivity | exact Hx].
    + cbn [truthy]. destruct (trim (ch :: text)) as [|t ts] eqn:Etrim.
      * rewrite (@parseCard_blank rt _ _ _ Etrim).
        destruct Hstay as (card & Hp & Hsc & Hsel & Hi & Hf & Hst' & Hx).
        exists card. auto 10.
      * destruct (@parseCard_defaults_ok rt (DropZone.reply file) (ch :: text))
          as [parsed Hparsed]; [congruence|].
        rewrite Hparsed.
        match goal with |- context [CardStore.updateCard ?l _ ?u _] =>
          destruct (Hadd l u eq_refl eq_refl) as (n & Hp & Hsc & Hsel & Hi & Hf & Hx) end.
        eexists. split; [exact Hp|]. split; [exact Hsc|]. split; [exact Hsel|].
        split; [exact Hi|]. split; [exact Hf|].
        cbn [CardStore.applyUpdates CardStore.status CardStore.extractedData
             CardStore.rawText CardStore.u_rawText
             CardStore.u_status CardStore.u_extractedData CardStore.override
             CardStore.overrideOpt].
        split; [reflexivity|]. split; [reflexivity|].
        exists parsed. eexists. split; [reflexivity|]. split; [reflexivity|].
        split; reflexivity.
  - destruct Hstay as (card & Hp & Hsc & Hsel & Hi & Hf & Hst' & Hx).
    exists card. auto 10.
Qed.

Lemma processFile_shape
      (rt : Coercion.Runtime) (file : DropZone.Dropped) (state : CardStore.State) :
  let after := DropZone.processFile rt file state in
  length (CardStore.pendingCards after) = S (length (CardStore.pendingCards state))
  /\ CardStore.sentCards after = CardStore.sentCards state
  /\ CardStore.selectedCardId after = Some (DropZone.uuid file).
Proof.
  cbv zeta. unfold DropZone.processFile. cbn [CardStore.addCard].
  assert (L : forall new, length (CardStore.pendingCards state ++ [new])
                          = S (length (CardStore.pendingCards state))).
  { intros new. rewrite length_app. simpl. lia. }
  destruct (DropZone.extraction file) as [ocr|e].
  - destruct (truthy (DropZone.text ocr)).
    + destruct (ParseCard.parseCard rt _ _ _).
      * unfold CardStore.updateCard.
        cbn [CardStore.pendingCards CardStore.sentCards CardStore.selectedCardId].
        rewrite length_map. auto.
      * cbn [CardStore.pendingCards CardStore.sentCards CardStore.selectedCardId]. auto.
    + unfold CardStore.updateCard.
      cbn [CardStore.pendingCards CardStore.sentCards CardStore.selectedCardId].
      rewrite length_map. auto.
  - cbn [CardStore.pendingCards CardStore.sentCards CardStore.selectedCardId]. auto.
Qed.

(** X30.  A drop adds one pending card per file, whatever happens to the file:
    no failure removes the card again.  It sends nothing, and it leaves the
    selection on the last file of the drop. *)
Theorem onDrop_adds_a_card_per_file
  (rt : Coercion.Runtime) (files : list DropZone.Dropped) (state : CardStore.State) :
  let after := DropZone.onDrop rt files state in
  length (CardStore.pendingCards after)
  = length (CardStore.pendingCards state) + length files
  /\ CardStore.sentCards after = CardStore.sentCards state
  /\ CardStore.selectedCardId after
     = match rev files with
       | [] => CardStore.selectedCardId state
       | file :: _ => Some (DropZone.uuid file)
       end.
Proof.
  cbv zeta. unfold DropZone.onDrop.
  induction files as [|file files IH] using rev_ind.
  - cbn [fold_left length rev]. split; [lia | auto].
  - rewrite fold_left_app, rev_app_distr, length_app. cbn [fold_left rev app length].
    destruct (processFile_shape rt file (fold_left (fun s f => DropZone.processFile rt f s) files state))
      as (L & Sc & Sel).
    cbv zeta in L, Sc, Sel. destruct IH as (IL & ISc & _).
    rewrite L, Sc, Sel, IL, ISc. split; [lia | auto].
Qed.

(** ** The further properties at sample inputs *)

Lemma parseCard_outcomes_witness :
  ParseCard.parseCard Examples.runtime Examples.confidentReply (lit "   ")
    ParseCard.defaults
  = Throw "Empty text provided"
  /\ ParseCard.parseCard Examples.runtime Examples.unsureReply Examples.sampleCard
       Samples.aiOnly
     = ParseCard.extractWithGPT Examples.runtime Examples.unsureReply
  /\ exists r,
       ParseCard.parseCard Examples.runtime (ParseCard.ApiError "GPT API Error")
         Examples.sampleCard ParseCard.defaults = Ok r.
Proof.
  destruct (parseCard_outcomes Examples.runtime) as (Hblank & Hoff & Hon).
  split; [|split].
  - apply Hblank. vm_compute. reflexivity.
  - apply Hoff.
    + intros E. vm_compute in E. discriminate E.
    + reflexivity.
  - apply Hon.
    + intros E. vm_compute in E. discriminate E.
    + discriminate.
Defined.

Lemma parseCard_confidence_bands_witness :
  num_leb Spec.threshold (ParseCard.confidence Examples.confidentCandidate) = true
  /\ ParseCard.confidence Examples.vagueCandidate = NaN.
Proof.
  assert (Hon : ParseCard.fallbackToRegex ParseCard.defaults <> Some false)
    by discriminate.
  assert (Hrun : ParseCard.parseCard Examples.runtime Examples.confidentReply
                   Examples.sampleCard ParseCard.defaults
                 = Ok Examples.confidentCandidate)
    by (vm_compute; reflexivity).
  assert (Hvague : ParseCard.parseCard Examples.runtime Examples.vagueReply
                     Examples.sampleCard ParseCard.defaults
                   = Ok Examples.vagueCandidate)
    by (vm_compute; reflexivity).
  split.
  - refine (proj2 (proj2 (_ : Examples.confidentCandidate = Examples.confidentCandidate
                               /\ _ /\ (True -> _))) I).
    exact (@parseCard_confidence_bands Examples.runtime Examples.confidentReply
             Examples.sampleCard ParseCard.defaults Examples.confidentCandidate
             Hon Hrun).
  - destruct (proj1 (proj2 (@parseCard_confidence_bands Examples.runtime
                              Examples.vagueReply Examples.sampleCard
                              ParseCard.defaults Examples.vagueCandidate Hon Hvague
                            : Examples.vagueCandidate = Examples.vagueCandidate
                              /\ _ /\ _)))
      as [H | H]; [discriminate H | exact H].
Defined.

Lemma extractWithRegex_name_is_a_line_witness :
  exists line,
    In line (split_lines Examples.sampleCard) /\ lit "山田 太郎" = trim line
    /\ lit "山田 太郎" <> []
    /\ includes line (lit "@") = false /\ 1 < length line < 50.
Proof.
  apply (@extractWithRegex_name_is_a_line Examples.sampleCard ParseCard.ja).
  vm_compute. reflexivity.
Defined.

Lemma detectLanguage_looks_for_ten_characters_witness :
  ParseCard.detectLanguage (lit "山田 太郎") ParseCard.auto = ParseCard.en
  /\ ParseCard.detectLanguage (lit "漢") ParseCard.auto = ParseCard.ja.
Proof.
  split.
  - apply (detectLanguage_looks_for_ten_characters (lit "山田 太郎")).
    intros x Hx Hten. vm_compute in Hx, Hten.
    repeat (destruct Hx as [<- | Hx];
            [repeat (destruct Hten as [Hten | Hten]; [discriminate Hten|]);
             exact Hten|]).
    exact Hx.
  - apply (detectLanguage_looks_for_ten_characters (lit "漢")).
    exists 28450%N. split; vm_compute; auto 12.
Defined.

Lemma extractWithGPT_confidence_witness :
  (exists gpt,
     ParseCard.extractWithGPT Examples.runtime (ParseCard.Parsed Samples.overconfidentArgs)
     = Ok gpt
     /\ ParseCard.confidence gpt = Fin 1)
  /\ (exists gpt,
        ParseCard.extractWithGPT Examples.runtime (ParseCard.Parsed Examples.vagueArgs)
        = Ok gpt
        /\ ParseCard.confidence gpt = NaN).
Proof.
  split.
  - pose proof (extractWithGPT_confidence Examples.runtime Samples.overconfidentArgs)
      as H.
    cbv zeta in H. cbn [Samples.overconfidentArgs ParseCard.a_confidence] in H.
    destruct H as (_ & _ & _ & H). apply H. discriminate.
  - pose proof (extractWithGPT_confidence Examples.runtime Examples.vagueArgs) as H.
    cbv zeta in H. cbn [Examples.vagueArgs ParseCard.a_confidence] in H.
    destruct H as (_ & _ & H). apply H.
    + intros E. vm_compute in E. discriminate E.
    + vm_compute. reflexivity.
Defined.

Lemma processOCR_has_no_working_fallback_witness :
  ServerOCR.processOCR Samples.hasAt Samples.hasAt Samples.tesseractOnly
    (ServerOCR.Annotations (Some [Some Examples.sampleCard])) ProcessOCR.ApiError
  = Throw "OCR processing failed: No text extracted from image"
  /\ ServerOCR.processOCR Samples.hasAt Samples.hasAt ServerOCR.defaults
       (ServerOCR.VisionRejects (ServerOCR.ErrorWith "quota exceeded")) ProcessOCR.ApiError
     = Throw "OCR processing failed: Google Vision API failed: quota exceeded".
Proof.
  split.
  - apply (proj1 (processOCR_has_no_working_fallback Samples.hasAt Samples.hasAt
                    Samples.tesseractOnly
                    (ServerOCR.Annotations (Some [Some Examples.sampleCard]))
                    ProcessOCR.ApiError)).
    reflexivity.
  - refine (proj2 (processOCR_has_no_working_fallback Samples.hasAt Samples.hasAt
                     ServerOCR.defaults
                     (ServerOCR.VisionRejects (ServerOCR.ErrorWith "quota exceeded"))
                     ProcessOCR.ApiError) _ (ServerOCR.ErrorWith "quota exceeded") _).
    + discriminate.
    + reflexivity.
Defined.

Lemma processOCR_survives_the_ai_witness :
  exists r,
    ServerOCR.processOCR Samples.hasAt Samples.hasAt ServerOCR.defaults
      (ServerOCR.Annotations (Some [Some Examples.sampleCard])) ProcessOCR.BadJson = Ok r
    /\ r = ProcessOCR.parseCardDataWithGPT Samples.hasAt Samples.hasAt
             ProcessOCR.BadJson (or_else (Some Examples.sampleCard) [])
    /\ in_unit (ProcessOCR.confidence r).
Proof.
  apply processOCR_survives_the_ai.
  - discriminate.
  - intros E. vm_compute in E. discriminate E.
Defined.

Lemma parseCardDataWithGPT_drops_rejected_reply_witness :
  ProcessOCR.parseCardDataWithGPT Samples.hasAt Samples.hasAt
    (ProcessOCR.Parsed Samples.badEmailReply) Examples.sampleCard
  = ProcessOCR.extractWithRegex Examples.sampleCard
  /\ ProcessOCR.parseCardDataWithGPT Samples.hasAt Samples.hasAt
       (ProcessOCR.Parsed Samples.percentReply) Examples.sampleCard
     = ProcessOCR.extractWithRegex Examples.sampleCard.
Proof.
  split.
  - apply (proj1 (parseCardDataWithGPT_drops_rejected_reply Samples.hasAt Samples.hasAt
                    Samples.badEmailReply Examples.sampleCard)
             (lit "yamada at example.com")).
    + reflexivity.
    + intros E. vm_compute in E. discriminate E.
    + vm_compute. reflexivity.
  - apply (proj2 (parseCardDataWithGPT_drops_rejected_reply Samples.hasAt Samples.hasAt
                    Samples.percentReply Examples.sampleCard) 90%Q).
    + reflexivity.
    + reflexivity.
Defined.

Lemma createMessage_layout_witness :
  split_lines (Gmail.createMessage Samples.mail)
  = [ lit "From: " ++ lit "me@example.com";
      lit "To: " ++ lit "yamada@example.com";
      lit "Subject: " ++ lit "ご挨拶";
      lit "MIME-Version: 1.0";
      lit "Content-Type: text/plain; charset=utf-8";
      [] ]
    ++ split_lines (Gmail.body Samples.mail).
Proof.
  apply (createMessage_layout Samples.mail);
    intros H; vm_compute in H; repeat (destruct H as [H | H]; [discriminate H|]);
    exact H.
Defined.

Lemma sendGmail_outcomes_witness :
  Gmail.sendGmail Samples.expired Samples.mail
  = Gmail.AppError 401 (lit "Gmail access token expired")
  /\ Gmail.sendGmail Samples.threadless Samples.mail
     = Gmail.AppError 500 (lit "Failed to send email via Gmail")
  /\ Gmail.sendGmail Samples.accepting Samples.mail
     = Gmail.Returned {| Gmail.messageId := lit "msg-1"; Gmail.threadId := lit "thread-1" |}.
Proof.
  split; [|split].
  - pose proof (sendGmail_outcomes Samples.expired Samples.mail) as H.
    cbv zeta in H. destruct H as (_ & _ & H & _).
    apply (H (lit "insufficient_scope; invalid_grant")).
    + reflexivity.
    + vm_compute. reflexivity.
  - pose proof (sendGmail_outcomes Samples.threadless Samples.mail) as H.
    cbv zeta in H. destruct H as (_ & _ & _ & H).
    apply (H (Some (lit "msg-1")) None).
    + reflexivity.
    + right. reflexivity.
  - pose proof (sendGmail_outcomes Samples.accepting Samples.mail) as H.
    cbv zeta in H. destruct H as (H & _).
    apply (H {| Gmail.messageId := lit "msg-1"; Gmail.threadId := lit "thread-1" |}).
    split; [reflexivity|].
    split; intros E; vm_compute in E; discriminate E.
Defined.

Lemma postBatch_counts_every_recipient_witness :
  exists response,
    SendRoute.postBatch Examples.noParse Samples.threadless true Samples.accept
      Samples.user (Some [Examples.recipient; Examples.recipient])
      (fun _ => GenerateMail.ApiError)
    = SendRoute.Responded response
    /\ SendRoute.total response = 2
    /\ SendRoute.sentCount response + SendRoute.failedCount response = 2.
Proof.
  eexists. split; [reflexivity|].
  match goal with |- SendRoute.total ?r = _ /\ _ =>
    destruct (@postBatch_counts_every_recipient _ Samples.accept Examples.noParse
                Samples.threadless true Samples.user
                (Some [Examples.recipient; Examples.recipient])
                (fun _ => GenerateMail.ApiError) r eq_refl)
      as (raw & validated & Hraw & _ & _ & Htotal & _ & _ & Hsum)
  end.
  injection Hraw as <-. split; [exact Htotal|]. rewrite Hsum. exact Htotal.
Defined.

Lemma postSend_fails_only_at_gmail_witness :
  exists subject,
    SendRoute.postSend Examples.noParse Samples.accepting Samples.user Samples.request
      GenerateMail.ApiError
    = SendRoute.Responded
        {| SendRoute.r_messageId := lit "msg-1";
           SendRoute.r_to := lit "yamada@example.com";
           SendRoute.r_subject := subject |}.
Proof.
  apply (proj1 (postSend_fails_only_at_gmail Examples.noParse Samples.accepting
                  Samples.user Samples.request GenerateMail.ApiError)
           (lit "msg-1") (lit "thread-1")).
  - reflexivity.
  - intros E. vm_compute in E. discriminate E.
  - intros E. vm_compute in E. discriminate E.
Defined.

Lemma generateEmail_with_tone_is_complete_witness :
  exists s b,
    EmailGenerator.subject
      (EmailGenerator.generateEmail Examples.professionalJa EmailGenerator.BadJson) = Some s
    /\ EmailGenerator.body
         (EmailGenerator.generateEmail Examples.professionalJa EmailGenerator.BadJson)
       = Some b
    /\ s <> [] /\ b <> [].
Proof.
  apply (@generateEmail_with_tone_is_complete Examples.professionalJa
           EmailGenerator.professional EmailGenerator.BadJson).
  reflexivity.
Defined.

Lemma generateEmailStream_without_body_marker_witness :
  EmailGenerator.body
    (snd (EmailGenerator.generateEmailStream Examples.professionalJa
            (OpenAI.Chunks [Some (lit "件名: ご挨拶"); None; Some (lit "山田様")] false)))
  = Some [].
Proof.
  apply generateEmailStream_without_body_marker.
  repeat constructor.
Defined.

Lemma generateEmailStream_resolves_to_last_partial_witness :
  last (fst (EmailGenerator.generateEmailStream Examples.professionalJa
               (OpenAI.Chunks [Some (lit "件名: ご挨拶"); None] false)))
       (EmailGenerator.generateTemplateEmail Examples.professionalJa)
  = snd (EmailGenerator.generateEmailStream Examples.professionalJa
           (OpenAI.Chunks [Some (lit "件名: ご挨拶"); None] false)).
Proof.
  apply (proj2 (generateEmailStream_resolves_to_last_partial Examples.professionalJa
                  [Some (lit "件名: ご挨拶"); None] false)).
  - reflexivity.
  - discriminate.
Defined.

Lemma web_generateMail_outcomes_witness :
  WebComposer.generateMail Samples.noJson Samples.nameless WebGenerateMail.defaults
    (WebComposer.ApiError "GPT API Error")
  = Throw "名前とメールアドレスは必須です"
  /\ exists mail,
       WebComposer.generateMail Samples.noJson Examples.confidentCandidate
         WebGenerateMail.defaults (WebComposer.ApiError "GPT API Error") = Ok mail
       /\ WebGenerateMail.body mail <> [].
Proof.
  split.
  - apply (proj1 (web_generateMail_outcomes Samples.noJson Samples.nameless
                    WebGenerateMail.defaults (WebComposer.ApiError "GPT API Error"))).
    left. reflexivity.
  - destruct (proj2 (web_generateMail_outcomes Samples.noJson Examples.confidentCandidate
                       WebGenerateMail.defaults (WebComposer.ApiError "GPT API Error")))
      as (mail & Hrun & Hbody & _).
    + intros E. vm_compute in E. discriminate E.
    + intros E. vm_compute in E. discriminate E.
    + exists mail. split; [exact Hrun | exact Hbody].
Defined.

Lemma preprocessing_failure_is_invisible_witness :
  Worker.processCardHandler Samples.brokenSharp Examples.job []
  = Worker.processCardHandler
      {| Worker.base64 := Worker.base64 Samples.brokenSharp;
         Worker.sharp := fun buffer => Ok buffer;
         Worker.recognize := Worker.recognize Samples.brokenSharp;
         Worker.uuidv4 := Worker.uuidv4 Samples.brokenSharp;
         Worker.postCard := Worker.postCard Samples.brokenSharp;
         Worker.postSend := Worker.postSend Samples.brokenSharp;
         Worker.putCard := Worker.putCard Samples.brokenSharp |} Examples.job [].
Proof.
  apply (@preprocessing_failure_is_invisible Samples.brokenSharp Examples.job []
           "Input buffer contains unsupported image format").
  reflexivity.
Defined.

Lemma card_update_failure_does_not_fail_the_job_witness :
  Worker.processCardHandler Samples.noCards Examples.job []
  = (Throw "Failed to save card: Internal Server Error", [10; 30; 60; 70]%Z)
  /\ Worker.processCardHandler Samples.noMail Examples.job []
     = (Throw "Failed to send email: Internal Server Error", [10; 30; 60; 70; 80]%Z)
  /\ snd (Worker.processCardHandler Samples.noUpdate Examples.job [])
     = [10; 30; 60; 70; 80; 100]%Z.
Proof.
  split; [|split].
  - apply (proj1 (@card_update_failure_does_not_fail_the_job Samples.noCards
                    Examples.job Examples.sampleCard eq_refl) Examples.serverError);
      reflexivity.
  - apply (proj1 (proj2 (@card_update_failure_does_not_fail_the_job Samples.noMail
                           Examples.job Examples.sampleCard eq_refl)
                    Examples.created Examples.serverError
                    {| Worker.messageId := []; Worker.resultSubject := None;
                       Worker.resultBody := None |}
                    (fun _ => eq_refl) eq_refl (fun _ => eq_refl)));
      reflexivity.
  - rewrite (proj2 (proj2 (@card_update_failure_does_not_fail_the_job Samples.noUpdate
                             Examples.job Examples.sampleCard eq_refl)
                      Examples.created Examples.created
                      {| Worker.messageId := lit "msg-1"; Worker.resultSubject := None;
                         Worker.resultBody := None |}
                      (fun _ => eq_refl) eq_refl (fun _ => eq_refl)));
      reflexivity.
Defined.

Lemma role_without_name_is_the_second_line_witness :
  Worker.role (Worker.extractBusinessCardInfo Samples.tradeCard)
  = trim (lit "03-1234-5678")
  /\ Worker.name (Worker.extractBusinessCardInfo Samples.tradeCard) = lit "Unknown".
Proof.
  apply (@role_without_name_is_the_second_line Samples.tradeCard
           (lit "ACME") (lit "03-1234-5678") []).
  - vm_compute. reflexivity.
  - vm_compute. reflexivity.
  - vm_compute. lia.
  - vm_compute. reflexivity.
Defined.

Lemma worker_confidence_and_email_witness :
  ((Worker.confidence (Worker.extractBusinessCardInfo Samples.tradeCard) <= 60)%Z
   /\ Worker.email (Worker.extractBusinessCardInfo Samples.tradeCard)
      = lit "no-email@example.com")
  /\ (40 <= Worker.confidence (Worker.extractBusinessCardInfo Examples.sampleCard))%Z.
Proof.
  split.
  - apply (proj1 (worker_confidence_and_email Samples.tradeCard)).
    vm_compute. reflexivity.
  - apply (proj2 (worker_confidence_and_email Examples.sampleCard)).
    intros E. vm_compute in E. discriminate E.
Defined.

Lemma first_run_with_autoSend_fails_witness :
  ProcessingContext.succeeded
    (ProcessingContext.processJob Samples.autoSending Examples.browserJob) = false
  /\ ProcessingContext.reported
       (ProcessingContext.processJob Samples.autoSending Examples.browserJob)
     = [10; 40; 70]%Z
  /\ map ProcessingContext.u_error
       (ProcessingContext.processJob Samples.autoSending Examples.browserJob)
     = [None; None; None; Some "OCR result or email content missing"%string]
  /\ Forall (fun u => ProcessingContext.u_emailId u = None)
       (ProcessingContext.processJob Samples.autoSending Examples.browserJob).
Proof.
  apply (@first_run_with_autoSend_fails Samples.autoSending Examples.browserJob
           Samples.yamada).
  - reflexivity.
  - left. reflexivity.
  - reflexivity.
Defined.

Lemma processJob_ends_once_witness :
  endsWith
    (ProcessingContext.body
       (ProcessingContext.generateEmailContent Examples.browserServices Samples.yamada))
    GenerateMail.closing = true.
Proof.
  apply (proj2 (proj2 (processJob_ends_once Examples.browserServices Examples.browserJob))
           Samples.yamada "Network Error"%string).
  reflexivity.
Defined.

Lemma addCard_selects_the_new_card_witness :
  let (after, cardId) :=
    CardStore.addCard (lit "card-3") (lit "2024-01-02T00:00:00.000Z") Samples.fresh
      Samples.store in
  cardId = lit "card-3"
  /\ length (CardStore.pendingCards after) = S (length (CardStore.pendingCards Samples.store))
  /\ CardStore.sentCards after = CardStore.sentCards Samples.store
  /\ exists new,
       CardStore.selectedCard after = Some new
       /\ last (CardStore.pendingCards after) new = new
       /\ CardStore.id new = cardId
       /\ CardStore.status new = CardStore.n_status Samples.fresh
       /\ CardStore.createdAt new = lit "2024-01-02T00:00:00.000Z"
       /\ CardStore.updatedAt new = lit "2024-01-02T00:00:00.000Z".
Proof.
  apply (@addCard_selects_the_new_card (lit "card-3") (lit "2024-01-02T00:00:00.000Z")
           Samples.fresh Samples.store).
  repeat constructor; intros E; vm_compute in E; discriminate E.
Defined.

Lemma updateCard_touches_only_its_card_witness :
  CardStore.pendingCards
    (CardStore.updateCard (lit "2024-01-02T00:00:00.000Z") (lit "card-9")
       Samples.readyNow Samples.store)
  = CardStore.pendingCards Samples.store
  /\ exists c',
       nth_error
         (CardStore.pendingCards
            (CardStore.updateCard (lit "2024-01-02T00:00:00.000Z") (lit "card-2")
               Samples.readyNow Samples.store)) 1 = Some c'
       /\ CardStore.updatedAt c' = lit "2024-01-02T00:00:00.000Z"
       /\ CardStore.status c' = CardStore.ready.
Proof.
  split.
  - pose proof (updateCard_touches_only_its_card (lit "2024-01-02T00:00:00.000Z")
                  (lit "card-9") Samples.readyNow Samples.store) as H.
    cbv zeta in H. destruct H as (_ & _ & _ & _ & _ & H). apply H.
    repeat constructor; intros E; vm_compute in E; discriminate E.
  - pose proof (updateCard_touches_only_its_card (lit "2024-01-02T00:00:00.000Z")
                  (lit "card-2") Samples.readyNow Samples.store) as H.
    cbv zeta in H. destruct H as (_ & _ & _ & _ & H & _).
    destruct (H 1 (Samples.pending (lit "card-2")) eq_refl eq_refl)
      as (c' & Hnth & Htime & Hstatus & _).
    exists c'. split; [exact Hnth|]. split; [exact Htime|].
    apply Hstatus. reflexivity.
Defined.

Lemma sendCard_moves_the_card_witness :
  CardStore.selectedCard
    (CardStore.sendCard (lit "2024-01-02T00:00:00.000Z") (lit "card-1") Samples.store)
  = None
  /\ length (CardStore.pendingCards
               (CardStore.sendCard (lit "2024-01-02T00:00:00.000Z") (lit "card-1")
                  Samples.store))
     + length (CardStore.sentCards
                 (CardStore.sendCard (lit "2024-01-02T00:00:00.000Z") (lit "card-1")
                    Samples.store))
     = length (CardStore.pendingCards Samples.store)
       + length (CardStore.sentCards Samples.store)
  /\ CardStore.sendCard (lit "2024-01-02T00:00:00.000Z") (lit "card-9") Samples.store
     = Samples.store.
Proof.
  pose proof (sendCard_moves_the_card (lit "2024-01-02T00:00:00.000Z") (lit "card-1")
                Samples.store) as H.
  cbv zeta in H. destruct H as (_ & H).
  destruct (H (Samples.pending (lit "card-1")))
    as (_ & _ & _ & _ & _ & _ & Hsel & Hcount).
  { vm_compute. reflexivity. }
  split; [apply Hsel; reflexivity|]. split.
  - apply Hcount. repeat constructor; cbn [map In];
      intros E; vm_compute in E; intuition discriminate.
  - pose proof (sendCard_moves_the_card (lit "2024-01-02T00:00:00.000Z") (lit "card-9")
                  Samples.store) as H9.
    cbv zeta in H9. apply (proj1 H9).
    repeat constructor; intros E; vm_compute in E; discriminate E.
Defined.

Lemma clearCard_removes_and_deselects_witness :
  CardStore.selectedCardId (CardStore.clearCard (lit "card-2") Samples.store)
  = CardStore.selectedCardId Samples.store
  /\ In (Samples.pending (lit "card-1"))
        (CardStore.pendingCards (CardStore.clearCard (lit "card-2") Samples.store)).
Proof.
  pose proof (clearCard_removes_and_deselects (lit "card-2") Samples.store) as H.
  cbv zeta in H. destruct H as (_ & _ & _ & Hsel & Hin & _). split.
  - apply Hsel. intros E. vm_compute in E. discriminate E.
  - apply Hin.
    + left. reflexivity.
    + intros E. vm_compute in E. discriminate E.
Defined.

Lemma processFile_outcomes_witness :
  exists card,
    CardStore.pendingCards
      (DropZone.processFile Examples.runtime Samples.blankScan Samples.store)
    = CardStore.pendingCards Samples.store ++ [card]
    /\ CardStore.selectedCard
         (DropZone.processFile Examples.runtime Samples.blankScan Samples.store)
       = Some card
    /\ CardStore.fileName card = lit "blank.jpg"
    /\ CardStore.status card = CardStore.processing.
Proof.
  destruct (@processFile_outcomes Examples.runtime Samples.blankScan Samples.store)
    as (card & Hp & _ & Hsel & _ & Hfn & Hm).
  { repeat constructor; intros E; vm_compute in E; discriminate E. }
  exists card. split; [exact Hp|]. split; [exact Hsel|]. split; [exact Hfn|].
  change (CardStore.status card = CardStore.processing
          /\ CardStore.extractedData card = None) in Hm.
  exact (proj1 Hm).
Defined.
